(** * MUS.AI: the retrieval core of the museum recommender

    A shallow embedding of the retrieval-and-ranking engine of the
    repository (src/vector_store.py, src/ingestion.py and the
    VectorSearchStep of src/pipeline_steps.py) and the properties the
    specification states about it.

    Conventions of the embedding:
    - a Python [str] is the list of its code points ([Py.str]), so that
      [len], slicing, [rfind] and [strip] count characters as Python does;
      literals are written as UTF-8 text and decoded with [Py.u];
    - a Python [int] is a [Z]; a [float] score is an exact rational [Q]
      (rounding is not modelled);
    - a [dict] is an association list in insertion order with unique keys;
    - an exception is a value [Raise e] of the [result] type;
    - the [while] loop of [chunk_text] is run with fuel: [None] means the
      fuel ran out before the loop ended. *)

From Stdlib Require Import List ZArith NArith QArith String Ascii Bool Lia.
From Stdlib Require Import DecimalString DecimalNat Permutation FinFun.
From Stdlib Require DecimalFacts.
From Stdlib Require Import Sorted.
Import ListNotations.

Local Open Scope Z_scope.

(* ================================================================== *)
(** * Part I: definitions *)
(* ================================================================== *)

(** ** Python primitives used by the source *)

Module Py.

Definition str := list N.

Fixpoint bytes_of (s : string) : list N :=
  match s with
  | EmptyString => []
  | String a r => N_of_ascii a :: bytes_of r
  end.

(** Decoding of the UTF-8 bytes of a source literal into code points. *)
Fixpoint utf8 (l : list N) : str :=
  match l with
  | [] => []
  | b :: r =>
    if (b <? 128)%N then b :: utf8 r
    else if (b <? 224)%N then
      match r with
      | c :: r' => N.lor (N.shiftl (N.land b 31) 6) (N.land c 63) :: utf8 r'
      | _ => []
      end
    else if (b <? 240)%N then
      match r with
      | c :: d :: r' =>
          N.lor (N.shiftl (N.land b 15) 12)
            (N.lor (N.shiftl (N.land c 63) 6) (N.land d 63)) :: utf8 r'
      | _ => []
      end
    else
      match r with
      | c :: d :: e :: r' =>
          N.lor (N.shiftl (N.land b 7) 18)
            (N.lor (N.shiftl (N.land c 63) 12)
               (N.lor (N.shiftl (N.land d 63) 6) (N.land e 63))) :: utf8 r'
      | _ => []
      end
  end.

Definition u (s : string) : str := utf8 (bytes_of s).

(** [len(l)] *)
Definition len {A : Type} (l : list A) : Z := Z.of_nat (List.length l).

(** Index adjustment of a slice bound ([slice.indices], step 1). *)
Definition adjust (n i : Z) : Z :=
  if i <? 0 then Z.max 0 (n + i) else Z.min i n.

(** [l[a:b]] *)
Definition slice {A : Type} (l : list A) (a b : Z) : list A :=
  let a' := adjust (len l) a in
  let b' := adjust (len l) b in
  firstn (Z.to_nat (b' - a')) (skipn (Z.to_nat a') l).

(** [l[:k]] *)
Definition take {A : Type} (l : list A) (k : Z) : list A := slice l 0 k.

(** [l[i]]; [None] stands for IndexError. *)
Definition index {A : Type} (l : list A) (i : Z) : option A :=
  let j := if i <? 0 then len l + i else i in
  if j <? 0 then None else nth_error l (Z.to_nat j).

(** Highest position of [c] in [l], whose first element has position [i];
    [-1] when [c] does not occur. *)
Fixpoint rfind_from (c : N) (l : str) (i : Z) : Z :=
  match l with
  | [] => -1
  | x :: r =>
    let j := rfind_from c r (i + 1) in
    if j =? -1 then (if (x =? c)%N then i else -1) else j
  end.

(** [text.rfind(c, a, b)] for a one-character [c]. *)
Definition rfind (c : N) (text : str) (a b : Z) : Z :=
  let a' := adjust (len text) a in
  let b' := adjust (len text) b in
  rfind_from c (firstn (Z.to_nat (b' - a')) (skipn (Z.to_nat a') text)) a'.

(** [ch.isspace()] on one code point. *)
Definition isspace (c : N) : bool :=
  ((9 <=? c) && (c <=? 13) || (28 <=? c) && (c <=? 32)
   || (c =? 133) || (c =? 160) || (c =? 5760)
   || (8192 <=? c) && (c <=? 8202)
   || (c =? 8232) || (c =? 8233) || (c =? 8239) || (c =? 8287)
   || (c =? 12288))%N.

Fixpoint lstrip (s : str) : str :=
  match s with
  | [] => []
  | c :: r => if isspace c then lstrip r else s
  end.

Definition rstrip (s : str) : str := rev (lstrip (rev s)).

(** [s.strip()] *)
Definition strip (s : str) : str := lstrip (rstrip s).

Fixpoint str_eqb (a b : str) : bool :=
  match a, b with
  | [], [] => true
  | x :: a', y :: b' => (x =? y)%N && str_eqb a' b'
  | _, _ => false
  end.

(** Three-way comparison of two strings, code point by code point. *)
Fixpoint str_cmp (a b : str) : comparison :=
  match a, b with
  | [], [] => Eq
  | [], _ :: _ => Lt
  | _ :: _, [] => Gt
  | x :: a', y :: b' =>
    match (x ?= y)%N with
    | Eq => str_cmp a' b'
    | c => c
    end
  end.

(** [a >= b] on strings. *)
Definition ge (a b : str) : bool :=
  match str_cmp a b with Lt => false | _ => true end.

(** [x in l] for a list of strings. *)
Definition contains (x : str) (l : list str) : bool := existsb (str_eqb x) l.

(** [sep.join(parts)] *)
Fixpoint join (sep : str) (parts : list str) : str :=
  match parts with
  | [] => []
  | [p] => p
  | p :: rest => p ++ sep ++ join sep rest
  end.

(** [s.lower()], on the ASCII letters (the comparisons of the source
    are against ASCII literals only). *)
Definition lower (s : str) : str :=
  map (fun c => if ((65 <=? c) && (c <=? 90))%N then (c + 32)%N else c) s.

(** [str(n)] for a natural number. *)
Definition str_of_nat (n : nat) : str :=
  u (NilZero.string_of_uint (Nat.to_uint n)).

(** Truth value of a list, and of an optional list ([None] is falsy). *)
Definition nonempty {A : Type} (l : list A) : bool :=
  match l with [] => false | _ => true end.

Definition truthy {A : Type} (o : option (list A)) : bool :=
  match o with Some l => nonempty l | None => false end.

End Py.

(** ** Exceptions *)

(** [LoaderError] is what a loader raises on a file it cannot read;
    [StoreError] is what the embedding model, faiss or the file system
    raises inside [add_documents]. *)

Inductive exn : Type :=
| FileNotFoundError
| ValueError (msg : Py.str)
| AssertionError
| IndexError
| KeyError
| LoaderError
| StoreError.

Inductive result (A : Type) : Type :=
| Ok (a : A)
| Raise (e : exn).

Arguments Ok {A} a.
Arguments Raise {A} e.

(** ** config.py: the settings read by the core *)

Record Settings : Type := {
  top_k : Z;
  chunk_size : Z;
  chunk_overlap : Z
}.

(** The defaults of src/config.py. *)
Definition default_settings : Settings :=
  {| top_k := 5; chunk_size := 512; chunk_overlap := 50 |}.

(** ** The similarity index (faiss.IndexFlatIP)

    The index is a third-party library; the model keeps what the source
    relies on: vectors are appended in order, [search] ranks every stored
    vector by inner product with the query, best first, and returns
    exactly [k] hits, missing ones being filled with position [-1]; its
    Python wrapper asserts [k > 0]. *)

Module Faiss.

Definition vec := list Q.

Fixpoint inner_product (a b : vec) : Q :=
  match a, b with
  | x :: a', y :: b' => (x * y + inner_product a' b')%Q
  | _, _ => 0%Q
  end.

(** A hit: the score and the position of the vector in the index. *)
Definition hit : Type := Q * Z.

Definition positions (n : nat) : list Z := map Z.of_nat (seq 0 n).

Definition scored (xb : list vec) (q : vec) : list hit :=
  combine (map (inner_product q) xb) (positions (List.length xb)).

(** Insertion into a list ordered by descending score; among equal
    scores the hit inserted last comes first. *)
Fixpoint insert_hit (h : hit) (l : list hit) : list hit :=
  match l with
  | [] => [h]
  | g :: r =>
    if Qle_bool (fst g) (fst h) then h :: l else g :: insert_hit h r
  end.

Definition ranked (xb : list vec) (q : vec) : list hit :=
  fold_right insert_hit [] (scored xb q).

(** The score that accompanies a missing hit (the lowest float32). *)
Definition lowest : Q := (-340282346638528859811704183484516925440 # 1)%Q.

(** [index.search(q, k)] for one query; [None] is the failed assertion
    [k > 0]. *)
Definition search (xb : list vec) (q : vec) (k : Z) : option (list hit) :=
  if k <=? 0 then None
  else
    let found := firstn (Z.to_nat k) (ranked xb q) in
    Some (found ++ repeat (lowest, -1) (Z.to_nat k - List.length found)).

End Faiss.

(** ** vector_store.py *)

Record MuseumDocument : Type := {
  doc_id : Py.str;
  museum_name : Py.str;
  exhibition_title : Py.str;
  description : Py.str;
  start_date : Py.str;
  end_date : Py.str;
  tags : list Py.str;
  location : Py.str;
  accessibility : list Py.str;
  audience : list Py.str
}.

(** The [documents] dictionary: keys in insertion order. *)
Definition dict : Type := list (Py.str * MuseumDocument).

Definition keys (d : dict) : list Py.str := map fst d.

(** [d[k] = v]: an existing key keeps its place, a new key goes last. *)
Fixpoint dict_set (k : Py.str) (v : MuseumDocument) (d : dict) : dict :=
  match d with
  | [] => [(k, v)]
  | (k', v') :: r =>
    if Py.str_eqb k' k then (k, v) :: r else (k', v') :: dict_set k v r
  end.

(** [d[k]]; [None] stands for KeyError. *)
Fixpoint dict_get (k : Py.str) (d : dict) : option MuseumDocument :=
  match d with
  | [] => None
  | (k', v') :: r => if Py.str_eqb k' k then Some v' else dict_get k r
  end.

(** The store: the index ([None] until the first batch), the documents,
    and the snapshots written by [_save_index], newest first (the files
    on disk hold the head of that list). The attribute [doc_embeddings]
    of the source is never written and is left out. *)
Record VectorStore : Type := {
  index : option (list Faiss.vec);
  documents : dict;
  saved : list (list Faiss.vec * dict)
}.

(** A new store when nothing was persisted. *)
Definition empty_store : VectorStore :=
  {| index := None; documents := []; saved := [] |}.

(** A scored document, as [search] returns it. *)
Definition scored_doc : Type := MuseumDocument * Q.

Section Store.

(** The embedding model: one text to one vector; a batch is encoded
    text by text. *)
Variable encode : Py.str -> Faiss.vec.

(** [EmbeddingModel.encode_query] *)
Definition encode_query (query : Py.str) : Faiss.vec :=
  encode (Py.u "query: " ++ query).

(** The text embedded for a document. *)
Definition embedded_text (doc : MuseumDocument) : Py.str :=
  exhibition_title doc ++ Py.u ". " ++ description doc.

(** [VectorStore._save_index] *)
Definition _save_index (st : VectorStore) : VectorStore :=
  match index st with
  | Some xb =>
    {| index := index st; documents := documents st;
       saved := (xb, documents st) :: saved st |}
  | None => st
  end.

(** [VectorStore.add_documents] *)
Definition add_documents (docs : list MuseumDocument) (st : VectorStore)
  : VectorStore :=
  match docs with
  | [] => st
  | _ =>
    let documents' :=
      fold_left (fun d doc => dict_set (doc_id doc) doc d) docs (documents st) in
    let embeddings := map (fun doc => encode (embedded_text doc)) docs in
    let xb := match index st with Some xb => xb | None => [] end in
    _save_index
      {| index := Some (xb ++ embeddings); documents := documents';
         saved := saved st |}
  end.

(** [any(x in have for x in wanted)] *)
Definition any_in (wanted have : list Py.str) : bool :=
  existsb (fun x => Py.contains x have) wanted.

(** The loop of [search] over the hits of the index. *)
Fixpoint scan (docs : dict) (k : Z)
    (filter_tags filter_audience : option (list Py.str))
    (hits : list Faiss.hit) (results : list scored_doc)
  : result (list scored_doc) :=
  match hits with
  | [] => Ok results
  | (score, idx) :: rest =>
    if idx =? -1 then Ok results
    else
      match Py.index (keys docs) idx with
      | None => Raise IndexError
      | Some id =>
        match dict_get id docs with
        | None => Raise KeyError
        | Some doc =>
          if Py.truthy filter_tags
             && negb (any_in (match filter_tags with Some l => l | None => [] end)
                             (tags doc))
          then scan docs k filter_tags filter_audience rest results
          else if Py.truthy filter_audience
             && negb (any_in (match filter_audience with Some l => l | None => [] end)
                             (audience doc))
          then scan docs k filter_tags filter_audience rest results
          else
            let results' := results ++ [(doc, score)] in
            if Py.len results' >=? k then Ok results'
            else scan docs k filter_tags filter_audience rest results'
        end
      end
  end.

(** [top_k or settings.top_k] *)
Definition or_default (arg : option Z) (default : Z) : Z :=
  match arg with
  | Some k => if k =? 0 then default else k
  | None => default
  end.

(** [VectorStore.search] *)
Definition search (cfg : Settings) (st : VectorStore) (query : Py.str)
    (top_k_arg : option Z)
    (filter_tags filter_audience : option (list Py.str))
  : result (list scored_doc) :=
  match index st with
  | None => Ok []
  | Some xb =>
    if Py.len (documents st) =? 0 then Ok []
    else
      let k := or_default top_k_arg (top_k cfg) in
      match Faiss.search xb (encode_query query)
              (Z.min (k * 2) (Py.len (documents st))) with
      | None => Raise AssertionError
      | Some hits =>
        scan (documents st) k filter_tags filter_audience hits []
      end
  end.

(** A sequence of [add_documents] calls, one per batch. *)
Definition add_all (batches : list (list MuseumDocument)) (st : VectorStore)
  : VectorStore :=
  fold_left (fun s batch => add_documents batch s) batches st.

(** [VectorStore.get_document_count] *)
Definition get_document_count (st : VectorStore) : Z := Py.len (documents st).

End Store.

(** ** ingestion.py *)

Module Ingestion.

(** The sentence terminators looked for by [chunk_text]. *)
Definition full_stop : N := 46%N.
Definition exclamation : N := 33%N.
Definition question : N := 63%N.

(** The three [rfind] calls: '.', then '!' and '?' while nothing was
    found. *)
Definition sentence_end (text : Py.str) (start end_ : Z) : Z :=
  let se := Py.rfind full_stop text start end_ in
  let se := if se =? -1 then Py.rfind exclamation text start end_ else se in
  if se =? -1 then Py.rfind question text start end_ else se.

(** The end of the window that starts at [start]. *)
Definition window_end (text : Py.str) (size start : Z) : Z :=
  let end_ := start + size in
  if end_ <? Py.len text then
    let se := sentence_end text start end_ in
    if negb (se =? -1) && (se >? start) then se + 1 else end_
  else end_.

(** One pass through the body of the [while] loop: the chunk list and
    the next value of [start]. *)
Definition chunk_step (text : Py.str) (size overlap : Z)
    (start : Z) (chunks : list Py.str) : list Py.str * Z :=
  let end_ := window_end text size start in
  let chunk := Py.strip (Py.slice text start end_) in
  (if Py.nonempty chunk then chunks ++ [chunk] else chunks, end_ - overlap).

(** The [while] loop, with fuel. *)
Fixpoint chunk_loop (fuel : nat) (text : Py.str) (size overlap : Z)
    (start : Z) (chunks : list Py.str) : option (list Py.str) :=
  match fuel with
  | O => None
  | S fuel' =>
    if start <? Py.len text then
      let '(chunks', start') := chunk_step text size overlap start chunks in
      if start' >=? Py.len text then Some chunks'
      else chunk_loop fuel' text size overlap start' chunks'
    else Some chunks
  end.

(** [chunk_text] *)
Definition chunk_text (fuel : nat) (text : Py.str) (size overlap : Z)
  : option (list Py.str) :=
  if Py.len text <=? size then Some [text]
  else chunk_loop fuel text size overlap 0 [].

(** The document built for chunk number [i]. *)
Definition chunk_doc (doc : MuseumDocument) (i : nat) (chunk : Py.str)
  : MuseumDocument :=
  {| doc_id := doc_id doc ++ Py.u "_chunk_" ++ Py.str_of_nat i;
     museum_name := museum_name doc;
     exhibition_title := exhibition_title doc;
     description := chunk;
     start_date := start_date doc;
     end_date := end_date doc;
     tags := tags doc;
     location := location doc;
     accessibility := accessibility doc;
     audience := audience doc |}.

Fixpoint enumerate_from {A : Type} (i : nat) (l : list A) : list (nat * A) :=
  match l with
  | [] => []
  | x :: r => (i, x) :: enumerate_from (S i) r
  end.

(** [create_exhibition_chunks] *)
Definition create_exhibition_chunks (fuel : nat) (cfg : Settings)
    (doc : MuseumDocument) : option (list MuseumDocument) :=
  match chunk_text fuel (description doc) (chunk_size cfg) (chunk_overlap cfg) with
  | None => None
  | Some chunks =>
    Some (map (fun ic => chunk_doc doc (fst ic) (snd ic)) (enumerate_from 0 chunks))
  end.

(** The expiry filter of [ingest_data]: the documents kept. *)
Definition active_documents (current_date : Py.str)
    (docs : list MuseumDocument) : list MuseumDocument :=
  filter (fun doc => Py.ge (end_date doc) current_date) docs.

(** The chunking pass of [ingest_data] over the active documents. *)
Fixpoint all_chunks (fuel : nat) (cfg : Settings)
    (active : list MuseumDocument) : option (list MuseumDocument) :=
  match active with
  | [] => Some []
  | doc :: rest =>
    let here :=
      if Py.len (description doc) >? chunk_size cfg
      then create_exhibition_chunks fuel cfg doc
      else Some [doc] in
    match here, all_chunks fuel cfg rest with
    | Some c, Some cs => Some (c ++ cs)
    | _, _ => None
    end
  end.

(** What the call sees of its environment: whether the path exists,
    the suffix of its last component, what each loader returns on it
    ([None] when the loader raises) and the date of the day. *)
Record Source : Type := {
  path_exists : bool;
  suffix : Py.str;
  load_csv : option (list MuseumDocument);
  load_json : option (list MuseumDocument);
  today : Py.str
}.

Definition unsupported (what : Py.str) : exn :=
  ValueError (Py.u "Unsupported file format: " ++ what).

(** The format after the detection step of [ingest_data]. *)
Definition detect_format (src : Source) (file_format : Py.str)
  : result Py.str :=
  if Py.str_eqb file_format (Py.u "auto") then
    if Py.str_eqb (Py.lower (suffix src)) (Py.u ".csv") then Ok (Py.u "csv")
    else if Py.str_eqb (Py.lower (suffix src)) (Py.u ".json") then Ok (Py.u "json")
    else Raise (unsupported (suffix src))
  else Ok file_format.

(** The loading step of [ingest_data]. *)
Definition load (src : Source) (file_format : Py.str)
  : result (list MuseumDocument) :=
  if Py.str_eqb file_format (Py.u "csv") then
    match load_csv src with Some d => Ok d | None => Raise LoaderError end
  else if Py.str_eqb file_format (Py.u "json") then
    match load_json src with Some d => Ok d | None => Raise LoaderError end
  else Raise (unsupported file_format).

Section Ingest.

Variable encode : Py.str -> Faiss.vec.

(** [ingest_data]: the store after the call, and the count returned
    or the exception raised. [None] only when the fuel given to the
    chunking loops ran out. *)
Definition ingest_data (fuel : nat) (cfg : Settings) (src : Source)
    (st : VectorStore) (file_format : Py.str)
  : option (VectorStore * result Z) :=
  if negb (path_exists src) then Some (st, Raise FileNotFoundError)
  else
    match detect_format src file_format with
    | Raise e => Some (st, Raise e)
    | Ok fmt =>
      match load src fmt with
      | Raise e => Some (st, Raise e)
      | Ok docs =>
        match all_chunks fuel cfg (active_documents (today src) docs) with
        | None => None
        | Some chunks =>
          Some (add_documents encode chunks st, Ok (Py.len chunks))
        end
      end
    end.

End Ingest.

End Ingestion.

(** ** pipeline_steps.py: VectorSearchStep *)

Module Pipeline.

(** The entities read by the step; a missing list is the empty list. *)
Record Entities : Type := {
  hobbies : list Py.str;
  preferred_styles : list Py.str;
  mood : option Py.str;
  relationship : option Py.str
}.

(** Lookup in a literal table, with a default. *)
Fixpoint table_get (k : Py.str) (t : list (Py.str * list Py.str))
    (default : list Py.str) : list Py.str :=
  match t with
  | [] => default
  | (k', v) :: r => if Py.str_eqb k' k then v else table_get k r default
  end.

Definition mood_terms : list (Py.str * list Py.str) :=
  [ (Py.u "sad", [Py.u "спокойный"; Py.u "размышляющий"; Py.u "тихий"]);
    (Py.u "happy", [Py.u "веселый"; Py.u "яркий"; Py.u "позитивный"]);
    (Py.u "romantic", [Py.u "романтический"; Py.u "интимный"; Py.u "уютный"]);
    (Py.u "calm", [Py.u "спокойный"; Py.u "медитативный"; Py.u "гармоничный"]) ].

Definition rel_terms : list (Py.str * list Py.str) :=
  [ (Py.u "partner", [Py.u "романтика"; Py.u "для двоих"; Py.u "интимный"]);
    (Py.u "grandparent", [Py.u "семейный"; Py.u "доступный"; Py.u "классический"]);
    (Py.u "parent", [Py.u "семейный"; Py.u "для всех возрастов"]);
    (Py.u "friend", [Py.u "интересный"; Py.u "обсуждаемый"]);
    (Py.u "child", [Py.u "детский"; Py.u "интерактивный"; Py.u "образовательный"]);
    (Py.u "solo", [Py.u "индивидуальный"; Py.u "самостоятельный"]) ].

Definition audience_map : list (Py.str * list Py.str) :=
  [ (Py.u "partner", [Py.u "взрослые"; Py.u "молодежь"]);
    (Py.u "grandparent", [Py.u "пожилые"; Py.u "взрослые"; Py.u "семья"]);
    (Py.u "parent", [Py.u "семья"; Py.u "взрослые"]);
    (Py.u "friend", [Py.u "молодежь"; Py.u "взрослые"]);
    (Py.u "child", [Py.u "дети"; Py.u "семья"]);
    (Py.u "solo", [Py.u "взрослые"; Py.u "молодежь"; Py.u "подростки"]) ].

(** [VectorSearchStep._get_audience_filter] *)
Definition _get_audience_filter (rel : option Py.str) : list Py.str :=
  match rel with
  | Some r =>
    if Py.nonempty r then table_get r audience_map [Py.u "взрослые"] else []
  | None => []
  end.

(** [VectorSearchStep._build_search_query] *)
Definition _build_search_query (e : Entities) : Py.str :=
  let parts := hobbies e in
  let parts :=
    match mood e with
    | Some m => if Py.nonempty m then parts ++ table_get m mood_terms [] else parts
    | None => parts
    end in
  let parts := parts ++ preferred_styles e in
  let parts :=
    match relationship e with
    | Some r => if Py.nonempty r then parts ++ table_get r rel_terms [] else parts
    | None => parts
    end in
  let parts :=
    if Py.nonempty parts then parts
    else [Py.u "выставка"; Py.u "музей"; Py.u "искусство"] in
  Py.join (Py.u " ") parts.

(** One call of [VectorStore.search] as the step issues it. *)
Record Request : Type := {
  rq_query : Py.str;
  rq_top_k : option Z;
  rq_filter_tags : option (list Py.str);
  rq_filter_audience : option (list Py.str)
}.

(** What the step writes into the context, and the calls it made to the
    store, in order. *)
Record Output : Type := {
  search_results : list MuseumDocument;
  similarity_scores : list Q;
  search_query : Py.str;
  search_calls : list Request
}.

(** The penalty applied to fallback scores. *)
Definition penalty : Q := (9 # 10)%Q.

(** The merge loop over the fallback results. *)
Fixpoint merge (existing_ids : list Py.str) (k : Z)
    (fallback : list scored_doc)
    (docs : list MuseumDocument) (scores : list Q)
  : list MuseumDocument * list Q :=
  match fallback with
  | [] => (docs, scores)
  | (doc, score) :: rest =>
    if negb (Py.contains (doc_id doc) existing_ids) then
      let docs' := docs ++ [doc] in
      let scores' := scores ++ [(score * penalty)%Q] in
      if Py.len docs' >=? k then (docs', scores')
      else merge existing_ids k rest docs' scores'
    else merge existing_ids k rest docs scores
  end.

(** [None] for an empty list, as in [x if x else None]. *)
Definition or_none (l : list Py.str) : option (list Py.str) :=
  if Py.nonempty l then Some l else None.

Section Step.

Variable encode : Py.str -> Faiss.vec.

(** The first, filtered request of the step. *)
Definition primary_request (cfg : Settings) (e : Entities) : Request :=
  {| rq_query := _build_search_query e;
     rq_top_k := Some (top_k cfg);
     rq_filter_tags := or_none (hobbies e ++ preferred_styles e);
     rq_filter_audience := or_none (_get_audience_filter (relationship e)) |}.

(** The second, unfiltered request. *)
Definition fallback_request (cfg : Settings) (e : Entities) : Request :=
  {| rq_query := _build_search_query e;
     rq_top_k := Some (top_k cfg * 2);
     rq_filter_tags := None;
     rq_filter_audience := None |}.

Definition run (cfg : Settings) (st : VectorStore) (rq : Request)
  : result (list scored_doc) :=
  search encode cfg st (rq_query rq) (rq_top_k rq)
    (rq_filter_tags rq) (rq_filter_audience rq).

(** [VectorSearchStep.execute], from the entities of the context to
    the entries it adds. *)
Definition execute (cfg : Settings) (st : VectorStore) (e : Entities)
  : result Output :=
  match run cfg st (primary_request cfg e) with
  | Raise err => Raise err
  | Ok results =>
    let docs := map fst results in
    let scores := map snd results in
    if Py.len docs <? top_k cfg then
      match run cfg st (fallback_request cfg e) with
      | Raise err => Raise err
      | Ok fallback_results =>
        let '(docs', scores') :=
          merge (map doc_id docs) (top_k cfg) fallback_results docs scores in
        Ok {| search_results := Py.take docs' (top_k cfg);
              similarity_scores := Py.take scores' (top_k cfg);
              search_query := _build_search_query e;
              search_calls := [primary_request cfg e; fallback_request cfg e] |}
      end
    else
      Ok {| search_results := Py.take docs (top_k cfg);
            similarity_scores := Py.take scores (top_k cfg);
            search_query := _build_search_query e;
            search_calls := [primary_request cfg e] |}
  end.

End Step.

End Pipeline.

(** ** Statements of the specification, in its own words *)

(** Strict lexicographic order on strings, by code point. *)
Inductive lex_lt : Py.str -> Py.str -> Prop :=
| lex_lt_nil : forall y b, lex_lt [] (y :: b)
| lex_lt_head : forall x y a b, (x < y)%N -> lex_lt (x :: a) (y :: b)
| lex_lt_tail : forall x a b, lex_lt a b -> lex_lt (x :: a) (x :: b).

(** The companionship types that the audience table maps. *)
Definition mapped_types : list Py.str :=
  [ Py.u "partner"; Py.u "grandparent"; Py.u "parent";
    Py.u "friend"; Py.u "child"; Py.u "solo" ].

(** The chunks put back together: the first chunk, then every later
    chunk without its first [overlap] characters. *)
Definition reassemble (overlap : Z) (chunks : list Py.str) : Py.str :=
  match chunks with
  | [] => []
  | c :: r => c ++ List.concat (map (skipn (Z.to_nat overlap)) r)
  end.

(** A chunk of [text] for chunk size [size]: a trimmed slice, not empty
    and of at most [size] characters. *)
Definition good_chunk (text : Py.str) (size : Z) (c : Py.str) : Prop :=
  1 <= Py.len c <= size
  /\ exists a b, c = Py.strip (Py.slice text a b).

(** A format that [ingest_data] does not support: with ['auto'], a
    suffix that is neither .csv nor .json whatever its case; otherwise a
    format other than ['csv'] and ['json']. *)
Definition unsupported_format (src : Ingestion.Source) (file_format : Py.str)
  : bool :=
  if Py.str_eqb file_format (Py.u "auto") then
    negb (Py.str_eqb (Py.lower (Ingestion.suffix src)) (Py.u ".csv"))
    && negb (Py.str_eqb (Py.lower (Ingestion.suffix src)) (Py.u ".json"))
  else
    negb (Py.str_eqb file_format (Py.u "csv"))
    && negb (Py.str_eqb file_format (Py.u "json")).

(** Hits whose positions are distinct and inside an index of [n]
    vectors. *)
Definition proper_hits (n : nat) (hits : list Faiss.hit) : Prop :=
  NoDup (map snd hits)
  /\ Forall (fun h => 0 <= snd h < Z.of_nat n) hits.

(** The key found at the position of a hit. *)
Definition hit_key (docs : dict) (h : Faiss.hit) : Py.str :=
  nth (Z.to_nat (snd h)) (keys docs) [].

(** A document passes a filter that is in force (a list that is not
    empty) when it shares an element with it. *)
Definition shares (filter_ : option (list Py.str)) (have : list Py.str) : Prop :=
  forall wanted, filter_ = Some wanted -> wanted <> [] ->
                 exists t, In t wanted /\ In t have.

(** The fallback results whose identifier is not among [existing]. *)
Definition fresh (existing : list Py.str) (fallback : list scored_doc)
  : list scored_doc :=
  filter (fun r => negb (Py.contains (doc_id (fst r)) existing)) fallback.

(** The fallback results that the step appends to [primary]: the fresh
    ones, in order, as many as are missing to reach [k]. *)
Definition fallback_added (k : Z) (primary fallback : list scored_doc)
  : list scored_doc :=
  firstn (Z.to_nat (k - Py.len primary))
    (fresh (map doc_id (map fst primary)) fallback).

(** The score of an appended fallback result. *)
Definition penalised (r : scored_doc) : Q := (snd r * Pipeline.penalty)%Q.

(** A store as [add_documents] builds it: every key is the identifier of
    its document, and the index holds one vector per document. *)
Definition store_ok (st : VectorStore) : Prop :=
  NoDup (keys (documents st))
  /\ Forall (fun kv => doc_id (snd kv) = fst kv) (documents st)
  /\ match index st with
     | Some xb => List.length xb = List.length (documents st)
     | None => documents st = []
     end.

(** The vector at each position is the embedding of the document at the
    same position of the dictionary. *)
Definition aligned (encode : Py.str -> Faiss.vec) (st : VectorStore) : Prop :=
  store_ok st
  /\ match index st with
     | Some xb => xb = map (fun kv => encode (embedded_text (snd kv))) (documents st)
     | None => True
     end.

(** ** Concrete data for the examples *)

Module Examples.

Local Open Scope string_scope.

(** An embedding in one dimension: the length of the text. *)
Definition toy_encode (s : Py.str) : Faiss.vec := [inject_Z (Py.len s)].

Definition mk_doc (id title desc : string) (end_ : string)
    (tags_ audience_ : list string) : MuseumDocument :=
  {| doc_id := Py.u id;
     museum_name := Py.u "museum";
     exhibition_title := Py.u title;
     description := Py.u desc;
     start_date := Py.u "2025-01-01";
     end_date := Py.u end_;
     tags := map Py.u tags_;
     location := Py.u "street";
     accessibility := [];
     audience := map Py.u audience_ |}.

Definition d1 : MuseumDocument :=
  mk_doc "d1" "Photo" "long description one" "2026-12-31" ["photo"] ["adults"].
Definition d2 : MuseumDocument :=
  mk_doc "d2" "History" "description two" "2026-12-31" ["history"] ["adults"].
Definition d3 : MuseumDocument :=
  mk_doc "d3" "Family" "three" "2020-01-01" ["family"] ["children"].

Definition store3 : VectorStore :=
  add_documents toy_encode [d1; d2; d3] empty_store.

Definition cfg_k (k : Z) : Settings :=
  {| top_k := k; chunk_size := 512; chunk_overlap := 50 |}.

Definition no_entities : Pipeline.Entities :=
  {| Pipeline.hobbies := []; Pipeline.preferred_styles := [];
     Pipeline.mood := None; Pipeline.relationship := None |}.

Definition history_fan : Pipeline.Entities :=
  {| Pipeline.hobbies := [Py.u "history"]; Pipeline.preferred_styles := [];
     Pipeline.mood := None; Pipeline.relationship := None |}.

(** A path that does not exist, asked for in a format that is neither
    csv nor json. *)
Definition missing_xml : Ingestion.Source :=
  {| Ingestion.path_exists := false;
     Ingestion.suffix := Py.u ".txt";
     Ingestion.load_csv := None;
     Ingestion.load_json := None;
     Ingestion.today := Py.u "2026-11-03" |}.

(** An existing .csv file. *)
Definition some_csv : Ingestion.Source :=
  {| Ingestion.path_exists := true;
     Ingestion.suffix := Py.u ".CSV";
     Ingestion.load_csv := Some [d1; d3];
     Ingestion.load_json := None;
     Ingestion.today := Py.u "2026-11-03" |}.

(** A text whose only full stop sits five characters after the start. *)
Definition looping_text : Py.str := Py.u "aaaaa.bbbbbbbbbbbbbb".

Definition spaced_text : Py.str := Py.u "ab. cd. ef".

Definition dense_text : Py.str := Py.u "ab.cdefgh".

(** A short sentence of 50 characters followed by 600 characters without
    a full stop. *)
Definition one_sentence_text : Py.str :=
  (repeat 97%N 49 ++ [Ingestion.full_stop] ++ repeat 98%N 600)%list.

(** A second document with the identifier of [d1]. *)
Definition d1_again : MuseumDocument :=
  mk_doc "d1" "Photo" "a much longer description of the same exhibition"
    "2026-12-31" ["photo"] ["adults"].

End Examples.

(** ** vector_store.py: the rest of the store *)

(** [index.ntotal]: the number of vectors in the index, 0 before the
    index exists. *)
Definition ntotal (st : VectorStore) : nat :=
  match index st with Some xb => List.length xb | None => O end.

(** The last document of a batch that carries the identifier [id]. *)
Definition last_with_id (id : Py.str) (docs : list MuseumDocument)
  : option MuseumDocument :=
  find (fun doc => Py.str_eqb (doc_id doc) id) (rev docs).

(** The two filter tests of the loop of [search], on one document. *)
Definition passes (filter_tags filter_audience : option (list Py.str))
    (doc : MuseumDocument) : bool :=
  negb (Py.truthy filter_tags
        && negb (any_in (match filter_tags with Some l => l | None => [] end)
                        (tags doc)))
  && negb (Py.truthy filter_audience
           && negb (any_in (match filter_audience with Some l => l | None => [] end)
                           (audience doc))).

(** The document found at a position of the index, through the order of
    the keys. *)
Definition doc_at (docs : dict) (position : Z) : option MuseumDocument :=
  match Py.index (keys docs) position with
  | Some id => dict_get id docs
  | None => None
  end.

(** The hits of the index as scored documents. *)
Definition candidates (docs : dict) (hits : list Faiss.hit) : list scored_doc :=
  flat_map (fun h => match doc_at docs (snd h) with
                     | Some doc => [(doc, fst h)]
                     | None => []
                     end) hits.

(** Scores in descending order. *)
Definition by_score_desc (a b : scored_doc) : Prop := (snd b <= snd a)%Q.

Definition hit_desc (a b : Faiss.hit) : Prop := (fst b <= fst a)%Q.

(** ** ingestion.py: the list columns of the CSV loader *)

Module Csv.

Definition comma : N := 44%N.
Definition space : N := 32%N.

(** [s.split(c)] for a one-character separator. *)
Fixpoint split_on (c : N) (s : Py.str) : list Py.str :=
  match s with
  | [] => [[]]
  | x :: r =>
    if (x =? c)%N then [] :: split_on c r
    else
      match split_on c r with
      | p :: ps => (x :: p) :: ps
      | [] => [[x]]
      end
  end.

(** The comprehension that reads a list column:
    [[t.strip() for t in raw.split(',') if t.strip()]]. *)
Definition list_column (raw : Py.str) : list Py.str :=
  map Py.strip
    (filter (fun t => Py.nonempty (Py.strip t)) (split_on comma raw)).

End Csv.

(** A string without white space at either end. *)
Definition trimmed (t : Py.str) : Prop :=
  Py.isspace (hd 0%N t) = false /\ Py.isspace (hd 0%N (rev t)) = false.

(** An element of a list column as the loader keeps it: not empty,
    trimmed, without comma. *)
Definition clean_token (t : Py.str) : Prop :=
  t <> [] /\ trimmed t /\ ~ In Csv.comma t.

(** A text without the characters that end a sentence for [chunk_text]. *)
Definition no_sentence_end (text : Py.str) : Prop :=
  ~ In Ingestion.full_stop text
  /\ ~ In Ingestion.exclamation text
  /\ ~ In Ingestion.question text.

(** Samples for the chunking and ingestion properties. *)
Module IngestExamples.

Local Open Scope string_scope.

Definition small_cfg : Settings :=
  {| top_k := 5; chunk_size := 5; chunk_overlap := 1 |}.

Definition long_doc : MuseumDocument :=
  Examples.mk_doc "e1" "Plain" "abcdefghijkl" "2026-12-31" ["maps"] ["adults"].

Definition long_doc_chunks : list MuseumDocument :=
  [ Examples.mk_doc "e1_chunk_0" "Plain" "abcde" "2026-12-31" ["maps"] ["adults"];
    Examples.mk_doc "e1_chunk_1" "Plain" "efghi" "2026-12-31" ["maps"] ["adults"];
    Examples.mk_doc "e1_chunk_2" "Plain" "ijkl" "2026-12-31" ["maps"] ["adults"] ].

(** A JSON file whose exhibitions all ended before the day of the call. *)
Definition old_json : Ingestion.Source :=
  {| Ingestion.path_exists := true;
     Ingestion.suffix := Py.u ".json";
     Ingestion.load_csv := None;
     Ingestion.load_json := Some [Examples.d3];
     Ingestion.today := Py.u "2026-11-03" |}.

(** A CSV file with two running exhibitions and one that ended. *)
Definition mixed_csv : Ingestion.Source :=
  {| Ingestion.path_exists := true;
     Ingestion.suffix := Py.u ".csv";
     Ingestion.load_csv := Some [Examples.d1; Examples.d3; Examples.d2];
     Ingestion.load_json := None;
     Ingestion.today := Py.u "2026-11-03" |}.

End IngestExamples.

(** ** More of Python's strings and lists *)

Module PyStr.

(** [s.startswith(p)] *)
Fixpoint startswith (s p : Py.str) : bool :=
  match p with
  | [] => true
  | c :: p' =>
    match s with
    | [] => false
    | d :: s' => (d =? c)%N && startswith s' p'
    end
  end.

(** [p in s] on two strings. *)
Fixpoint occurs (p s : Py.str) : bool :=
  startswith s p
  || match s with
     | [] => false
     | _ :: r => occurs p r
     end.

(** [s.endswith(p)] *)
Definition endswith (s p : Py.str) : bool := startswith (rev s) (rev p).

(** [any(word in text for word in words)] *)
Definition any_occurs (words : list Py.str) (text : Py.str) : bool :=
  existsb (fun word => occurs word text) words.

(** [l[-k:]] *)
Definition last_items {A : Type} (l : list A) (k : Z) : list A :=
  Py.slice l (- k) (Py.len l).

(** [t.get(k, default)] on a literal table of strings. *)
Fixpoint get (k : Py.str) (t : list (Py.str * Py.str)) (default : Py.str)
  : Py.str :=
  match t with
  | [] => default
  | (k', v) :: r => if Py.str_eqb k' k then v else get k r default
  end.

(** The value of the first item of a table whose key occurs in the text:
    [for keyword, value in t.items(): if keyword in text: ...; break]. *)
Fixpoint first_keyword (t : list (Py.str * Py.str)) (text : Py.str)
  : option Py.str :=
  match t with
  | [] => None
  | (keyword, v) :: r =>
    if occurs keyword text then Some v else first_keyword r text
  end.

End PyStr.

(** ** config.py: the patterns of the entity extraction *)

Definition RELATIONSHIP_PATTERNS : list (Py.str * Py.str) :=
  [ (Py.u "девушка", Py.u "partner");
    (Py.u "парень", Py.u "partner");
    (Py.u "бабушка", Py.u "grandparent");
    (Py.u "дедушка", Py.u "grandparent");
    (Py.u "мама", Py.u "parent");
    (Py.u "папа", Py.u "parent");
    (Py.u "друг", Py.u "friend");
    (Py.u "подруга", Py.u "friend");
    (Py.u "ребенок", Py.u "child");
    (Py.u "один", Py.u "solo");
    (Py.u "соло", Py.u "solo") ].

Definition MOOD_PATTERNS : list (Py.str * Py.str) :=
  [ (Py.u "грустно", Py.u "sad");
    (Py.u "грусть", Py.u "sad");
    (Py.u "печально", Py.u "sad");
    (Py.u "весело", Py.u "happy");
    (Py.u "радостно", Py.u "happy");
    (Py.u "романтично", Py.u "romantic");
    (Py.u "романтика", Py.u "romantic");
    (Py.u "спокойно", Py.u "calm");
    (Py.u "умиротворенно", Py.u "calm") ].

Definition HOBBY_KEYWORDS : list Py.str :=
  [ Py.u "фотография"; Py.u "фото"; Py.u "живопись"; Py.u "искусство";
    Py.u "история"; Py.u "наука"; Py.u "технологии"; Py.u "музыка";
    Py.u "поэзия"; Py.u "литература"; Py.u "архитектура"; Py.u "скульптура";
    Py.u "современное"; Py.u "классика"; Py.u "интерактив"; Py.u "выставка" ].

(** ** ner_extractor.py *)

Module Ner.

(** The dictionary of entities, with the six keys of [extract_entities]. *)
Record Entities : Type := {
  age : option Z;
  relationship : option Py.str;
  mood : option Py.str;
  hobbies : list Py.str;
  accessibility : list Py.str;
  preferred_styles : list Py.str
}.

Definition no_entities : Entities :=
  {| age := None; relationship := None; mood := None;
     hobbies := []; accessibility := []; preferred_styles := [] |}.

(** What [VectorSearchStep] reads of the entities. *)
Definition to_search (e : Entities) : Pipeline.Entities :=
  {| Pipeline.hobbies := hobbies e;
     Pipeline.preferred_styles := preferred_styles e;
     Pipeline.mood := mood e;
     Pipeline.relationship := relationship e |}.

Definition hobby_map : list (Py.str * Py.str) :=
  [ (Py.u "фото", Py.u "фотография");
    (Py.u "фотосъемка", Py.u "фотография");
    (Py.u "картины", Py.u "живопись");
    (Py.u "живописи", Py.u "живопись");
    (Py.u "искусстве", Py.u "искусство");
    (Py.u "истории", Py.u "история");
    (Py.u "технологиях", Py.u "технологии");
    (Py.u "музыке", Py.u "музыка");
    (Py.u "поэзии", Py.u "поэзия");
    (Py.u "литературе", Py.u "литература");
    (Py.u "архитектуре", Py.u "архитектура");
    (Py.u "скульптуре", Py.u "скульптура") ].

Definition rel_map : list (Py.str * Py.str) :=
  [ (Py.u "подруга", Py.u "partner");
    (Py.u "молодой человек", Py.u "partner");
    (Py.u "мама", Py.u "parent");
    (Py.u "папа", Py.u "parent");
    (Py.u "сын", Py.u "child");
    (Py.u "дочь", Py.u "child") ].

(** [hobby_map.get(hobby, hobby)] *)
Definition normalized (hobby : Py.str) : Py.str :=
  PyStr.get hobby hobby_map hobby.

(** The loop that fills [normalized_hobbies]. *)
Definition normalize_hobbies (hs : list Py.str) : list Py.str :=
  fold_left
    (fun acc hobby =>
       if Py.contains (normalized hobby) acc then acc
       else acc ++ [normalized hobby])
    hs [].

(** [entities.get("mood") == m] *)
Definition mood_is (e_mood : option Py.str) (m : Py.str) : bool :=
  match e_mood with
  | Some x => Py.str_eqb x m
  | None => false
  end.

(** The styles that [_post_process_entities] writes. *)
Definition styles_of (e_mood : option Py.str) (hs : list Py.str)
  : list Py.str :=
  (if mood_is e_mood (Py.u "romantic")
   then [Py.u "романтический"; Py.u "интимный"] else [])
  ++ (if mood_is e_mood (Py.u "sad")
      then [Py.u "спокойный"; Py.u "размышляющий"] else [])
  ++ (if Py.contains (Py.u "фотография") hs then [Py.u "визуальный"] else [])
  ++ (if existsb (fun word => Py.contains word hs)
           [Py.u "история"; Py.u "архитектура"]
      then [Py.u "классический"] else [])
  ++ (if existsb (fun word => Py.contains word hs)
           [Py.u "технологии"; Py.u "современное"]
      then [Py.u "современный"] else []).

(** [NERExtractor._post_process_entities] *)
Definition _post_process_entities (e : Entities) : Entities :=
  let hs := if Py.nonempty (hobbies e) then normalize_hobbies (hobbies e)
            else hobbies e in
  let rel := match relationship e with
             | Some r => if Py.nonempty r then Some (PyStr.get r rel_map r)
                         else Some r
             | None => None
             end in
  {| age := age e;
     relationship := rel;
     mood := mood e;
     hobbies := hs;
     accessibility := accessibility e;
     preferred_styles := styles_of (mood e) hs |}.

(** [NERExtractor._needs_llm_fallback] *)
Definition _needs_llm_fallback (e : Entities) : bool :=
  match age e, relationship e with
  | Some _, Some _ => negb (Py.nonempty (hobbies e))
  | _, _ => true
  end.

(** The dictionary that [_extract_with_regex] returns: a key is there
    only when something was found. *)
Record Found : Type := {
  found_age : option Z;
  found_relationship : option Py.str;
  found_mood : option Py.str;
  found_hobbies : option (list Py.str);
  found_accessibility : option (list Py.str)
}.

(** [entities.update(regex_entities)] *)
Definition update (e : Entities) (f : Found) : Entities :=
  {| age := match found_age f with Some a => Some a | None => age e end;
     relationship := match found_relationship f with
                     | Some r => Some r
                     | None => relationship e
                     end;
     mood := match found_mood f with Some m => Some m | None => mood e end;
     hobbies := match found_hobbies f with Some h => h | None => hobbies e end;
     accessibility := match found_accessibility f with
                      | Some a => a
                      | None => accessibility e
                      end;
     preferred_styles := preferred_styles e |}.

Section Extractor.

(** [str.lower] *)
Variable lower : Py.str -> Py.str.

(** [int(re.search(AGE_PATTERNS[i], text).group(1))]; [None] when the
    pattern does not match (or the conversion raises ValueError). *)
Variable age_match : nat -> Py.str -> option Z.

(** The loop over the three age patterns: the first match between 5 and
    120 is kept. *)
Fixpoint extract_age (patterns : list nat) (text_lower : Py.str) : option Z :=
  match patterns with
  | [] => None
  | i :: rest =>
    match age_match i text_lower with
    | Some a =>
      if (5 <=? a) && (a <=? 120) then Some a else extract_age rest text_lower
    | None => extract_age rest text_lower
    end
  end.

(** [NERExtractor._extract_with_regex] *)
Definition _extract_with_regex (text : Py.str) : Found :=
  let text_lower := lower text in
  let hs := filter (fun hobby => PyStr.occurs hobby text_lower) HOBBY_KEYWORDS in
  let acc :=
    if PyStr.any_occurs [Py.u "инвалид"; Py.u "коляска"; Py.u "ограничен"]
         text_lower
    then [Py.u "wheelchair"] else [] in
  {| found_age := extract_age [0%nat; 1%nat; 2%nat] text_lower;
     found_relationship := PyStr.first_keyword RELATIONSHIP_PATTERNS text_lower;
     found_mood := PyStr.first_keyword MOOD_PATTERNS text_lower;
     found_hobbies := if Py.nonempty hs then Some hs else None;
     found_accessibility := if Py.nonempty acc then Some acc else None |}.

(** [NERExtractor.extract_entities] of an extractor that has neither a
    spaCy model nor a language model ([self.nlp] and [self.llm] are
    [None]): the regular expressions, then the post-processing. *)
Definition extract_entities (text : Py.str) : Entities :=
  _post_process_entities (update no_entities (_extract_with_regex text)).

End Extractor.

End Ner.

(** ** dialogue_manager.py *)

Module Dialogue.

Record State : Type := {
  conversation_history : list Py.str;
  clarification_rounds : Z
}.

(** [DialogueManager.__init__], and the state after [reset]. *)
Definition new_state : State :=
  {| conversation_history := []; clarification_rounds := 0 |}.

Definition age_words : list Py.str :=
  [Py.u "лет"; Py.u "год"; Py.u "возраст"; Py.u "мне"].

Definition company_words : list Py.str :=
  [ Py.u "с девушкой"; Py.u "с парнем"; Py.u "с другом"; Py.u "с семьей";
    Py.u "с бабушкой"; Py.u "с дедушкой"; Py.u "один"; Py.u "одна" ].

Definition interest_words : list Py.str :=
  [Py.u "люблю"; Py.u "нравится"; Py.u "интересуюсь"; Py.u "увлекаюсь"].

Definition age_kind : Py.str := Py.u "возраст".
Definition company_kind : Py.str := Py.u "состав компании".
Definition interests_kind : Py.str := Py.u "интересы".

Definition age_question : Py.str :=
  Py.u "Сколько вам лет или какой возрастной категории вы принадлежите?".

Definition company_question : Py.str :=
  Py.u "С кем вы планируете посетить выставку? (девушка/парень, друзья, семья, бабушка/дедушка)".

Definition interests_question : Py.str :=
  Py.u "Какие темы вас особенно интересуют? (живопись, фотография, история, технологии и т.д.)".

Definition question_mark : N := 63%N.

(** [DialogueManager._get_fallback_questions] *)
Definition _get_fallback_questions (missing_info : list Py.str)
  : list Py.str :=
  Py.take
    ((if Py.contains age_kind missing_info then [age_question] else [])
     ++ (if Py.contains company_kind missing_info then [company_question] else [])
     ++ (if Py.contains interests_kind missing_info
         then [interests_question] else []))
    2.

(** [DialogueManager.add_to_history] *)
Definition add_to_history (st : State) (user_input assistant_response : Py.str)
  : State :=
  {| conversation_history :=
       conversation_history st
       ++ [Py.u "Пользователь: " ++ user_input]
       ++ [Py.u "Ассистент: " ++ assistant_response];
     clarification_rounds := clarification_rounds st |}.

(** [DialogueManager.get_enhanced_request] *)
Definition get_enhanced_request (st : State) : Py.str :=
  if negb (Py.nonempty (conversation_history st)) then []
  else Py.join [10%N] (PyStr.last_items (conversation_history st) 6).

(** [DialogueManager.reset] *)
Definition reset (st : State) : State := new_state.

Section Manager.

(** [str.lower] *)
Variable lower : Py.str -> Py.str.

(** [settings.max_clarification_rounds] *)
Variable max_clarification_rounds : Z.

Definition has_age (user_request : Py.str) : bool :=
  PyStr.any_occurs age_words (lower user_request).

Definition has_relationship (user_request : Py.str) : bool :=
  PyStr.any_occurs company_words (lower user_request).

Definition has_interests (user_request : Py.str) : bool :=
  PyStr.any_occurs interest_words (lower user_request).

(** [DialogueManager.needs_clarification]; [analysis] is what the
    analysis chain answers when it is run, [None] when it raises. *)
Definition needs_clarification (analysis : option Py.str)
    (user_request : Py.str) : bool :=
  if has_age user_request && has_relationship user_request then false
  else
    match analysis with
    | Some analysis_result =>
      PyStr.occurs (Py.u "нужны уточнения") (lower analysis_result)
    | None =>
      negb (has_age user_request || has_relationship user_request
            || has_interests user_request)
    end.

(** The list [missing_info] of [generate_clarifying_questions]. *)
Definition missing_info (user_request : Py.str) : list Py.str :=
  (if negb (has_age user_request) then [age_kind] else [])
  ++ (if negb (has_relationship user_request) then [company_kind] else [])
  ++ (if negb (has_interests user_request) then [interests_kind] else []).

(** The three arguments given to the clarification chain. *)
Definition clarification_inputs (st : State) (user_request : Py.str)
  : Py.str * Py.str * Py.str :=
  (user_request,
   Py.join (Py.u ", ") (missing_info user_request),
   Py.join [10%N] (PyStr.last_items (conversation_history st) 3)).

(** [DialogueManager.generate_clarifying_questions]; [answer] is what
    the clarification chain answers when it is run, [None] when it
    raises. *)
Definition generate_clarifying_questions (answer : option Py.str)
    (st : State) (user_request : Py.str) : State * list Py.str :=
  if clarification_rounds st >=? max_clarification_rounds then (st, [])
  else
    match answer with
    | Some question =>
      let question := Py.strip question in
      let question :=
        if Py.nonempty question
           && negb (PyStr.endswith question [question_mark])
        then question ++ [question_mark] else question in
      ({| conversation_history := conversation_history st;
          clarification_rounds := clarification_rounds st + 1 |},
       if Py.nonempty question then [question] else [])
    | None => (st, _get_fallback_questions (missing_info user_request))
    end.

(** The keys that [InitialRequestParser] and [DialogueStep] write and
    [continue_dialogue] reads. The manager is the one object of the
    step: the context holds a reference to it, or nothing. *)
Record Context : Type := {
  enhanced_request : Py.str;
  needs_clarification_flag : bool;
  clarifying_questions : list Py.str;
  has_dialogue_manager : bool
}.

(** [DialogueStep.execute] on the context of [MuseumRAGPipeline.run]. *)
Definition dialogue_step (analysis answer : option Py.str) (st : State)
    (user_request : Py.str) : State * Context :=
  if needs_clarification analysis user_request then
    let '(st', questions) :=
      generate_clarifying_questions answer st user_request in
    (st', {| enhanced_request := user_request;
             needs_clarification_flag := true;
             clarifying_questions := questions;
             has_dialogue_manager := true |})
  else
    (st, {| enhanced_request := user_request;
            needs_clarification_flag := false;
            clarifying_questions := [];
            has_dialogue_manager := false |}).

(** [MuseumRAGPipeline.continue_dialogue] up to the update of
    [enhanced_request]; the three steps re-run after it do not touch the
    manager nor these keys. *)
Definition continue_dialogue (st : State) (user_response : Py.str)
    (context : Context) : result (State * Context) :=
  if has_dialogue_manager context then
    match Py.index (clarifying_questions context) 0 with
    | None => Raise IndexError
    | Some last_question =>
      let st' := add_to_history st user_response last_question in
      Ok (st', {| enhanced_request := get_enhanced_request st';
                  needs_clarification_flag := needs_clarification_flag context;
                  clarifying_questions := clarifying_questions context;
                  has_dialogue_manager := true |})
    end
  else Ok (st, context).

End Manager.

End Dialogue.

(** ** final_response_builder.py: the response built without the model *)

Module Response.

Record Recommendation : Type := {
  rec_id : Py.str;
  rec_museum_name : Py.str;
  rec_title : Py.str;
  short_description : Py.str;
  why_fit : Py.str;
  dates_start : Py.str;
  dates_end : Py.str;
  metadata_tags : list Py.str;
  metadata_accessibility : list Py.str;
  confidence : Q
}.

Record Json : Type := {
  user_summary : Py.str;
  recommendations : list Recommendation;
  explainers : Py.str
}.

Definition general_fit : Py.str := Py.u "Подходит по общей тематике".

Section Builder.

(** [str.lower] *)
Variable lower : Py.str -> Py.str.

(** The list [why_fit_parts] for one document. *)
Definition why_fit_parts (e : Ner.Entities) (doc : MuseumDocument)
  : list Py.str :=
  (if Py.nonempty (Ner.hobbies e) then
     let hobby_matches :=
       filter (fun hobby => Py.contains hobby (tags doc)) (Ner.hobbies e) in
     if Py.nonempty hobby_matches
     then [Py.u "Совпадение по интересам: "
           ++ Py.join (Py.u ", ") hobby_matches]
     else []
   else [])
  ++ (match Ner.relationship e with
      | Some r =>
        if Py.nonempty r then
          let audience_matches :=
            filter (fun aud => PyStr.occurs r (lower aud)) (audience doc) in
          if Py.nonempty audience_matches
          then [Py.u "Подходит для вашей компании"] else []
        else []
      | None => []
      end)
  ++ (if Py.nonempty (Ner.preferred_styles e) then
        let style_matches :=
          filter (fun style =>
                    existsb (fun tag => PyStr.occurs tag style) (tags doc))
            (Ner.preferred_styles e) in
        if Py.nonempty style_matches
        then [Py.u "Соответствует предпочитаемому стилю"] else []
      else []).

(** One entry of ["recommendations"]. *)
Definition recommendation_of (e : Ner.Entities) (doc : MuseumDocument)
    (score : Q) : Recommendation :=
  let parts := why_fit_parts e doc in
  {| rec_id := doc_id doc;
     rec_museum_name := museum_name doc;
     rec_title := exhibition_title doc;
     short_description := Py.take (description doc) 150 ++ Py.u "...";
     why_fit := if Py.nonempty parts then Py.join (Py.u "; ") parts
                else general_fit;
     dates_start := start_date doc;
     dates_end := end_date doc;
     metadata_tags := tags doc;
     metadata_accessibility := accessibility doc;
     confidence := score |}.

(** [FinalResponseBuilder._create_fallback_json] *)
Definition _create_fallback_json (summary : Py.str) (e : Ner.Entities)
    (recs : list MuseumDocument) (similarity_scores : list Q) : Json :=
  {| user_summary := summary;
     recommendations :=
       map (fun ds => recommendation_of e (fst ds) (snd ds))
         (combine recs similarity_scores);
     explainers := [] |}.

End Builder.

End Response.

(** No string of the list comes twice, as a test. *)
Fixpoint distinct (l : list Py.str) : bool :=
  match l with
  | [] => true
  | x :: r => negb (Py.contains x r) && distinct r
  end.

(** One pass of the loop of [Ner.normalize_hobbies]. *)
Definition norm_step (acc : list Py.str) (hobby : Py.str) : list Py.str :=
  if Py.contains (Ner.normalized hobby) acc then acc
  else acc ++ [Ner.normalized hobby].

Module NerExamples.

(** An age reader for the samples: two digits before a space, whatever
    the pattern. *)
Definition two_digits (i : nat) (text : Py.str) : option Z :=
  match text with
  | a :: b :: 32%N :: _ =>
    if ((48 <=? a) && (a <=? 57) && (48 <=? b) && (b <=? 57))%N
    then Some (Z.of_N (a - 48) * 10 + Z.of_N (b - 48)) else None
  | _ => None
  end.

Definition request : Py.str :=
  Py.u "25 лет, иду с девушка, романтика, фотография и история".

Definition raw : Ner.Entities :=
  {| Ner.age := Some 30;
     Ner.relationship := Some (Py.u "подруга");
     Ner.mood := Some (Py.u "sad");
     Ner.hobbies := [Py.u "фото"; Py.u "истории"; Py.u "фотография"; Py.u "джаз"];
     Ner.accessibility := [];
     Ner.preferred_styles := [Py.u "шумный"] |}.

End NerExamples.

(** Equality of two lists of strings, as a test. *)
Fixpoint forallb2_eq (a b : list Py.str) : bool :=
  match a, b with
  | [], [] => true
  | x :: a', y :: b' => Py.str_eqb x y && forallb2_eq a' b'
  | _, _ => false
  end.

(** The two lines that one exchange adds to the history. *)
Definition exchange_lines (ex : Py.str * Py.str) : list Py.str :=
  [Py.u "Пользователь: " ++ fst ex; Py.u "Ассистент: " ++ snd ex].

(** [add_to_history] for a list of exchanges, in order. *)
Definition record_exchanges (exchanges : list (Py.str * Py.str))
    (st : Dialogue.State) : Dialogue.State :=
  fold_left (fun st ex => Dialogue.add_to_history st (fst ex) (snd ex))
    exchanges st.

(** The last [k] elements of a list. *)
Definition last_n {A : Type} (k : nat) (l : list A) : list A :=
  skipn (List.length l - k) l.

Definition answered (call : option Py.str * Py.str) : bool :=
  match fst call with Some _ => true | None => false end.

Section DialogueRuns.

Variable lower : Py.str -> Py.str.
Variable max_clarification_rounds : Z.

(** [generate_clarifying_questions] called on one manager for a list of
    requests, each with what the model does on it. *)
Fixpoint run_generate (calls : list (option Py.str * Py.str))
    (st : Dialogue.State) : Dialogue.State * list (list Py.str) :=
  match calls with
  | [] => (st, [])
  | (answer, user_request) :: rest =>
    let '(st1, questions) :=
      Dialogue.generate_clarifying_questions lower max_clarification_rounds
        answer st user_request in
    let '(st2, out) := run_generate rest st1 in
    (st2, questions :: out)
  end.

End DialogueRuns.

(** [continue_dialogue] called for a list of answers, each call on the
    context that the call before returned. *)
Fixpoint continue_all (responses : list Py.str) (st : Dialogue.State)
    (context : Dialogue.Context) : result (Dialogue.State * Dialogue.Context) :=
  match responses with
  | [] => Ok (st, context)
  | user_response :: rest =>
    match Dialogue.continue_dialogue st user_response context with
    | Raise e => Raise e
    | Ok (st', context') => continue_all rest st' context'
    end
  end.

Module DialogueExamples.

(** A request that names nothing the manager looks for. *)
Definition vague : Py.str := Py.u "куда сходить в выходные".

(** A request with an age and a company, without interests. *)
Definition with_age_and_company : Py.str := Py.u "мне 30 лет, иду с другом".

Definition after_one_round : Dialogue.State :=
  {| Dialogue.conversation_history := [];
     Dialogue.clarification_rounds := 1 |}.

End DialogueExamples.



Module ResponseExamples.

(** The entities of a visitor who likes history. *)
Definition history_fan : Ner.Entities :=
  {| Ner.age := None; Ner.relationship := None; Ner.mood := None;
     Ner.hobbies := [Py.u "history"]; Ner.accessibility := [];
     Ner.preferred_styles := [] |}.

End ResponseExamples.

(** Scores in strictly descending order. *)
Definition hit_above (a b : Faiss.hit) : Prop := (fst b < fst a)%Q.

(** ** vector_store.py: calls of [add_documents] that raise *)

(** What happens in one call of [add_documents] after the loop that
    writes the dictionary. Every statement there calls the embedding
    model, faiss or the file system, and each of them can raise; nothing
    in the method catches the exception or takes the keys back. *)
Inductive outcome : Type :=
| Returns          (* the call returns *)
| EncodeRaises     (* [self.embedding_model.encode(texts)] raises *)
| IndexAddRaises   (* [self.index.add(...)] raises *)
| SaveRaises.      (* [self._save_index()] raises *)

(** The vectors of the batch are in the index when the call ends. *)
Definition reaches_index (o : outcome) : bool :=
  match o with
  | Returns | SaveRaises => true
  | EncodeRaises | IndexAddRaises => false
  end.

Section StoreCalls.

Variable encode : Py.str -> Faiss.vec.

(** [VectorStore.add_documents] with what its environment does: the
    store as the call leaves it, and how the call ends. When
    [_save_index] raises the files are as they were or half-written;
    [saved] lists the saves that were completed. *)
Definition add_documents_env (o : outcome) (docs : list MuseumDocument)
    (st : VectorStore) : VectorStore * result unit :=
  match docs with
  | [] => (st, Ok tt)
  | _ =>
    let documents' :=
      fold_left (fun d doc => dict_set (doc_id doc) doc d) docs (documents st) in
    let embeddings := map (fun doc => encode (embedded_text doc)) docs in
    let xb := match index st with Some xb => xb | None => [] end in
    match o with
    | EncodeRaises =>
      ({| index := index st; documents := documents'; saved := saved st |},
       Raise StoreError)
    | IndexAddRaises =>
      ({| index := Some xb; documents := documents'; saved := saved st |},
       Raise StoreError)
    | SaveRaises =>
      ({| index := Some (xb ++ embeddings); documents := documents';
          saved := saved st |},
       Raise StoreError)
    | Returns => (add_documents encode docs st, Ok tt)
    end
  end.

(** Calls of [add_documents] one after the other on the same store; a
    caller that catches the exception of a call goes on with the store as
    that call left it. *)
Definition run_calls (calls : list (outcome * list MuseumDocument))
    (st : VectorStore) : VectorStore :=
  fold_left (fun s call => fst (add_documents_env (fst call) (snd call) s))
    calls st.

(** [ingest_data] with what the environment does in its call of
    [add_documents]; the exception of that call is not caught. *)
Definition ingest_data_env (o : outcome) (fuel : nat) (cfg : Settings)
    (src : Ingestion.Source) (st : VectorStore) (file_format : Py.str)
  : option (VectorStore * result Z) :=
  if negb (Ingestion.path_exists src) then Some (st, Raise FileNotFoundError)
  else
    match Ingestion.detect_format src file_format with
    | Raise e => Some (st, Raise e)
    | Ok fmt =>
      match Ingestion.load src fmt with
      | Raise e => Some (st, Raise e)
      | Ok docs =>
        match Ingestion.all_chunks fuel cfg
                (Ingestion.active_documents (Ingestion.today src) docs) with
        | None => None
        | Some chunks =>
          match add_documents_env o chunks st with
          | (st', Ok _) => Some (st', Ok (Py.len chunks))
          | (st', Raise e) => Some (st', Raise e)
          end
        end
      end
    end.

End StoreCalls.

Module CallExamples.

(** The embedding model fails on the first batch; the second call goes
    through. *)
Definition failed_then_added : list (outcome * list MuseumDocument) :=
  [(EncodeRaises, [Examples.d1]); (Returns, [Examples.d2])].

Definition three_batches : list (outcome * list MuseumDocument) :=
  [(Returns, [Examples.d1; Examples.d2]); (SaveRaises, [Examples.d3])].

(** A CSV file with one running exhibition. *)
Definition one_csv : Ingestion.Source :=
  {| Ingestion.path_exists := true;
     Ingestion.suffix := Py.u ".csv";
     Ingestion.load_csv := Some [Examples.d1];
     Ingestion.load_json := None;
     Ingestion.today := Py.u "2026-11-03" |}.

End CallExamples.





Module ExpiryExamples.

(** A running exhibition whose description is 600 blanks. *)
Definition blank_doc : MuseumDocument :=
  {| doc_id := Py.u "blank";
     museum_name := Py.u "museum";
     exhibition_title := Py.u "Blank";
     description := repeat 32%N 600;
     start_date := Py.u "2025-01-01";
     end_date := Py.u "2026-12-31";
     tags := [];
     location := Py.u "street";
     accessibility := [];
     audience := [] |}.

Definition blank_csv : Ingestion.Source :=
  {| Ingestion.path_exists := true;
     Ingestion.suffix := Py.u ".csv";
     Ingestion.load_csv := Some [blank_doc];
     Ingestion.load_json := None;
     Ingestion.today := Py.u "2026-11-03" |}.

End ExpiryExamples.

(** Every window of [chunk_text], cut after a sentence end or not, ends
    more than [overlap] characters after its start, so that the next
    window starts further on. *)
Definition windows_pass_overlap (text : Py.str) (size overlap : Z) : Prop :=
  forall start, 0 <= start < Py.len text ->
                start + overlap < Ingestion.window_end text size start.

Module ChunkExamples.

(** A text without white space whose first sentence is shorter than the
    overlap. *)
Definition short_sentence_text : Py.str := Py.u "a.bbbbbbbbbbbb".

Definition plain_text : Py.str := Py.u "abcdefghijkl".

(** A text without white space, with sentence ends. *)
Definition sentences_text : Py.str := Py.u "a.bcdefgh!jk".

End ChunkExamples.

(* ================================================================== *)
(** * Part II: properties *)
(* ================================================================== *)

(** ** Strings *)

Lemma str_eqb_eq : forall a b, Py.str_eqb a b = true <-> a = b.
Proof.
  induction a as [|x a IH]; destruct b as [|y b]; simpl; split;
    try discriminate; try reflexivity.
  - intros H. apply andb_true_iff in H. destruct H as [Hx Hr].
    apply N.eqb_eq in Hx. apply IH in Hr. now subst.
  - intros H. injection H as -> ->. rewrite N.eqb_refl. simpl. now apply IH.
Qed.

Lemma str_eqb_refl : forall a, Py.str_eqb a a = true.
Proof. intros a. now apply str_eqb_eq. Qed.

Lemma str_eqb_neq : forall a b, a <> b -> Py.str_eqb a b = false.
Proof.
  intros a b H. destruct (Py.str_eqb a b) eqn:E; [|reflexivity].
  apply str_eqb_eq in E. contradiction.
Qed.

Lemma contains_In : forall x l, Py.contains x l = true <-> In x l.
Proof.
  intros x l. unfold Py.contains. rewrite existsb_exists. split.
  - intros (y & Hy & E). apply str_eqb_eq in E. now subst.
  - intros H. exists x. split; [assumption | apply str_eqb_refl].
Qed.

Lemma str_cmp_lt : forall a b, Py.str_cmp a b = Lt <-> lex_lt a b.
Proof.
  induction a as [|x a IH]; destruct b as [|y b]; simpl.
  - split; [discriminate | inversion 1].
  - split; [constructor | reflexivity].
  - split; [discriminate | inversion 1].
  - destruct (N.compare_spec x y) as [E | L | G].
    + subst y. rewrite IH. split.
      * now constructor 3.
      * inversion 1; subst; [lia | assumption].
    + split; [now constructor 2 | reflexivity].
    + split; [discriminate |].
      inversion 1; subst; lia.
Qed.

Lemma ge_not_lt : forall a b, Py.ge a b = true <-> ~ lex_lt a b.
Proof.
  intros a b. unfold Py.ge. rewrite <- str_cmp_lt.
  destruct (Py.str_cmp a b); split; congruence.
Qed.

(** ** The store: adding nothing *)

(** C10. [add_documents] called with an empty list returns at once: the
    store it leaves is the store it was given, so the documents and the
    index are the same (an index that was not yet created still is not),
    and no snapshot was written. *)
Theorem add_documents_nil_noop :
  forall (encode : Py.str -> Faiss.vec) (st : VectorStore),
    add_documents encode [] st = st
    /\ documents (add_documents encode [] st) = documents st
    /\ index (add_documents encode [] st) = index st
    /\ saved (add_documents encode [] st) = saved st.
Proof. intros encode st. repeat split. Qed.

(** A batch that is not empty always writes a snapshot: the no-op above
    is particular to the empty batch. *)
Lemma add_documents_cons_saves :
  forall encode d docs st,
    List.length (saved (add_documents encode (d :: docs) st))
    = S (List.length (saved st)).
Proof. intros. reflexivity. Qed.

(** ** The audience filter *)

Lemma audience_filter_unmapped_not_empty :
  ~ In (Py.u "family") mapped_types
  /\ Pipeline._get_audience_filter (Some (Py.u "family")) <> [].
Proof.
  split.
  - vm_compute. intuition discriminate.
  - vm_compute. discriminate.
Qed.

(** C3, as the code has it. The audience filter is empty when the
    companionship type is absent ([None] or the empty string); when it is
    present and not one of the mapped types, the filter is not empty: it
    is the one-element default list ["взрослые"] (adults). *)
Theorem audience_filter_absent_or_unmapped :
  Pipeline._get_audience_filter None = []
  /\ Pipeline._get_audience_filter (Some []) = []
  /\ forall r : Py.str,
       r <> [] -> ~ In r mapped_types ->
       Pipeline._get_audience_filter (Some r) = [Py.u "взрослые"].
Proof.
  split; [reflexivity | split; [reflexivity |]].
  intros r Hr Hun. unfold Pipeline._get_audience_filter.
  destruct r as [|c r']; [contradiction |].
  cbn [Py.nonempty]. unfold Pipeline.audience_map. cbn [Pipeline.table_get].
  repeat match goal with
  | |- context [Py.str_eqb ?k (c :: r')] =>
    rewrite (str_eqb_neq k (c :: r'))
      by (intros E; apply Hun; rewrite <- E; unfold mapped_types;
          cbn [In]; tauto)
  end.
  reflexivity.
Qed.

Lemma audience_filter_family_default :
  Pipeline._get_audience_filter (Some (Py.u "family")) = [Py.u "взрослые"].
Proof.
  destruct audience_filter_absent_or_unmapped as (_ & _ & H).
  apply H.
  - vm_compute. discriminate.
  - vm_compute. intuition discriminate.
Defined.

(** The mapped types do get their own, non-default list. *)
Lemma audience_filter_grandparent :
  Pipeline._get_audience_filter (Some (Py.u "grandparent"))
  = [Py.u "пожилые"; Py.u "взрослые"; Py.u "семья"].
Proof. reflexivity. Qed.

(** ** Ingestion: the failures of [ingest_data] *)

Section IngestFailures.

Variable encode : Py.str -> Faiss.vec.

Lemma load_not_found : forall src fmt docs_or,
    Ingestion.load src fmt = docs_or -> docs_or <> Raise FileNotFoundError.
Proof.
  intros src fmt r <-. unfold Ingestion.load, Ingestion.unsupported.
  repeat match goal with
  | |- context [if ?b then _ else _] => destruct b
  | |- context [match ?o with Some _ => _ | None => _ end] => destruct o
  end; discriminate.
Qed.

(** The loading step raises ValueError exactly on a format other than
    csv and json. *)
Lemma load_value_error : forall src fmt,
    (exists msg, Ingestion.load src fmt = Raise (ValueError msg))
    <-> Py.str_eqb fmt (Py.u "csv") = false
        /\ Py.str_eqb fmt (Py.u "json") = false.
Proof.
  intros src fmt. unfold Ingestion.load, Ingestion.unsupported.
  destruct (Py.str_eqb fmt (Py.u "csv")).
  - split; [| intros [H _]; discriminate].
    intros [msg H]. destruct (Ingestion.load_csv src); discriminate.
  - destruct (Py.str_eqb fmt (Py.u "json")).
    + split; [| intros [_ H]; discriminate].
      intros [msg H]. destruct (Ingestion.load_json src); discriminate.
    + split; [auto | intros _; eexists; reflexivity].
Qed.

(** The failures of [ingest_data] when its call of [add_documents]
    returns. *)
Lemma ingest_failures_before_store :
  forall fuel cfg src st fmt,
    ((exists st',
         Ingestion.ingest_data encode fuel cfg src st fmt
         = Some (st', Raise FileNotFoundError))
     <-> Ingestion.path_exists src = false)
    /\ ((exists st' msg,
            Ingestion.ingest_data encode fuel cfg src st fmt
            = Some (st', Raise (ValueError msg)))
        <-> Ingestion.path_exists src = true
            /\ unsupported_format src fmt = true)
    /\ (forall st' e,
           Ingestion.ingest_data encode fuel cfg src st fmt
           = Some (st', Raise e) -> st' = st).
Proof.
  intros fuel cfg src st fmt.
  unfold Ingestion.ingest_data, unsupported_format.
  destruct (Ingestion.path_exists src); cbn [negb].
  2:{ split; [| split].
      - split; [reflexivity | intros _; now exists st].
      - split; [intros (st' & msg & H); discriminate | intros [H _]; discriminate].
      - intros st' e H. now injection H as <- _. }
  unfold Ingestion.detect_format.
  destruct (Py.str_eqb fmt (Py.u "auto")) eqn:Eauto.
  - destruct (Py.str_eqb (Py.lower (Ingestion.suffix src)) (Py.u ".csv")) eqn:Ecsv;
      [| destruct (Py.str_eqb (Py.lower (Ingestion.suffix src)) (Py.u ".json")) eqn:Ejson];
      cbn [negb andb].
    + (* detected as csv *)
      change (Ingestion.load src (Py.u "csv"))
        with (match Ingestion.load_csv src with
              | Some d => Ok d | None => Raise LoaderError end).
      destruct (Ingestion.load_csv src) as [docs|].
      * destruct (Ingestion.all_chunks fuel cfg _);
          (split; [| split];
           [ split; [intros [st' H]; discriminate | discriminate]
           | split; [intros (st' & msg & H); discriminate | intros [_ H]; discriminate]
           | intros st' e H; discriminate ]).
      * split; [| split].
        -- split; [intros [st' H]; discriminate | discriminate].
        -- split; [intros (st' & msg & H); discriminate | intros [_ H]; discriminate].
        -- intros st' e H. now injection H as <- _.
    + (* detected as json *)
      change (Ingestion.load src (Py.u "json"))
        with (match Ingestion.load_json src with
              | Some d => Ok d | None => Raise LoaderError end).
      destruct (Ingestion.load_json src) as [docs|].
      * destruct (Ingestion.all_chunks fuel cfg _);
          (split; [| split];
           [ split; [intros [st' H]; discriminate | discriminate]
           | split; [intros (st' & msg & H); discriminate | intros [_ H]; discriminate]
           | intros st' e H; discriminate ]).
      * split; [| split].
        -- split; [intros [st' H]; discriminate | discriminate].
        -- split; [intros (st' & msg & H); discriminate | intros [_ H]; discriminate].
        -- intros st' e H. now injection H as <- _.
    + (* no detection *)
      split; [| split].
      * split; [intros [st' H]; discriminate | discriminate].
      * split; [auto |]. intros _. exists st. eexists. reflexivity.
      * intros st' e H. now injection H as <- _.
  - (* a format given by the caller *)
    pose proof (load_value_error src fmt) as Hval.
    pose proof (load_not_found src fmt) as Hnf.
    destruct (Ingestion.load src fmt) as [docs | err].
    + assert (Hsup : negb (Py.str_eqb fmt (Py.u "csv"))
                     && negb (Py.str_eqb fmt (Py.u "json")) = false).
      { destruct (Py.str_eqb fmt (Py.u "csv")); [reflexivity |].
        destruct (Py.str_eqb fmt (Py.u "json")); [reflexivity |].
        destruct Hval as [_ Hval]. destruct Hval as [msg Hm]; [auto | discriminate]. }
      rewrite Hsup.
      destruct (Ingestion.all_chunks fuel cfg _);
        (split; [| split];
         [ split; [intros [st' H]; discriminate | discriminate]
         | split; [intros (st' & msg & H); discriminate | intros [_ H]; discriminate]
         | intros st' e H; discriminate ]).
    + split; [| split].
      * split; [| discriminate]. intros [st' H]. injection H as _ ->.
        exfalso. now apply (Hnf _ eq_refl).
      * split.
        -- intros (st' & msg & H). injection H as _ ->.
           destruct Hval as [Hval _]. destruct Hval as [E1 E2]; [now exists msg |].
           rewrite E1, E2. auto.
        -- intros [_ H]. apply andb_true_iff in H. destruct H as [E1 E2].
           apply negb_true_iff in E1, E2.
           destruct Hval as [_ Hval]. destruct Hval as [msg Hm]; [auto |].
           injection Hm as ->. exists st, msg. reflexivity.
      * intros st' e H. now injection H as <- _.
Qed.

End IngestFailures.

(** A missing path and an unsupported format together: the call fails
    with the not-found error, not with the format error. *)
Lemma ingest_missing_path_wins :
  let r := Ingestion.ingest_data Examples.toy_encode 10 default_settings
             Examples.missing_xml empty_store (Py.u "xml") in
  Py.u "xml" <> Py.u "csv" /\ Py.u "xml" <> Py.u "json"
  /\ Py.lower (Ingestion.suffix Examples.missing_xml) <> Py.u ".csv"
  /\ Py.lower (Ingestion.suffix Examples.missing_xml) <> Py.u ".json"
  /\ r = Some (empty_store, Raise FileNotFoundError)
  /\ forall st msg, r <> Some (st, Raise (ValueError msg)).
Proof.
  vm_compute. repeat split; try discriminate; intros; discriminate.
Qed.

(** ** Ingestion: the expiry filter *)

Lemma chunk_doc_end_date : forall doc i c,
    end_date (Ingestion.chunk_doc doc i c) = end_date doc.
Proof. reflexivity. Qed.

Lemma create_chunks_end_date : forall fuel cfg doc out,
    Ingestion.create_exhibition_chunks fuel cfg doc = Some out ->
    Forall (fun c => end_date c = end_date doc) out.
Proof.
  intros fuel cfg doc out. unfold Ingestion.create_exhibition_chunks.
  destruct (Ingestion.chunk_text _ _ _ _) as [chunks|]; [| discriminate].
  intros H. injection H as <-.
  apply Forall_forall. intros c Hc. apply in_map_iff in Hc.
  destruct Hc as (ic & <- & _). reflexivity.
Qed.

Lemma enumerate_from_snd : forall (A : Type) (l : list A) i,
    map snd (Ingestion.enumerate_from i l) = l.
Proof.
  intros A. induction l as [|x l IH]; intros i; [reflexivity |].
  cbn. now rewrite IH.
Qed.

(** The descriptions of the chunk documents are the chunks, in order. *)
Lemma create_chunks_descriptions : forall fuel cfg doc out,
    Ingestion.create_exhibition_chunks fuel cfg doc = Some out ->
    Ingestion.chunk_text fuel (description doc) (chunk_size cfg) (chunk_overlap cfg)
    = Some (map description out).
Proof.
  intros fuel cfg doc out. unfold Ingestion.create_exhibition_chunks.
  destruct (Ingestion.chunk_text _ _ _ _) as [chunks|]; [| discriminate].
  intros H. injection H as <-. rewrite map_map. cbn [Ingestion.chunk_doc description].
  f_equal. symmetry. apply (enumerate_from_snd _ chunks 0).
Qed.

(** What [all_chunks] hands to the store: every document of the batch
    carries the end date of an input document, and every input document
    with a short description is in the batch as it is. *)
Lemma all_chunks_sound : forall fuel cfg active out,
    Ingestion.all_chunks fuel cfg active = Some out ->
    (forall c, In c out -> exists d, In d active /\ end_date c = end_date d)
    /\ (forall d, In d active ->
                  Py.len (description d) <= chunk_size cfg -> In d out).
Proof.
  intros fuel cfg. induction active as [|doc rest IH]; intros out H.
  - injection H as <-. split; [intros c [] | intros d []].
  - cbn [Ingestion.all_chunks] in H.
    destruct (Py.len (description doc) >? chunk_size cfg) eqn:Elong.
    + destruct (Ingestion.create_exhibition_chunks fuel cfg doc) as [here|] eqn:Ehere;
        [| discriminate].
      destruct (Ingestion.all_chunks fuel cfg rest) as [there|]; [| discriminate].
      injection H as <-. destruct (IH there eq_refl) as [IH1 IH2]. split.
      * intros c Hc. apply in_app_or in Hc. destruct Hc as [Hc | Hc].
        -- exists doc. split; [now left |].
           apply create_chunks_end_date in Ehere.
           rewrite Forall_forall in Ehere. now apply Ehere.
        -- destruct (IH1 c Hc) as (d & Hd & E). exists d. split; [now right | exact E].
      * intros d [-> | Hd] Hshort; [lia |].
        apply in_or_app. right. now apply IH2.
    + destruct (Ingestion.all_chunks fuel cfg rest) as [there|]; [| discriminate].
      injection H as <-. destruct (IH there eq_refl) as [IH1 IH2]. split.
      * intros c [<- | Hc].
        -- exists doc. split; [now left | reflexivity].
        -- destruct (IH1 c Hc) as (d & Hd & E). exists d. split; [now right | exact E].
      * intros d [-> | Hd] Hshort; [now left |].
        right. now apply IH2.
Qed.

(** The filter, and the batch that [all_chunks] makes of what it keeps. *)
Lemma expiry_filter_batch :
  forall (today : Py.str) (docs : list MuseumDocument),
    (forall d, In d (Ingestion.active_documents today docs)
               <-> In d docs /\ ~ lex_lt (end_date d) today)
    /\ (forall d, In d docs ->
                  (~ In d (Ingestion.active_documents today docs)
                   <-> lex_lt (end_date d) today))
    /\ (forall fuel cfg batch,
           Ingestion.all_chunks fuel cfg (Ingestion.active_documents today docs)
           = Some batch ->
           (forall c, In c batch -> ~ lex_lt (end_date c) today)
           /\ (forall d, In d docs -> ~ lex_lt (end_date d) today ->
                         Py.len (description d) <= chunk_size cfg ->
                         In d batch)).
Proof.
  intros today docs.
  assert (Hkeep : forall d, In d (Ingestion.active_documents today docs)
                            <-> In d docs /\ ~ lex_lt (end_date d) today).
  { intros d. unfold Ingestion.active_documents.
    rewrite filter_In, ge_not_lt. reflexivity. }
  split; [exact Hkeep | split].
  - intros d Hd. rewrite Hkeep. split.
    + intros Hn. destruct (Py.ge (end_date d) today) eqn:E.
      * exfalso. apply Hn. split; [assumption | now apply ge_not_lt].
      * destruct (Py.str_cmp (end_date d) today) eqn:C;
          unfold Py.ge in E; rewrite C in E; try discriminate.
        now apply str_cmp_lt.
    + intros Hlt [_ Hn]. contradiction.
  - intros fuel cfg batch Hb. apply all_chunks_sound in Hb.
    destruct Hb as [Hb1 Hb2]. split.
    + intros c Hc. destruct (Hb1 c Hc) as (d & Hd & E).
      rewrite E. now apply Hkeep in Hd.
    + intros d Hd Hn Hshort. apply Hb2; [| assumption].
      apply Hkeep. now split.
Qed.

(** ** Chunking: a run that never ends *)

Lemma looping_step : forall chunks,
    Ingestion.chunk_step Examples.looping_text 10 5 1 chunks
    = (chunks ++ [Py.u "aaaa."], 1).
Proof. intros chunks. reflexivity. Qed.

Lemma looping_from_one : forall fuel chunks,
    Ingestion.chunk_loop fuel Examples.looping_text 10 5 1 chunks = None.
Proof.
  induction fuel as [|fuel IH]; intros chunks; [reflexivity |].
  cbn [Ingestion.chunk_loop].
  change (1 <? Py.len Examples.looping_text) with true. cbv iota.
  rewrite looping_step.
  change (1 >=? Py.len Examples.looping_text) with false. cbv iota.
  apply IH.
Qed.

(** C4, on the text "aaaaa.bbbbbbbbbbbbbb" with chunk size 10 and overlap
    5 (so 0 <= overlap < chunk_size): the first window ends after the
    full stop, at 6, and the next start is 6 - 5 = 1; from start 1 the
    window ends at 6 again and the next start is 1 again. The loop
    therefore never ends: whatever the fuel, [chunk_text] does not
    return. *)
Theorem chunk_text_does_not_terminate :
  0 <= 5 < 10
  /\ forall fuel : nat,
       Ingestion.chunk_text fuel Examples.looping_text 10 5 = None.
Proof.
  split; [lia |].
  intros fuel. unfold Ingestion.chunk_text.
  change (Py.len Examples.looping_text <=? 10) with false. cbv iota.
  destruct fuel as [|fuel]; [reflexivity |].
  cbn [Ingestion.chunk_loop].
  change (0 <? Py.len Examples.looping_text) with true. cbv iota.
  change (Ingestion.chunk_step Examples.looping_text 10 5 0 [])
    with ([Py.u "aaaaa."], 1).
  cbv iota beta.
  change (1 >=? Py.len Examples.looping_text) with false. cbv iota.
  apply looping_from_one.
Qed.

(** The general shape of such a run: a window whose end, less the
    overlap, is its own start. *)
Lemma chunk_loop_fixed_point : forall text size overlap start,
    start < Py.len text ->
    Ingestion.window_end text size start - overlap = start ->
    forall fuel chunks,
      Ingestion.chunk_loop fuel text size overlap start chunks = None.
Proof.
  intros text size overlap start Hlt Hfix.
  induction fuel as [|fuel IH]; intros chunks; [reflexivity |].
  cbn [Ingestion.chunk_loop].
  destruct (start <? Py.len text) eqn:E; [| apply Z.ltb_ge in E; lia].
  unfold Ingestion.chunk_step. rewrite Hfix.
  destruct (start >=? Py.len text) eqn:G; [apply Z.geb_le in G; lia |].
  apply IH.
Qed.

(** The same happens with the default settings (chunk size 512, overlap
    50) on a description that opens with a sentence of 50 characters and
    has no other full stop in its first 512 characters: the first window
    ends at 50 and the next start is 0 again. *)
Lemma chunk_text_loops_with_defaults :
  forall fuel : nat,
    Ingestion.chunk_text fuel Examples.one_sentence_text
      (chunk_size default_settings) (chunk_overlap default_settings) = None.
Proof.
  intros fuel. unfold Ingestion.chunk_text.
  change (Py.len Examples.one_sentence_text <=? chunk_size default_settings)
    with false. cbv iota.
  apply chunk_loop_fixed_point; vm_compute; reflexivity.
Qed.

(** ** Chunking: slices, [rfind] and [strip] *)

Lemma len_nonneg : forall (A : Type) (l : list A), 0 <= Py.len l.
Proof. intros. unfold Py.len. lia. Qed.

Lemma len_app : forall (A : Type) (l m : list A),
    Py.len (l ++ m) = Py.len l + Py.len m.
Proof. intros. unfold Py.len. rewrite length_app. lia. Qed.

Lemma adjust_nonneg : forall n i, 0 <= n -> 0 <= Py.adjust n i.
Proof.
  intros n i Hn. unfold Py.adjust.
  destruct (i <? 0) eqn:E; [| apply Z.ltb_ge in E]; lia.
Qed.

Lemma lstrip_length : forall s, (List.length (Py.lstrip s) <= List.length s)%nat.
Proof.
  induction s as [|c r IH]; simpl; [lia |].
  destruct (Py.isspace c); simpl; lia.
Qed.

Lemma strip_length : forall s, (List.length (Py.strip s) <= List.length s)%nat.
Proof.
  intros s. unfold Py.strip, Py.rstrip.
  pose proof (lstrip_length (rev (Py.lstrip (rev s)))) as H1.
  pose proof (lstrip_length (rev s)) as H2.
  rewrite length_rev in H1. rewrite length_rev in H2. lia.
Qed.

Lemma lstrip_id : forall s,
    Forall (fun c => Py.isspace c = false) s -> Py.lstrip s = s.
Proof.
  intros s H. destruct H as [|c r Hc Hr]; [reflexivity |].
  simpl. now rewrite Hc.
Qed.

Lemma strip_id : forall s,
    Forall (fun c => Py.isspace c = false) s -> Py.strip s = s.
Proof.
  intros s H. unfold Py.strip, Py.rstrip.
  rewrite (lstrip_id (rev s)) by now apply Forall_rev.
  rewrite rev_involutive. now apply lstrip_id.
Qed.

(** A slice is never longer than the distance between its bounds. *)
Lemma slice_len_le : forall (A : Type) (l : list A) a b,
    0 <= b -> Py.len (Py.slice l a b) <= Z.max 0 (b - a).
Proof.
  intros A l a b Hb. unfold Py.slice.
  pose proof (len_nonneg A l) as Hl.
  set (n := Py.len l) in *.
  assert (Hb' : Py.adjust n b <= b).
  { unfold Py.adjust. destruct (b <? 0) eqn:E; [apply Z.ltb_lt in E |]; lia. }
  destruct (Z_lt_le_dec n a) as [Hout | Hin].
  - (* the start lies beyond the end of the list *)
    assert (Ha : Py.adjust n a = n).
    { unfold Py.adjust. destruct (a <? 0) eqn:E; [apply Z.ltb_lt in E |]; lia. }
    rewrite Ha. unfold Py.len. rewrite length_firstn, length_skipn.
    subst n. unfold Py.len. lia.
  - assert (Ha : a <= Py.adjust n a).
    { unfold Py.adjust. destruct (a <? 0) eqn:E; [apply Z.ltb_lt in E | apply Z.ltb_ge in E]; lia. }
    unfold Py.len at 1. rewrite length_firstn. lia.
Qed.

(** Within bounds a slice is a [firstn] of a [skipn]. *)
Lemma slice_inside : forall (A : Type) (l : list A) a b,
    0 <= a <= Py.len l -> a <= b ->
    Py.slice l a b
    = firstn (Z.to_nat (Z.min b (Py.len l) - a)) (skipn (Z.to_nat a) l).
Proof.
  intros A l a b Ha Hab. unfold Py.slice, Py.adjust.
  destruct (a <? 0) eqn:E1; [apply Z.ltb_lt in E1; lia |].
  destruct (b <? 0) eqn:E2; [apply Z.ltb_lt in E2; lia |].
  now replace (Z.min a (Py.len l)) with a by lia.
Qed.

Lemma rfind_from_range : forall c l i,
    Py.rfind_from c l i = -1
    \/ i <= Py.rfind_from c l i < i + Py.len l.
Proof.
  intros c. induction l as [|x r IH]; intros i; [now left |].
  cbn [Py.rfind_from]. unfold Py.len. cbn [List.length].
  specialize (IH (i + 1)). unfold Py.len in IH.
  destruct (Py.rfind_from c r (i + 1) =? -1) eqn:E.
  - destruct (x =? c)%N; [right; lia | now left].
  - apply Z.eqb_neq in E. right. lia.
Qed.

(** A position found by [rfind] lies before the end bound. *)
Lemma rfind_range : forall c text a b,
    0 <= b -> Py.rfind c text a b <> -1 ->
    0 <= Py.rfind c text a b < b.
Proof.
  intros c text a b Hb Hfound. unfold Py.rfind in *.
  pose proof (len_nonneg _ text) as Hl.
  set (a' := Py.adjust (Py.len text) a) in *.
  set (b' := Py.adjust (Py.len text) b) in *.
  assert (Ha' : 0 <= a') by now apply adjust_nonneg.
  assert (Hb' : b' <= b).
  { subst b'. unfold Py.adjust.
    destruct (b <? 0) eqn:E; [apply Z.ltb_lt in E |]; lia. }
  destruct (rfind_from_range c (firstn (Z.to_nat (b' - a')) (skipn (Z.to_nat a') text)) a')
    as [H | H]; [contradiction |].
  unfold Py.len in H at 1. rewrite length_firstn in H. lia.
Qed.

Lemma sentence_end_range : forall text a b,
    0 <= b -> Ingestion.sentence_end text a b <> -1 ->
    0 <= Ingestion.sentence_end text a b < b.
Proof.
  intros text a b Hb. unfold Ingestion.sentence_end.
  destruct (Py.rfind Ingestion.full_stop text a b =? -1) eqn:E1.
  - destruct (Py.rfind Ingestion.exclamation text a b =? -1) eqn:E2.
    + now apply rfind_range.
    + intros _. apply Z.eqb_neq in E2. now apply rfind_range.
  - rewrite E1. intros _. apply Z.eqb_neq in E1. now apply rfind_range.
Qed.

(** The window is not empty and not wider than the chunk size, and it
    ends after position 0. *)
Lemma window_end_range : forall text size start,
    1 <= size -> - size < start ->
    start < Ingestion.window_end text size start <= start + size
    /\ 1 <= Ingestion.window_end text size start.
Proof.
  intros text size start Hsize Hstart. unfold Ingestion.window_end.
  destruct (start + size <? Py.len text); [| lia].
  destruct (Ingestion.sentence_end text start (start + size) =? -1) eqn:E;
    cbn [negb andb]; [lia |].
  apply Z.eqb_neq in E.
  pose proof (sentence_end_range text start (start + size) ltac:(lia) E) as R.
  destruct (Ingestion.sentence_end text start (start + size) >? start) eqn:G; [| lia].
  apply Z.gtb_lt in G. lia.
Qed.

(** A window cut at a sentence end holds at least two characters. *)
Lemma window_end_step : forall text size start,
    2 <= size -> - size < start ->
    start + 2 <= Ingestion.window_end text size start.
Proof.
  intros text size start Hsize Hstart. unfold Ingestion.window_end.
  destruct (start + size <? Py.len text); [| lia].
  destruct (negb (Ingestion.sentence_end text start (start + size) =? -1)); cbn [andb];
    [| lia].
  destruct (Ingestion.sentence_end text start (start + size) >? start) eqn:G; [| lia].
  apply Z.gtb_lt in G. lia.
Qed.

(** With an overlap of 0 or 1 every pass moves the start forward, and
    the loop ends: the runs that never end need an overlap of 2 or
    more. *)
Lemma chunk_loop_small_overlap_terminates : forall text size overlap,
    0 <= overlap <= 1 -> overlap < size ->
    forall fuel start chunks,
      0 <= start ->
      (Z.to_nat (Py.len text - start) <= fuel)%nat -> (1 <= fuel)%nat ->
      exists out, Ingestion.chunk_loop fuel text size overlap start chunks = Some out.
Proof.
  intros text size overlap Hov Hsize. induction fuel as [|fuel IH];
    intros start chunks Hstart Hfuel Hone; [lia |].
  cbn [Ingestion.chunk_loop].
  destruct (start <? Py.len text) eqn:Elt; [| now exists chunks].
  apply Z.ltb_lt in Elt. unfold Ingestion.chunk_step.
  destruct (window_end_range text size start ltac:(lia) ltac:(lia)) as [Hw _].
  assert (Hmove : start + 1 <= Ingestion.window_end text size start - overlap).
  { destruct (Z.eq_dec overlap 0) as [-> | Hnz]; [lia |].
    pose proof (window_end_step text size start ltac:(lia) ltac:(lia)). lia. }
  destruct (Ingestion.window_end text size start - overlap >=? Py.len text) eqn:G;
    [eexists; reflexivity |].
  assert (Ingestion.window_end text size start - overlap < Py.len text).
  { destruct (Z_lt_le_dec (Ingestion.window_end text size start - overlap) (Py.len text))
      as [L | L]; [exact L |].
    apply Z.geb_le in L. rewrite L in G. discriminate. }
  apply IH; lia.
Qed.

(** ** Chunking: what every chunk satisfies *)

Lemma chunk_step_good : forall text size overlap start chunks,
    1 <= size -> - size < start ->
    Forall (good_chunk text size) chunks ->
    Forall (good_chunk text size)
      (fst (Ingestion.chunk_step text size overlap start chunks)).
Proof.
  intros text size overlap start chunks Hsize Hstart Hgood.
  unfold Ingestion.chunk_step. cbn [fst].
  destruct (window_end_range text size start Hsize Hstart) as [Hw Hpos].
  set (e := Ingestion.window_end text size start) in *.
  destruct (Py.strip (Py.slice text start e)) as [|ch rest] eqn:Echunk;
    cbn [Py.nonempty]; [assumption |].
  apply Forall_app. split; [assumption |].
  constructor; [| constructor]. split.
  - pose proof (strip_length (Py.slice text start e)) as Hs.
    pose proof (slice_len_le _ text start e ltac:(lia)) as Hsl.
    rewrite Echunk in Hs. unfold Py.len in *. cbn [List.length] in *. lia.
  - exists start, e. now rewrite Echunk.
Qed.

Lemma chunk_loop_good : forall text size overlap fuel start chunks out,
    0 <= overlap < size -> - size < start ->
    Forall (good_chunk text size) chunks ->
    Ingestion.chunk_loop fuel text size overlap start chunks = Some out ->
    Forall (good_chunk text size) out.
Proof.
  intros text size overlap. induction fuel as [|fuel IH];
    intros start chunks out Hov Hstart Hgood Hrun; [discriminate |].
  cbn [Ingestion.chunk_loop] in Hrun.
  destruct (start <? Py.len text); [| now injection Hrun as <-].
  pose proof (chunk_step_good text size overlap start chunks
                ltac:(lia) Hstart Hgood) as Hstep.
  destruct (window_end_range text size start ltac:(lia) Hstart) as [Hw Hpos].
  destruct (Ingestion.chunk_step text size overlap start chunks)
    as [chunks' start'] eqn:Estep.
  assert (Hnext : start' = Ingestion.window_end text size start - overlap).
  { unfold Ingestion.chunk_step in Estep. now injection Estep as _ <-. }
  cbn [fst] in Hstep.
  destruct (start' >=? Py.len text); [now injection Hrun as <- |].
  apply (IH start' chunks' out); try assumption. lia.
Qed.

(** ** Chunking: putting the chunks back together *)

Lemma Forall_firstn_keep : forall (A : Type) (P : A -> Prop) n (l : list A),
    Forall P l -> Forall P (firstn n l).
Proof.
  intros A P n l H. revert n.
  induction H as [|x l Hx Hl IH]; intros [|n]; cbn [firstn]; auto.
Qed.

Lemma Forall_skipn_keep : forall (A : Type) (P : A -> Prop) n (l : list A),
    Forall P l -> Forall P (skipn n l).
Proof.
  intros A P n l H. revert n.
  induction H as [|x l Hx Hl IH]; intros [|n]; cbn [skipn]; auto.
Qed.

Lemma firstn_extend : forall (A : Type) (l : list A) n m,
    firstn n l ++ firstn m (skipn n l) = firstn (n + m) l.
Proof.
  intros A l n m. revert l. induction n as [|n IH]; intros l; [reflexivity |].
  destruct l as [|x l]; cbn [Nat.add firstn skipn app].
  - now rewrite firstn_nil.
  - now rewrite IH.
Qed.

Lemma reassemble_zero : forall chunks, reassemble 0 chunks = List.concat chunks.
Proof.
  intros [|c r]; [reflexivity |]. unfold reassemble. cbn [List.concat].
  f_equal. f_equal. change (Z.to_nat 0) with O.
  induction r as [|x r IH]; [reflexivity |]. cbn [map].
  change (skipn 0 x) with x. now rewrite IH.
Qed.

(** Without overlap and without white space, the loop ends and the
    chunks, one after the other, are the text. *)
Lemma chunk_loop_partition : forall text size,
    1 <= size ->
    Forall (fun c => Py.isspace c = false) text ->
    forall fuel start chunks,
      0 <= start < Py.len text ->
      (Z.to_nat (Py.len text - start) <= fuel)%nat ->
      List.concat chunks = firstn (Z.to_nat start) text ->
      exists out,
        Ingestion.chunk_loop fuel text size 0 start chunks = Some out
        /\ List.concat out = text.
Proof.
  intros text size Hsize Hns. induction fuel as [|fuel IH];
    intros start chunks Hstart Hfuel Hcat; [lia |].
  cbn [Ingestion.chunk_loop].
  destruct (start <? Py.len text) eqn:Elt; [| apply Z.ltb_ge in Elt; lia].
  unfold Ingestion.chunk_step.
  destruct (window_end_range text size start Hsize ltac:(lia)) as [Hw Hpos].
  set (e := Ingestion.window_end text size start) in *.
  rewrite (slice_inside _ text start e) by lia.
  rewrite strip_id
    by now apply Forall_firstn_keep, Forall_skipn_keep.
  remember (firstn (Z.to_nat (Z.min e (Py.len text) - start))
              (skipn (Z.to_nat start) text)) as piece eqn:Epiece.
  assert (Hne : Py.nonempty piece = true).
  { destruct piece as [|ch rest]; [| reflexivity]. exfalso.
    apply (f_equal (@List.length N)) in Epiece.
    rewrite length_firstn, length_skipn in Epiece. cbn [List.length] in Epiece.
    unfold Py.len in *. lia. }
  rewrite Hne.
  assert (Hcat' : List.concat (chunks ++ [piece])
                  = firstn (Z.to_nat (Z.min e (Py.len text))) text).
  { rewrite concat_app. cbn [List.concat]. rewrite app_nil_r, Hcat, Epiece.
    rewrite firstn_extend. f_equal. lia. }
  replace (e - 0) with e by lia.
  destruct (e >=? Py.len text) eqn:Ege.
  - exists (chunks ++ [piece]). split; [reflexivity |].
    apply Z.geb_le in Ege. rewrite Hcat'.
    apply firstn_all2. unfold Py.len in *. lia.
  - assert (Hlt : e < Py.len text).
    { destruct (Z_lt_le_dec e (Py.len text)) as [L | G]; [assumption |].
      apply Z.geb_le in G. rewrite G in Ege. discriminate. }
    apply IH.
    + lia.
    + lia.
    + etransitivity; [exact Hcat' | f_equal; lia].
Qed.

(** With chunk size 5 and no overlap, "ab. cd. ef" is cut after each
    full stop and every chunk is trimmed: the chunks are "ab.", "cd."
    and "ef", and put together they give "ab.cd.ef", which is not the
    description. *)
Lemma chunk_roundtrip_loses_spaces :
  5 < Py.len Examples.spaced_text
  /\ Ingestion.chunk_text 10 Examples.spaced_text 5 0
     = Some [Py.u "ab."; Py.u "cd."; Py.u "ef"]
  /\ reassemble 0 [Py.u "ab."; Py.u "cd."; Py.u "ef"] <> Examples.spaced_text.
Proof.
  split; [reflexivity | split; [reflexivity |]].
  vm_compute. discriminate.
Qed.

(** The chunks of a long description, and the round trip without
    overlap. *)
Lemma chunk_text_chunks_no_overlap :
  forall (text : Py.str) (size overlap : Z),
    0 <= overlap < size -> size < Py.len text ->
    (forall fuel chunks,
        Ingestion.chunk_text fuel text size overlap = Some chunks ->
        Forall (good_chunk text size) chunks)
    /\ (overlap = 0 ->
        Forall (fun c => Py.isspace c = false) text ->
        forall fuel, (List.length text <= fuel)%nat ->
        exists chunks,
          Ingestion.chunk_text fuel text size overlap = Some chunks
          /\ reassemble overlap chunks = text).
Proof.
  intros text size overlap Hov Hlong.
  assert (Elong : (Py.len text <=? size) = false) by (apply Z.leb_gt; lia).
  split.
  - intros fuel chunks. unfold Ingestion.chunk_text. rewrite Elong.
    apply chunk_loop_good; [assumption | lia | constructor].
  - intros -> Hns fuel Hfuel. unfold Ingestion.chunk_text. rewrite Elong.
    destruct (chunk_loop_partition text size ltac:(lia) Hns fuel 0 [])
      as (out & Hrun & Hcat).
    + lia.
    + unfold Py.len. lia.
    + reflexivity.
    + exists out. split; [assumption |]. now rewrite reassemble_zero.
Qed.

(** ** The store: positions in the index and in the dictionary *)

Lemma keys_app : forall d e, keys (d ++ e) = keys d ++ keys e.
Proof. intros. unfold keys. apply map_app. Qed.

Lemma dict_set_fresh : forall k v d,
    ~ In k (keys d) -> dict_set k v d = d ++ [(k, v)].
Proof.
  intros k v. induction d as [|[k' v'] d IH]; intros Hk; [reflexivity |].
  cbn [dict_set]. cbn [keys map fst In] in Hk.
  rewrite str_eqb_neq by tauto.
  cbn [app]. f_equal. apply IH. unfold keys. tauto.
Qed.

(** The loop of [add_documents] over a batch of new, distinct
    identifiers appends the batch to the dictionary, in order. *)
Lemma fold_dict_set_fresh : forall docs d,
    NoDup (keys d ++ map doc_id docs) ->
    fold_left (fun d doc => dict_set (doc_id doc) doc d) docs d
    = d ++ map (fun doc => (doc_id doc, doc)) docs.
Proof.
  induction docs as [|doc docs IH]; intros d Hnd.
  - cbn. now rewrite app_nil_r.
  - cbn [fold_left map]. cbn [map] in Hnd.
    rewrite dict_set_fresh.
    + rewrite IH.
      * now rewrite <- app_assoc.
      * rewrite keys_app. cbn [keys map fst]. now rewrite <- app_assoc.
    + apply NoDup_remove_2 in Hnd. intros Hin. apply Hnd.
      apply in_or_app. now left.
Qed.

Lemma keys_of_batch : forall docs,
    keys (map (fun doc => (doc_id doc, doc)) docs) = map doc_id docs.
Proof. intros. unfold keys. rewrite map_map. reflexivity. Qed.

Lemma index_keys_nth : forall (d : dict) i k v,
    nth_error d i = Some (k, v) ->
    Py.index (keys d) (Z.of_nat i) = Some k.
Proof.
  intros d i k v H. unfold Py.index.
  destruct (Z.of_nat i <? 0) eqn:E; [apply Z.ltb_lt in E; lia |].
  rewrite E, Nat2Z.id. unfold keys.
  now apply (map_nth_error fst) in H.
Qed.

Lemma dict_get_nth : forall (d : dict) i k v,
    NoDup (keys d) -> nth_error d i = Some (k, v) -> dict_get k d = Some v.
Proof.
  induction d as [|[k' v'] d IH]; intros i k v Hnd H.
  - destruct i; discriminate.
  - cbn [keys map fst] in Hnd. inversion Hnd as [|? ? Hnotin Hnd']; subst.
    destruct i as [|i]; cbn [nth_error] in H.
    + injection H as -> ->. cbn [dict_get]. now rewrite str_eqb_refl.
    + cbn [dict_get]. rewrite str_eqb_neq; [now apply (IH i) |].
      intros ->. apply Hnotin. apply nth_error_In in H.
      apply (in_map fst) in H. exact H.
Qed.

Lemma dict_get_in_keys : forall (d : dict) k,
    In k (keys d) -> exists v, dict_get k d = Some v.
Proof.
  induction d as [|[k' v'] d IH]; intros k Hk; [destruct Hk |].
  cbn [dict_get]. destruct (Py.str_eqb k' k) eqn:E; [now exists v' |].
  apply IH. destruct Hk as [Hk | Hk]; [| exact Hk].
  cbn [fst] in Hk. subst k'. rewrite str_eqb_refl in E. discriminate.
Qed.

Lemma empty_store_aligned : forall encode, aligned encode empty_store.
Proof.
  intros encode. unfold aligned, store_ok. cbn.
  repeat split; constructor.
Qed.

Section StoreInvariant.

Variable encode : Py.str -> Faiss.vec.

(** One batch of new, distinct identifiers keeps the store aligned and
    appends the batch to the dictionary. *)
Lemma add_documents_aligned : forall docs st,
    aligned encode st ->
    NoDup (keys (documents st) ++ map doc_id docs) ->
    aligned encode (add_documents encode docs st)
    /\ documents (add_documents encode docs st)
       = documents st ++ map (fun doc => (doc_id doc, doc)) docs.
Proof.
  intros docs st [(Hnd & Hid & Hlen) Hal] Hfresh.
  destruct docs as [|doc0 docs0] eqn:Edocs.
  { cbn. rewrite app_nil_r. repeat split; assumption. }
  rewrite <- Edocs in *. assert (Hne : docs <> []) by (subst; discriminate).
  clear Edocs doc0 docs0.
  assert (Hadd : add_documents encode docs st
                 = {| index := Some ((match index st with Some xb => xb | None => [] end)
                                     ++ map (fun doc => encode (embedded_text doc)) docs);
                      documents := documents st ++ map (fun doc => (doc_id doc, doc)) docs;
                      saved := ((match index st with Some xb => xb | None => [] end)
                                ++ map (fun doc => encode (embedded_text doc)) docs,
                                documents st ++ map (fun doc => (doc_id doc, doc)) docs)
                               :: saved st |}).
  { unfold add_documents. destruct docs as [|d0 ds]; [contradiction |].
    rewrite (fold_dict_set_fresh (d0 :: ds) (documents st) Hfresh).
    reflexivity. }
  rewrite Hadd. cbn [documents index]. split; [| reflexivity].
  unfold aligned, store_ok. cbn [documents index].
  repeat split.
  - rewrite keys_app, keys_of_batch. exact Hfresh.
  - apply Forall_app. split; [assumption |].
    apply Forall_forall. intros kv Hkv. apply in_map_iff in Hkv.
    destruct Hkv as (doc & <- & _). reflexivity.
  - rewrite !length_app, !length_map.
    destruct (index st) as [xb|]; [now rewrite Hlen | now rewrite Hlen].
  - rewrite map_app, map_map. cbn [snd].
    destruct (index st) as [xb|]; [now rewrite Hal | now rewrite Hlen].
Qed.

Lemma add_all_aligned : forall batches st,
    aligned encode st ->
    NoDup (keys (documents st) ++ map doc_id (List.concat batches)) ->
    aligned encode (add_all encode batches st)
    /\ documents (add_all encode batches st)
       = documents st
         ++ map (fun doc => (doc_id doc, doc)) (List.concat batches).
Proof.
  induction batches as [|batch batches IH]; intros st Hal Hfresh.
  - cbn. rewrite app_nil_r. now split.
  - cbn [add_all fold_left List.concat] in *.
    rewrite map_app, app_assoc in Hfresh.
    destruct (add_documents_aligned batch st Hal) as [Hal1 Hdocs1].
    { now apply NoDup_app_remove_r in Hfresh. }
    destruct (IH (add_documents encode batch st) Hal1) as [Hal2 Hdocs2].
    { rewrite Hdocs1, keys_app, keys_of_batch. exact Hfresh. }
    split; [exact Hal2 |].
    unfold add_all in Hdocs2. rewrite Hdocs2, Hdocs1.
    now rewrite map_app, app_assoc.
Qed.

(** In an aligned store, the position of a vector leads back, through
    the order of the keys, to the document that was embedded. *)
Lemma aligned_lookup : forall st xb i v,
    aligned encode st ->
    index st = Some xb -> nth_error xb i = Some v ->
    exists id doc,
      nth_error (documents st) i = Some (id, doc)
      /\ Py.index (keys (documents st)) (Z.of_nat i) = Some id
      /\ dict_get id (documents st) = Some doc
      /\ doc_id doc = id
      /\ v = encode (embedded_text doc).
Proof.
  intros st xb i v [(Hnd & Hid & Hlen) Hal] Hxb Hv.
  rewrite Hxb in Hal. subst xb. rewrite nth_error_map in Hv.
  destruct (nth_error (documents st) i) as [[id doc]|] eqn:Hi; [| discriminate].
  injection Hv as <-. exists id, doc. repeat split.
  - now apply (index_keys_nth _ _ _ doc).
  - now apply (dict_get_nth _ i).
  - rewrite Forall_forall in Hid. apply (Hid (id, doc)).
    now apply nth_error_In in Hi.
Qed.

(** Calls that all return: keys and vectors stay in step. *)
Lemma add_all_keeps_positions :
  forall (batches : list (list MuseumDocument)) (st : VectorStore),
    aligned encode st ->
    NoDup (keys (documents st) ++ map doc_id (List.concat batches)) ->
    documents (add_all encode batches st)
    = documents st ++ map (fun doc => (doc_id doc, doc)) (List.concat batches)
    /\ (forall xb, index (add_all encode batches st) = Some xb ->
                   List.length xb
                   = List.length (documents (add_all encode batches st)))
    /\ (forall xb i v,
           index (add_all encode batches st) = Some xb ->
           nth_error xb i = Some v ->
           exists id doc,
             Py.index (keys (documents (add_all encode batches st)))
               (Z.of_nat i) = Some id
             /\ dict_get id (documents (add_all encode batches st)) = Some doc
             /\ doc_id doc = id
             /\ v = encode (embedded_text doc)).
Proof.
  intros batches st Hal Hfresh.
  destruct (add_all_aligned batches st Hal Hfresh) as [Hal' Hdocs].
  split; [exact Hdocs | split].
  - intros xb Hxb. destruct Hal' as [(_ & _ & Hlen) _].
    now rewrite Hxb in Hlen.
  - intros xb i v Hxb Hv.
    destruct (aligned_lookup _ xb i v Hal' Hxb Hv)
      as (id & doc & _ & H1 & H2 & H3 & H4).
    exists id, doc. now repeat split.
Qed.

End StoreInvariant.

Ltac nodup_concrete :=
  vm_compute;
  repeat (apply NoDup_cons; [cbn [In]; intuition discriminate |]);
  apply NoDup_nil.

(** ** The index: what [search] returns *)

Lemma insert_hit_perm : forall h l, Permutation (Faiss.insert_hit h l) (h :: l).
Proof.
  intros h. induction l as [|g r IH]; [apply Permutation_refl |].
  cbn [Faiss.insert_hit]. destruct (Qle_bool (fst g) (fst h)).
  - apply Permutation_refl.
  - eapply Permutation_trans; [apply perm_skip, IH | apply perm_swap].
Qed.

Lemma ranked_perm : forall xb q,
    Permutation (Faiss.ranked xb q) (Faiss.scored xb q).
Proof.
  intros xb q. unfold Faiss.ranked.
  induction (Faiss.scored xb q) as [|h l IH]; [apply Permutation_refl |].
  cbn [fold_right].
  eapply Permutation_trans; [apply insert_hit_perm | now apply perm_skip].
Qed.

Lemma map_snd_combine : forall (A B : Type) (l : list A) (m : list B),
    List.length l = List.length m -> map snd (combine l m) = m.
Proof.
  intros A B. induction l as [|x l IH]; intros [|y m] H; try discriminate;
    [reflexivity |].
  cbn. f_equal. apply IH. now injection H.
Qed.

Lemma positions_scored : forall xb q,
    map snd (Faiss.scored xb q) = Faiss.positions (List.length xb).
Proof.
  intros xb q. unfold Faiss.scored. apply map_snd_combine.
  unfold Faiss.positions. now rewrite !length_map, length_seq.
Qed.

Lemma positions_NoDup : forall n, NoDup (Faiss.positions n).
Proof.
  intros n. unfold Faiss.positions.
  apply Injective_map_NoDup; [| apply seq_NoDup].
  intros x y. apply Nat2Z.inj.
Qed.

Lemma positions_range : forall n p,
    In p (Faiss.positions n) -> 0 <= p < Z.of_nat n.
Proof.
  intros n p H. unfold Faiss.positions in H. apply in_map_iff in H.
  destruct H as (i & <- & Hi). apply in_seq in Hi. lia.
Qed.

Lemma NoDup_firstn_keep : forall (A : Type) n (l : list A),
    NoDup l -> NoDup (firstn n l).
Proof.
  intros A n l H. rewrite <- (firstn_skipn n l) in H.
  now apply NoDup_app_remove_r in H.
Qed.

Lemma In_firstn_keep : forall (A : Type) n (l : list A) x,
    In x (firstn n l) -> In x l.
Proof.
  intros A n l x H. rewrite <- (firstn_skipn n l). apply in_or_app. now left.
Qed.

Lemma ranked_proper : forall xb q,
    proper_hits (List.length xb) (Faiss.ranked xb q).
Proof.
  intros xb q. pose proof (ranked_perm xb q) as Hp. split.
  - apply (Permutation_NoDup (l := map snd (Faiss.scored xb q))).
    + apply Permutation_sym. now apply Permutation_map.
    + rewrite positions_scored. apply positions_NoDup.
  - apply Forall_forall. intros h Hh.
    apply (Permutation_in _ Hp) in Hh. apply (in_map snd) in Hh.
    rewrite positions_scored in Hh. now apply positions_range.
Qed.

Lemma proper_firstn : forall n k hits,
    proper_hits n hits -> proper_hits n (firstn k hits).
Proof.
  intros n k hits [Hnd Hr]. split.
  - rewrite <- firstn_map. now apply NoDup_firstn_keep.
  - now apply Forall_firstn_keep.
Qed.

(** For a positive [k] the index answers with proper hits followed by
    fillers at position [-1]; for any other [k] the call fails. *)
Lemma faiss_search_cases : forall xb q k,
    (k <= 0 -> Faiss.search xb q k = None)
    /\ (1 <= k ->
        exists found m,
          Faiss.search xb q k = Some (found ++ repeat (Faiss.lowest, -1) m)
          /\ proper_hits (List.length xb) found).
Proof.
  intros xb q k. unfold Faiss.search. split; intros Hk.
  - destruct (k <=? 0) eqn:E; [reflexivity | apply Z.leb_gt in E; lia].
  - destruct (k <=? 0) eqn:E; [apply Z.leb_le in E; lia |].
    eexists _, _. split; [reflexivity |].
    apply proper_firstn, ranked_proper.
Qed.

(** ** [VectorStore.search] *)

Lemma any_in_common : forall wanted have,
    any_in wanted have = true -> exists t, In t wanted /\ In t have.
Proof.
  intros wanted have H. unfold any_in in H. apply existsb_exists in H.
  destruct H as (t & Ht & Hc). exists t. split; [assumption |].
  now apply contains_In.
Qed.

Lemma filter_in_force : forall (filter_ : option (list Py.str)) have,
    Py.truthy filter_
    && negb (any_in (match filter_ with Some l => l | None => [] end) have)
    = false ->
    shares filter_ have.
Proof.
  intros filter_ have H wanted -> Hne.
  destruct wanted as [|w ws]; [contradiction |].
  cbn [Py.truthy Py.nonempty andb] in H. apply negb_false_iff in H.
  now apply any_in_common.
Qed.

Section ScanFacts.

Variables (docs : dict) (k : Z).
Variables (filter_tags filter_audience : option (list Py.str)).

(** Every document that the loop of [search] lets through passes the
    filters in force. *)
Lemma scan_filtered : forall hits results out,
    scan docs k filter_tags filter_audience hits results = Ok out ->
    Forall (fun r => shares filter_tags (tags (fst r))
                     /\ shares filter_audience (audience (fst r))) results ->
    Forall (fun r => shares filter_tags (tags (fst r))
                     /\ shares filter_audience (audience (fst r))) out.
Proof.
  induction hits as [|[score idx] rest IH]; intros results out Hrun Hres.
  - now injection Hrun as <-.
  - cbn [scan] in Hrun.
    destruct (idx =? -1); [now injection Hrun as <- |].
    destruct (Py.index (keys docs) idx) as [id|]; [| discriminate].
    destruct (dict_get id docs) as [doc|]; [| discriminate].
    destruct (Py.truthy filter_tags && _) eqn:Et; [now apply (IH results) |].
    destruct (Py.truthy filter_audience && _) eqn:Ea; [now apply (IH results) |].
    assert (Hres' : Forall (fun r => shares filter_tags (tags (fst r))
                                     /\ shares filter_audience (audience (fst r)))
                      (results ++ [(doc, score)])).
    { apply Forall_app. split; [assumption |].
      constructor; [| constructor]. cbn [fst].
      split; now apply filter_in_force. }
    destruct (Py.len (results ++ [(doc, score)]) >=? k);
      [now injection Hrun as <- | eapply IH; eassumption].
Qed.

(** The fillers that end the answer of the index stop the loop. *)
Lemma scan_fillers : forall found m results,
    scan docs k filter_tags filter_audience
      (found ++ repeat (Faiss.lowest, -1) m) results
    = scan docs k filter_tags filter_audience found results.
Proof.
  induction found as [|[score idx] rest IH]; intros m results.
  - destruct m; reflexivity.
  - cbn [app scan]. destruct (idx =? -1); [reflexivity |].
    destruct (Py.index (keys docs) idx) as [id|]; [| reflexivity].
    destruct (dict_get id docs) as [doc|]; [| reflexivity].
    rewrite !IH. reflexivity.
Qed.

Hypothesis keys_distinct : NoDup (keys docs).
Hypothesis keys_are_ids : Forall (fun kv => doc_id (snd kv) = fst kv) docs.

Lemma dict_get_id : forall id doc, dict_get id docs = Some doc -> doc_id doc = id.
Proof.
  clear keys_distinct. induction docs as [|[k' v'] d IH]; intros id doc H;
    [discriminate |].
  inversion keys_are_ids as [|? ? Hhead Htail]; subst.
  cbn [dict_get] in H. destruct (Py.str_eqb k' id) eqn:E.
  - injection H as <-. apply str_eqb_eq in E. now subst.
  - now apply IH.
Qed.

(** What the two lookups of the loop find at a position inside the
    dictionary. *)
Lemma lookup_hit : forall h,
    0 <= snd h < Z.of_nat (List.length docs) ->
    exists doc,
      Py.index (keys docs) (snd h) = Some (hit_key docs h)
      /\ dict_get (hit_key docs h) docs = Some doc
      /\ doc_id doc = hit_key docs h.
Proof.
  intros h Hr. unfold hit_key.
  assert (Hlt : (Z.to_nat (snd h) < List.length (keys docs))%nat).
  { unfold keys. rewrite length_map. lia. }
  assert (Hi : Py.index (keys docs) (snd h)
               = Some (nth (Z.to_nat (snd h)) (keys docs) [])).
  { unfold Py.index. destruct (snd h <? 0) eqn:E; [apply Z.ltb_lt in E; lia |].
    rewrite E. now apply nth_error_nth'. }
  destruct (dict_get_in_keys docs (nth (Z.to_nat (snd h)) (keys docs) []))
    as [doc Hdoc]; [now apply nth_In |].
  exists doc. repeat split; try assumption. now apply dict_get_id.
Qed.

(** On proper hits the loop returns, and no identifier comes twice. *)
Lemma scan_sound : forall hits results,
    Forall (fun h => 0 <= snd h < Z.of_nat (List.length docs)) hits ->
    NoDup (map (fun r : scored_doc => doc_id (fst r)) results
           ++ map (hit_key docs) hits) ->
    exists out,
      scan docs k filter_tags filter_audience hits results = Ok out
      /\ NoDup (map (fun r : scored_doc => doc_id (fst r)) out).
Proof.
  induction hits as [|[score idx] rest IH]; intros results Hr Hnd.
  - exists results. split; [reflexivity |]. now rewrite app_nil_r in Hnd.
  - inversion Hr as [|? ? Hhead Htail]; subst. cbn [snd] in Hhead.
    cbn [scan].
    destruct (idx =? -1) eqn:E; [apply Z.eqb_eq in E; lia |].
    destruct (lookup_hit (score, idx) Hhead) as (doc & Hi & Hg & Hid).
    cbn [snd] in Hi. rewrite Hi, Hg. cbn [map] in Hnd.
    assert (Hskip : NoDup (map (fun r : scored_doc => doc_id (fst r)) results
                           ++ map (hit_key docs) rest))
      by now apply NoDup_remove_1 in Hnd.
    assert (Hkeep : NoDup (map (fun r : scored_doc => doc_id (fst r))
                             (results ++ [(doc, score)])
                           ++ map (hit_key docs) rest)).
    { rewrite map_app, <- app_assoc. cbn [map app fst]. now rewrite Hid. }
    destruct (Py.truthy filter_tags && _); [now apply IH |].
    destruct (Py.truthy filter_audience && _); [now apply IH |].
    destruct (Py.len (results ++ [(doc, score)]) >=? k); [| now apply IH].
    eexists. split; [reflexivity |]. now apply NoDup_app_remove_r in Hkeep.
Qed.

(** Distinct positions inside the dictionary lead to distinct keys. *)
Lemma hit_keys_distinct : forall hits,
    proper_hits (List.length docs) hits -> NoDup (map (hit_key docs) hits).
Proof.
  intros hits [Hnd Hr].
  change (map (hit_key docs) hits)
    with (map (fun h => nth (Z.to_nat (snd h)) (keys docs) []) hits).
  rewrite <- (map_map snd (fun p => nth (Z.to_nat p) (keys docs) [])).
  apply Injective_map_NoDup_in; [| assumption].
  intros p p' Hp Hp' E.
  apply in_map_iff in Hp. destruct Hp as (h & <- & Hh).
  apply in_map_iff in Hp'. destruct Hp' as (h' & <- & Hh').
  rewrite Forall_forall in Hr.
  pose proof (Hr h Hh) as R. pose proof (Hr h' Hh') as R'.
  assert (Z.to_nat (snd h) = Z.to_nat (snd h')); [| lia].
  apply (proj1 (NoDup_nth (keys docs) []) keys_distinct);
    unfold keys; rewrite ?length_map; try lia. exact E.
Qed.

End ScanFacts.

Section SearchFacts.

Variable encode : Py.str -> Faiss.vec.
Variable cfg : Settings.

Lemma search_empty : forall st query arg ft fa,
    index st = None \/ documents st = [] ->
    search encode cfg st query arg ft fa = Ok [].
Proof.
  intros st query arg ft fa H. unfold search.
  destruct (index st) as [xb|]; [| reflexivity].
  destruct H as [H | H]; [discriminate |]. now rewrite H.
Qed.

Lemma documents_len_pos : forall st,
    documents st <> [] -> 1 <= Py.len (documents st).
Proof.
  intros st H. unfold Py.len. destruct (documents st); [contradiction |].
  cbn [List.length]. lia.
Qed.

(** On a store that holds documents, a request for no result or for a
    negative number of results fails in the index. *)
Lemma search_nonpositive : forall st query arg ft fa,
    index st <> None -> documents st <> [] ->
    or_default arg (top_k cfg) <= 0 ->
    search encode cfg st query arg ft fa = Raise AssertionError.
Proof.
  intros st query arg ft fa Hi Hd Hk. unfold search.
  destruct (index st) as [xb|]; [| contradiction].
  pose proof (documents_len_pos st Hd) as Hlen.
  destruct (Py.len (documents st) =? 0) eqn:E; [apply Z.eqb_eq in E; lia |].
  destruct (faiss_search_cases xb (encode_query encode query)
              (Z.min (or_default arg (top_k cfg) * 2) (Py.len (documents st))))
    as [Hnone _].
  rewrite Hnone by lia. reflexivity.
Qed.

(** On a store built by [add_documents], a request for a positive
    number of results returns, and no identifier comes twice. *)
Lemma search_sound : forall st query arg ft fa,
    store_ok st ->
    1 <= or_default arg (top_k cfg) ->
    exists res,
      search encode cfg st query arg ft fa = Ok res
      /\ NoDup (map (fun r : scored_doc => doc_id (fst r)) res).
Proof.
  intros st query arg ft fa (Hnd & Hid & Hlen) Hk. unfold search.
  destruct (index st) as [xb|]; [| exists []; split; [reflexivity | constructor]].
  destruct (Py.len (documents st) =? 0) eqn:E;
    [exists []; split; [reflexivity | constructor] |].
  apply Z.eqb_neq in E. pose proof (len_nonneg _ (documents st)) as Hpos.
  destruct (faiss_search_cases xb (encode_query encode query)
              (Z.min (or_default arg (top_k cfg) * 2) (Py.len (documents st))))
    as [_ Hsome].
  destruct Hsome as (found & m & Hsearch & Hproper); [lia |].
  rewrite Hsearch, scan_fillers. rewrite Hlen in Hproper.
  apply scan_sound; try assumption.
  - apply Hproper.
  - cbn [map app]. now apply hit_keys_distinct.
Qed.

(** C7. Every document that [search] returns passes the filters in
    force: with a [filter_tags] list that is not empty it has a tag in
    the list, and with a [filter_audience] list that is not empty it
    has an audience type in the list. *)
Theorem search_results_pass_filters :
  forall st query arg filter_tags filter_audience res,
    search encode cfg st query arg filter_tags filter_audience = Ok res ->
    forall doc score, In (doc, score) res ->
      (forall wanted, filter_tags = Some wanted -> wanted <> [] ->
                      exists t, In t wanted /\ In t (tags doc))
      /\ (forall wanted, filter_audience = Some wanted -> wanted <> [] ->
                         exists a, In a wanted /\ In a (audience doc)).
Proof.
  intros st query arg ft fa res Hrun doc score Hin.
  assert (Hall : Forall (fun r : scored_doc =>
                           shares ft (tags (fst r))
                           /\ shares fa (audience (fst r))) res).
  { unfold search in Hrun.
    destruct (index st) as [xb|]; [| injection Hrun as <-; constructor].
    destruct (Py.len (documents st) =? 0); [injection Hrun as <-; constructor |].
    destruct (Faiss.search _ _ _) as [hits|]; [| discriminate].
    eapply scan_filtered; [eassumption | constructor]. }
  rewrite Forall_forall in Hall. apply (Hall (doc, score) Hin).
Qed.

End SearchFacts.

Lemma search_filter_example :
  exists t, In t [Py.u "history"] /\ In t (tags Examples.d2).
Proof.
  destruct (search_results_pass_filters Examples.toy_encode (Examples.cfg_k 3)
              Examples.store3 (Py.u "q") (Some 3)
              (Some [Py.u "history"]) None
              [(Examples.d2, (192 # 1)%Q)] eq_refl
              Examples.d2 (192 # 1)%Q (or_introl eq_refl)) as [H _].
  apply (H [Py.u "history"] eq_refl). discriminate.
Defined.

(** ** The search step: slices of the result lists *)

Lemma take_nil : forall (A : Type) k, Py.take (@nil A) k = [].
Proof.
  intros A k. unfold Py.take, Py.slice. rewrite skipn_nil. apply firstn_nil.
Qed.

Lemma take_len_le : forall (A : Type) (l : list A) k,
    0 <= k -> Py.len (Py.take l k) <= k.
Proof.
  intros A l k Hk. unfold Py.take.
  pose proof (slice_len_le A l 0 k Hk). lia.
Qed.

Lemma take_all : forall (A : Type) (l : list A) k,
    Py.len l <= k -> Py.take l k = l.
Proof.
  intros A l k Hk. unfold Py.take.
  pose proof (len_nonneg A l) as Hl.
  rewrite slice_inside by lia.
  replace (Z.min k (Py.len l) - 0) with (Py.len l) by lia.
  cbn [Z.to_nat skipn]. unfold Py.len. rewrite Nat2Z.id. apply firstn_all.
Qed.

Lemma take_same_length : forall (A B : Type) (l : list A) (m : list B) k,
    List.length l = List.length m ->
    Py.len (Py.take l k) = Py.len (Py.take m k).
Proof.
  intros A B l m k H. unfold Py.take, Py.slice, Py.len.
  rewrite !length_firstn, !length_skipn, H. reflexivity.
Qed.

Lemma merge_same_length : forall existing k fallback docs scores,
    List.length docs = List.length scores ->
    List.length (fst (Pipeline.merge existing k fallback docs scores))
    = List.length (snd (Pipeline.merge existing k fallback docs scores)).
Proof.
  intros existing k. induction fallback as [|[doc score] rest IH];
    intros docs scores H; [exact H |].
  cbn [Pipeline.merge].
  destruct (negb (Py.contains (doc_id doc) existing)); [| now apply IH].
  destruct (Py.len (docs ++ [doc]) >=? k).
  - cbn [fst snd]. rewrite !length_app, H. reflexivity.
  - apply IH. rewrite !length_app, H. reflexivity.
Qed.

Lemma or_default_same : forall k, or_default (Some k) k = k.
Proof.
  intros k. unfold or_default. destruct (k =? 0); reflexivity.
Qed.

Lemma or_default_double : forall k, 1 <= k -> or_default (Some (k * 2)) k = k * 2.
Proof.
  intros k Hk. unfold or_default.
  destruct (k * 2 =? 0) eqn:E; [apply Z.eqb_eq in E; lia | reflexivity].
Qed.

(** ** The search step: the bound on the number of results *)

(** On a store that holds documents, [top_k = -1] makes the step fail:
    no list, empty or not, is returned. *)
Lemma recommend_negative_top_k_raises :
  index Examples.store3 <> None
  /\ documents Examples.store3 <> []
  /\ Pipeline.execute Examples.toy_encode (Examples.cfg_k (-1))
       Examples.store3 Examples.no_entities = Raise AssertionError
  /\ forall out,
       Pipeline.execute Examples.toy_encode (Examples.cfg_k (-1))
         Examples.store3 Examples.no_entities <> Ok out.
Proof.
  split; [discriminate | split; [discriminate |]].
  assert (H : Pipeline.execute Examples.toy_encode (Examples.cfg_k (-1))
                Examples.store3 Examples.no_entities = Raise AssertionError)
    by (vm_compute; reflexivity).
  split; [exact H |]. intros out. rewrite H. discriminate.
Qed.

Section StepBound.

Variable encode : Py.str -> Faiss.vec.

(** C1, as the code has it. When the index holds no documents, the
    step returns the empty list for every [top_k], without error. On a
    store built by [add_documents], for every [top_k >= 1] the step
    returns without error a list of at most [top_k] documents, with as
    many scores. For [top_k <= 0] on a store that holds documents the
    step returns no list: the index is asked for a number of neighbours
    that is not positive and the call raises. *)
Theorem recommend_top_k_bound :
  forall (cfg : Settings) (st : VectorStore) (e : Pipeline.Entities),
    ((index st = None \/ documents st = []) ->
     exists out,
       Pipeline.execute encode cfg st e = Ok out
       /\ Pipeline.search_results out = []
       /\ Pipeline.similarity_scores out = [])
    /\ (store_ok st -> 1 <= top_k cfg ->
        exists out,
          Pipeline.execute encode cfg st e = Ok out
          /\ Py.len (Pipeline.search_results out) <= top_k cfg
          /\ Py.len (Pipeline.similarity_scores out)
             = Py.len (Pipeline.search_results out))
    /\ (top_k cfg <= 0 -> index st <> None -> documents st <> [] ->
        Pipeline.execute encode cfg st e = Raise AssertionError).
Proof.
  intros cfg st e. split; [| split].
  - intros Hempty. unfold Pipeline.execute, Pipeline.run.
    rewrite (search_empty encode cfg st _ _ _ _ Hempty).
    cbn [map]. destruct (Py.len [] <? top_k cfg).
    + rewrite (search_empty encode cfg st _ _ _ _ Hempty).
      cbn [Pipeline.merge]. eexists. split; [reflexivity |].
      cbn [Pipeline.search_results Pipeline.similarity_scores].
      now rewrite !take_nil.
    + eexists. split; [reflexivity |].
      cbn [Pipeline.search_results Pipeline.similarity_scores].
      now rewrite !take_nil.
  - intros Hok Hk. unfold Pipeline.execute, Pipeline.run.
    destruct (search_sound encode cfg st
                (Pipeline.rq_query (Pipeline.primary_request cfg e))
                (Pipeline.rq_top_k (Pipeline.primary_request cfg e))
                (Pipeline.rq_filter_tags (Pipeline.primary_request cfg e))
                (Pipeline.rq_filter_audience (Pipeline.primary_request cfg e))
                Hok) as (primary & Hp & _).
    { cbn [Pipeline.primary_request Pipeline.rq_top_k].
      rewrite or_default_same. exact Hk. }
    rewrite Hp.
    destruct (Py.len (map fst primary) <? top_k cfg).
    + destruct (search_sound encode cfg st
                  (Pipeline.rq_query (Pipeline.fallback_request cfg e))
                  (Pipeline.rq_top_k (Pipeline.fallback_request cfg e))
                  (Pipeline.rq_filter_tags (Pipeline.fallback_request cfg e))
                  (Pipeline.rq_filter_audience (Pipeline.fallback_request cfg e))
                  Hok) as (fallback & Hf & _).
      { cbn [Pipeline.fallback_request Pipeline.rq_top_k].
        rewrite or_default_double by exact Hk. lia. }
      rewrite Hf.
      pose proof (merge_same_length (map doc_id (map fst primary)) (top_k cfg)
                    fallback (map fst primary) (map snd primary)) as Hlen.
      destruct (Pipeline.merge _ _ fallback _ _) as [docs' scores'].
      cbn [fst snd] in Hlen.
      eexists. split; [reflexivity |].
      cbn [Pipeline.search_results Pipeline.similarity_scores]. split.
      * apply take_len_le. lia.
      * apply take_same_length. symmetry. apply Hlen.
        now rewrite !length_map.
    + eexists. split; [reflexivity |].
      cbn [Pipeline.search_results Pipeline.similarity_scores]. split.
      * apply take_len_le. lia.
      * apply take_same_length. now rewrite !length_map.
  - intros Hk Hi Hd. unfold Pipeline.execute, Pipeline.run.
    rewrite search_nonpositive; try assumption; [reflexivity |].
    cbn [Pipeline.primary_request Pipeline.rq_top_k].
    now rewrite or_default_same.
Qed.

End StepBound.

Lemma store3_ok : store_ok Examples.store3.
Proof.
  repeat split.
  - nodup_concrete.
  - repeat constructor.
Qed.

Lemma recommend_top_k_bound_example :
  exists out,
    Pipeline.execute Examples.toy_encode (Examples.cfg_k 2)
      Examples.store3 Examples.history_fan = Ok out
    /\ Py.len (Pipeline.search_results out) <= 2
    /\ Py.len (Pipeline.similarity_scores out)
       = Py.len (Pipeline.search_results out).
Proof.
  destruct (recommend_top_k_bound Examples.toy_encode (Examples.cfg_k 2)
              Examples.store3 Examples.history_fan) as (_ & H & _).
  apply H.
  - exact store3_ok.
  - cbn. lia.
Defined.

(** ** The search step: the fallback *)

Lemma merge_closed : forall existing k fallback docs scores,
    Py.len docs < k ->
    Pipeline.merge existing k fallback docs scores
    = (docs ++ firstn (Z.to_nat (k - Py.len docs))
                 (map fst (fresh existing fallback)),
       scores ++ firstn (Z.to_nat (k - Py.len docs))
                   (map penalised (fresh existing fallback))).
Proof.
  intros existing k. induction fallback as [|[doc score] rest IH];
    intros docs scores Hlt.
  - cbn. now rewrite !firstn_nil, !app_nil_r.
  - cbn [Pipeline.merge fresh filter fst].
    destruct (negb (Py.contains (doc_id doc) existing)) eqn:E.
    + fold (fresh existing rest). cbn [map fst].
      replace (Z.to_nat (k - Py.len docs))
        with (S (Z.to_nat (k - Py.len docs - 1))) by lia.
      cbn [firstn]. rewrite len_app. change (Py.len [doc]) with 1.
      destruct (Py.len docs + 1 >=? k) eqn:G.
      * apply Z.geb_le in G.
        replace (Z.to_nat (k - Py.len docs - 1)) with O by lia.
        reflexivity.
      * assert (Hlt' : Py.len (docs ++ [doc]) < k).
        { rewrite len_app. change (Py.len [doc]) with 1.
          destruct (Z_lt_le_dec (Py.len docs + 1) k) as [L | L]; [exact L |].
          apply Z.geb_le in L. rewrite L in G. discriminate. }
        rewrite (IH _ _ Hlt'). rewrite len_app. change (Py.len [doc]) with 1.
        rewrite <- !app_assoc. cbn [app].
        replace (k - (Py.len docs + 1)) with (k - Py.len docs - 1) by lia.
        reflexivity.
    + fold (fresh existing rest). now apply IH.
Qed.

Lemma NoDup_map_filter : forall (A B : Type) (f : A -> B) (p : A -> bool) l,
    NoDup (map f l) -> NoDup (map f (filter p l)).
Proof.
  intros A B f p. induction l as [|x l IH]; intros H; [constructor |].
  cbn [map] in H. inversion H as [|? ? Hx Hl]; subst.
  cbn [filter]. destruct (p x); [| now apply IH].
  cbn [map]. constructor; [| now apply IH].
  intros Hin. apply Hx. apply in_map_iff in Hin.
  destruct Hin as (y & E & Hy). apply filter_In in Hy.
  apply in_map_iff. exists y. tauto.
Qed.

Lemma fresh_not_existing : forall existing fallback r,
    In r (fresh existing fallback) -> ~ In (doc_id (fst r)) existing.
Proof.
  intros existing fallback r H. unfold fresh in H. apply filter_In in H.
  destruct H as [_ H]. apply negb_true_iff in H. intros Hin.
  apply contains_In in Hin. congruence.
Qed.

(** With [top_k = 2] and one document passing the tag filter, the second
    search is issued for 4 results, twice [top_k], not for [top_k]. *)
Lemma fallback_asks_for_twice_top_k :
  exists primary out,
    Pipeline.run Examples.toy_encode (Examples.cfg_k 2) Examples.store3
      (Pipeline.primary_request (Examples.cfg_k 2) Examples.history_fan)
    = Ok primary
    /\ Py.len primary < top_k (Examples.cfg_k 2)
    /\ Pipeline.execute Examples.toy_encode (Examples.cfg_k 2)
         Examples.store3 Examples.history_fan = Ok out
    /\ map Pipeline.rq_top_k (Pipeline.search_calls out) = [Some 2; Some 4]
    /\ nth 1 (map Pipeline.rq_top_k (Pipeline.search_calls out)) None
       <> Some (top_k (Examples.cfg_k 2)).
Proof.
  eexists [(Examples.d2, (336 # 1)%Q)], _.
  split; [vm_compute; reflexivity |].
  split; [reflexivity |].
  split; [vm_compute; reflexivity |].
  split; [reflexivity | discriminate].
Qed.

Section StepFallback.

Variable encode : Py.str -> Faiss.vec.

(** C2, as the code has it. Whenever the filtered search returns fewer
    than [top_k] documents, the step issues a second search with the
    same query and no filter, asking for [2 * top_k] results. It
    appends, in order, the fallback results whose identifier is not
    among the filtered ones, each with its score multiplied by 0.9, and
    stops at [top_k] documents in total or when the fallback results
    are used up. No identifier comes twice in the final result. *)
Theorem fallback_merge :
  forall (cfg : Settings) (st : VectorStore) (e : Pipeline.Entities)
         (primary : list scored_doc),
    store_ok st ->
    Pipeline.run encode cfg st (Pipeline.primary_request cfg e) = Ok primary ->
    Py.len primary < top_k cfg ->
    exists fallback,
      Pipeline.run encode cfg st (Pipeline.fallback_request cfg e) = Ok fallback
      /\ Pipeline.fallback_request cfg e
         = {| Pipeline.rq_query :=
                Pipeline.rq_query (Pipeline.primary_request cfg e);
              Pipeline.rq_top_k := Some (2 * top_k cfg);
              Pipeline.rq_filter_tags := None;
              Pipeline.rq_filter_audience := None |}
      /\ Pipeline.execute encode cfg st e
         = Ok {| Pipeline.search_results :=
                   map fst primary
                   ++ map fst (fallback_added (top_k cfg) primary fallback);
                 Pipeline.similarity_scores :=
                   map snd primary
                   ++ map penalised (fallback_added (top_k cfg) primary fallback);
                 Pipeline.search_query := Pipeline._build_search_query e;
                 Pipeline.search_calls :=
                   [Pipeline.primary_request cfg e;
                    Pipeline.fallback_request cfg e] |}
      /\ (forall r, In r (fallback_added (top_k cfg) primary fallback) ->
                    In r fallback
                    /\ ~ In (doc_id (fst r)) (map doc_id (map fst primary)))
      /\ Py.len (map fst primary
                 ++ map fst (fallback_added (top_k cfg) primary fallback))
         = Z.min (top_k cfg)
             (Py.len primary
              + Py.len (fresh (map doc_id (map fst primary)) fallback))
      /\ NoDup (map doc_id
                  (map fst primary
                   ++ map fst (fallback_added (top_k cfg) primary fallback))).
Proof.
  intros cfg st e primary Hok Hp Hlt.
  pose proof (len_nonneg _ primary) as Hpos.
  destruct (search_sound encode cfg st
              (Pipeline.rq_query (Pipeline.fallback_request cfg e))
              (Pipeline.rq_top_k (Pipeline.fallback_request cfg e))
              (Pipeline.rq_filter_tags (Pipeline.fallback_request cfg e))
              (Pipeline.rq_filter_audience (Pipeline.fallback_request cfg e))
              Hok) as (fallback & Hf & Hfnd).
  { cbn [Pipeline.fallback_request Pipeline.rq_top_k].
    rewrite or_default_double by lia. lia. }
  destruct (search_sound encode cfg st
              (Pipeline.rq_query (Pipeline.primary_request cfg e))
              (Pipeline.rq_top_k (Pipeline.primary_request cfg e))
              (Pipeline.rq_filter_tags (Pipeline.primary_request cfg e))
              (Pipeline.rq_filter_audience (Pipeline.primary_request cfg e))
              Hok) as (primary' & Hp' & Hpnd).
  { cbn [Pipeline.primary_request Pipeline.rq_top_k].
    rewrite or_default_same. lia. }
  unfold Pipeline.run in Hp. rewrite Hp in Hp'. injection Hp' as <-.
  assert (Hlen1 : Py.len (map fst primary) = Py.len primary)
    by (unfold Py.len; now rewrite length_map).
  set (added := fallback_added (top_k cfg) primary fallback).
  assert (Hadded : List.length added
                   = Nat.min (Z.to_nat (top_k cfg - Py.len primary))
                       (List.length (fresh (map doc_id (map fst primary)) fallback))).
  { subst added. unfold fallback_added. apply length_firstn. }
  assert (Htotal : Py.len (map fst primary ++ map fst added)
                   = Z.min (top_k cfg)
                       (Py.len primary
                        + Py.len (fresh (map doc_id (map fst primary)) fallback))).
  { rewrite len_app, Hlen1.
    replace (Py.len (map fst added)) with (Z.of_nat (List.length added))
      by (unfold Py.len; now rewrite length_map).
    rewrite Hadded. unfold Py.len in *. lia. }
  exists fallback. split; [exact Hf |].
  split; [unfold Pipeline.fallback_request, Pipeline.primary_request;
          cbn [Pipeline.rq_query];
          replace (top_k cfg * 2) with (2 * top_k cfg) by lia; reflexivity |].
  split; [| split; [| split]].
  - unfold Pipeline.execute. unfold Pipeline.run in Hf. unfold Pipeline.run.
    rewrite Hp.
    assert (Ecmp : (Py.len (map fst primary) <? top_k cfg) = true)
      by (apply Z.ltb_lt; lia).
    rewrite Ecmp, Hf.
    rewrite merge_closed by lia.
    rewrite Hlen1, !firstn_map.
    fold (fallback_added (top_k cfg) primary fallback). fold added.
    rewrite !take_all; [reflexivity | |].
    + rewrite len_app. unfold Py.len, scored_doc in *.
      rewrite !length_map, Hadded. lia.
    + etransitivity; [apply Z.eq_le_incl; exact Htotal | lia].
  - intros r Hr. subst added. unfold fallback_added in Hr.
    apply In_firstn_keep in Hr. split.
    + unfold fresh in Hr. now apply filter_In in Hr.
    + now apply fresh_not_existing in Hr.
  - exact Htotal.
  - rewrite map_app. apply NoDup_app.
    + now rewrite map_map.
    + subst added. unfold fallback_added.
      rewrite map_map, <- firstn_map. apply NoDup_firstn_keep.
      unfold fresh. now apply NoDup_map_filter.
    + intros id Hid Hin. rewrite map_map in Hin. apply in_map_iff in Hin.
      destruct Hin as (r & <- & Hr). subst added. unfold fallback_added in Hr.
      apply In_firstn_keep, fresh_not_existing in Hr. contradiction.
Qed.

End StepFallback.

Lemma fallback_merge_example :
  exists fallback,
    Pipeline.run Examples.toy_encode (Examples.cfg_k 2) Examples.store3
      (Pipeline.fallback_request (Examples.cfg_k 2) Examples.history_fan)
    = Ok fallback
    /\ NoDup (map doc_id
                (map fst [(Examples.d2, (336 # 1)%Q)]
                 ++ map fst (fallback_added 2 [(Examples.d2, (336 # 1)%Q)]
                               fallback))).
Proof.
  destruct (fallback_merge Examples.toy_encode (Examples.cfg_k 2)
              Examples.store3 Examples.history_fan
              [(Examples.d2, (336 # 1)%Q)])
    as (fallback & Hf & _ & _ & _ & _ & Hnd).
  - exact store3_ok.
  - vm_compute. reflexivity.
  - reflexivity.
  - exists fallback. split; [exact Hf | exact Hnd].
Defined.

(** ** End-to-end examples *)

(** An existing file with suffix ".CSV", format ['auto']: the expired
    document is dropped, the other one is stored and counted. *)
Lemma ingest_csv_example :
  exists st,
    Ingestion.ingest_data Examples.toy_encode 10 default_settings
      Examples.some_csv empty_store (Py.u "auto") = Some (st, Ok 1)
    /\ keys (documents st) = [Py.u "d1"]
    /\ List.length (saved st) = 1%nat.
Proof. eexists. repeat split. Qed.

(** Two documents with the same identifier leave one key and two
    vectors: the store is no longer as [store_ok] asks, and a search can
    hit a position that has no key. *)
Lemma duplicate_id_breaks_search :
  search Examples.toy_encode (Examples.cfg_k 1)
    (add_documents Examples.toy_encode [Examples.d1; Examples.d1_again] empty_store)
    (Py.u "q") None None None
  = Raise IndexError.
Proof. vm_compute. reflexivity. Qed.

(* ================================================================== *)
(** * Part III: the rest of the code *)
(* ================================================================== *)

(** ** The store: identifiers that come twice *)

Lemma keys_length : forall d : dict, List.length (keys d) = List.length d.
Proof. intros d. unfold keys. apply length_map. Qed.

Lemma dict_set_present : forall k v d,
    In k (keys d) ->
    keys (dict_set k v d) = keys d.
Proof.
  intros k v. induction d as [|[k' v'] d IH]; intros Hk; [destruct Hk |].
  cbn [dict_set]. destruct (Py.str_eqb k' k) eqn:E.
  - apply str_eqb_eq in E. now subst.
  - cbn [keys map fst]. f_equal. apply IH. destruct Hk as [Hk | Hk]; [| exact Hk].
    cbn [fst] in Hk. subst. rewrite str_eqb_refl in E. discriminate.
Qed.

Lemma str_list_in_dec : forall (k : Py.str) (l : list Py.str), {In k l} + {~ In k l}.
Proof. intros. apply in_dec. apply list_eq_dec. apply N.eq_dec. Qed.

(** Assigning the documents of a batch one by one never makes the
    dictionary longer than the batch is, and makes it exactly that much
    longer when no identifier is already there or comes twice. *)
Lemma fold_dict_set_length : forall docs d,
    NoDup (keys d) ->
    (List.length (fold_left (fun d doc => dict_set (doc_id doc) doc d) docs d)
     <= List.length d + List.length docs)%nat
    /\ (List.length (fold_left (fun d doc => dict_set (doc_id doc) doc d) docs d)
        = (List.length d + List.length docs)%nat
        <-> NoDup (keys d ++ map doc_id docs)).
Proof.
  induction docs as [|doc docs IH]; intros d Hnd.
  - cbn [fold_left map List.length]. rewrite app_nil_r. split; [lia |].
    split; [intros _; exact Hnd | intros _; lia].
  - cbn [fold_left map List.length].
    destruct (str_list_in_dec (doc_id doc) (keys d)) as [Hin | Hout].
    + assert (Hk : keys (dict_set (doc_id doc) doc d) = keys d)
        by now apply dict_set_present.
      assert (Hl : List.length (dict_set (doc_id doc) doc d) = List.length d)
        by now rewrite <- !keys_length, Hk.
      destruct (IH (dict_set (doc_id doc) doc d)) as [Hle _]; [now rewrite Hk |].
      rewrite Hl in Hle. split; [lia |]. split; [lia |].
      intros Hbad. apply NoDup_remove_2 in Hbad. exfalso. apply Hbad.
      apply in_or_app. now left.
    + rewrite (dict_set_fresh _ _ _ Hout).
      assert (Hnd' : NoDup (keys (d ++ [(doc_id doc, doc)]))).
      { rewrite keys_app. cbn [keys map fst]. apply NoDup_app; try assumption.
        - constructor; [intros [] | constructor].
        - intros a Ha [<- | []]. contradiction. }
      destruct (IH (d ++ [(doc_id doc, doc)]) Hnd') as [Hle Hiff].
      rewrite length_app in Hle, Hiff. cbn [List.length] in Hle, Hiff.
      rewrite keys_app in Hiff. cbn [keys map fst] in Hiff.
      rewrite <- app_assoc in Hiff. cbn [app] in Hiff.
      split; [lia |]. rewrite <- Hiff. split; lia.
Qed.

Lemma dict_set_keeps : forall k v d,
    NoDup (keys d) -> doc_id v = k ->
    Forall (fun kv => doc_id (snd kv) = fst kv) d ->
    NoDup (keys (dict_set k v d))
    /\ Forall (fun kv => doc_id (snd kv) = fst kv) (dict_set k v d).
Proof.
  intros k v d Hnd Hv Hid.
  destruct (str_list_in_dec k (keys d)) as [Hin | Hout].
  - split; [now rewrite dict_set_present |].
    clear Hnd. induction d as [|[k' v'] d IH]; [destruct Hin |].
    inversion Hid as [|? ? Hh Ht]; subst. cbn [dict_set].
    destruct (Py.str_eqb k' (doc_id v)) eqn:E.
    + constructor; [reflexivity | assumption].
    + constructor; [assumption |]. apply IH; [assumption |].
      destruct Hin as [Hin | Hin]; [| exact Hin].
      cbn [fst] in Hin. subst. rewrite str_eqb_refl in E. discriminate.
  - rewrite (dict_set_fresh _ _ _ Hout). split.
    + rewrite keys_app. cbn [keys map fst]. apply NoDup_app; try assumption.
      * constructor; [intros [] | constructor].
      * intros a Ha [<- | []]. contradiction.
    + apply Forall_app. split; [assumption |]. now constructor.
Qed.

Lemma fold_dict_set_keeps : forall docs d,
    NoDup (keys d) ->
    Forall (fun kv => doc_id (snd kv) = fst kv) d ->
    NoDup (keys (fold_left (fun d doc => dict_set (doc_id doc) doc d) docs d))
    /\ Forall (fun kv => doc_id (snd kv) = fst kv)
         (fold_left (fun d doc => dict_set (doc_id doc) doc d) docs d).
Proof.
  induction docs as [|doc docs IH]; intros d Hnd Hid; [now split |].
  cbn [fold_left].
  destruct (dict_set_keeps (doc_id doc) doc d Hnd eq_refl Hid) as [H1 H2].
  now apply IH.
Qed.

Section Duplicates.

Variable encode : Py.str -> Faiss.vec.

Lemma documents_add_documents : forall docs st,
    documents (add_documents encode docs st)
    = fold_left (fun d doc => dict_set (doc_id doc) doc d) docs (documents st).
Proof. intros [|doc docs] st; reflexivity. Qed.

Lemma ntotal_add_documents : forall docs st,
    ntotal (add_documents encode docs st) = (ntotal st + List.length docs)%nat.
Proof.
  intros [|doc docs] st.
  - cbn. lia.
  - unfold ntotal. cbn [add_documents _save_index index].
    rewrite length_app, length_map. destruct (index st); reflexivity.
Qed.

Lemma index_add_documents_none : forall docs st,
    index (add_documents encode docs st) = None -> docs = [] /\ index st = None.
Proof.
  intros [|doc docs] st H; [now split | discriminate].
Qed.

Lemma documents_add_all : forall batches st,
    documents (add_all encode batches st)
    = fold_left (fun d doc => dict_set (doc_id doc) doc d)
        (List.concat batches) (documents st).
Proof.
  induction batches as [|batch batches IH]; intros st; [reflexivity |].
  cbn [add_all fold_left List.concat]. rewrite fold_left_app.
  rewrite <- documents_add_documents. apply IH.
Qed.

Lemma ntotal_add_all : forall batches st,
    ntotal (add_all encode batches st)
    = (ntotal st + List.length (List.concat batches))%nat.
Proof.
  induction batches as [|batch batches IH]; intros st.
  - cbn. lia.
  - cbn [add_all fold_left List.concat]. rewrite length_app.
    change (fold_left (fun s b => add_documents encode b s) batches
              (add_documents encode batch st))
      with (add_all encode batches (add_documents encode batch st)).
    rewrite IH, ntotal_add_documents. lia.
Qed.

Lemma index_add_all_none : forall batches st,
    index (add_all encode batches st) = None -> List.concat batches = [].
Proof.
  intros batches st H. pose proof (ntotal_add_all batches st) as Hn.
  unfold ntotal in Hn at 1. rewrite H in Hn.
  apply length_zero_iff_nil. lia.
Qed.

(** Calls that all return, on a new store. *)
Lemma add_all_store_ok_iff :
  forall batches : list (list MuseumDocument),
    ntotal (add_all encode batches empty_store)
    = List.length (List.concat batches)
    /\ (List.length (documents (add_all encode batches empty_store))
        <= List.length (List.concat batches))%nat
    /\ (store_ok (add_all encode batches empty_store)
        <-> NoDup (map doc_id (List.concat batches))).
Proof.
  intros batches.
  pose proof (ntotal_add_all batches empty_store) as Hn.
  pose proof (documents_add_all batches empty_store) as Hd.
  cbn [documents empty_store] in Hd. change (ntotal empty_store) with O in Hn.
  cbn [Nat.add] in Hn.
  destruct (fold_dict_set_length (List.concat batches) []) as [Hle Hiff];
    [constructor |].
  destruct (fold_dict_set_keeps (List.concat batches) []) as [Hnd Hid];
    [constructor | constructor |].
  cbn [List.length Nat.add keys map app] in Hle, Hiff.
  rewrite <- Hd in Hle, Hiff, Hnd, Hid.
  split; [exact Hn | split; [exact Hle |]].
  unfold store_ok. split.
  - intros (_ & _ & Hlen).
    destruct (index (add_all encode batches empty_store)) as [xb|] eqn:Ei.
    + apply Hiff. unfold ntotal in Hn. rewrite Ei in Hn. lia.
    + apply index_add_all_none in Ei. rewrite Ei. constructor.
  - intros Hids. split; [exact Hnd | split; [exact Hid |]].
    apply Hiff in Hids.
    destruct (index (add_all encode batches empty_store)) as [xb|] eqn:Ei.
    + unfold ntotal in Hn. rewrite Ei in Hn. lia.
    + apply index_add_all_none in Ei. rewrite Ei in Hids. cbn in Hids.
      now apply length_zero_iff_nil.
Qed.

End Duplicates.

(** ** The store: what a lookup finds after a batch *)

Lemma str_eqb_neq_sym : forall a b, Py.str_eqb a b = false -> Py.str_eqb b a = false.
Proof.
  intros a b H. apply str_eqb_neq. intros ->.
  rewrite str_eqb_refl in H. discriminate.
Qed.

Lemma dict_get_set : forall k v d id,
    dict_get id (dict_set k v d)
    = if Py.str_eqb k id then Some v else dict_get id d.
Proof.
  intros k v. induction d as [|[k' v'] d IH]; intros id.
  - cbn [dict_set dict_get]. reflexivity.
  - cbn [dict_set]. destruct (Py.str_eqb k' k) eqn:E.
    + apply str_eqb_eq in E. subst k'. cbn [dict_get].
      destruct (Py.str_eqb k id); reflexivity.
    + cbn [dict_get]. destruct (Py.str_eqb k' id) eqn:E'.
      * apply str_eqb_eq in E'. subst id. now rewrite (str_eqb_neq_sym _ _ E).
      * apply IH.
Qed.

Lemma keys_dict_set_prefix : forall k v d,
    firstn (List.length d) (keys (dict_set k v d)) = keys d.
Proof.
  intros k v d. destruct (str_list_in_dec k (keys d)) as [Hin | Hout].
  - rewrite dict_set_present by assumption.
    rewrite <- keys_length. apply firstn_all.
  - rewrite dict_set_fresh by assumption. rewrite keys_app.
    rewrite <- keys_length. rewrite firstn_app, Nat.sub_diag, firstn_all.
    cbn. apply app_nil_r.
Qed.

Lemma dict_set_length_ge : forall k v d,
    (List.length d <= List.length (dict_set k v d))%nat.
Proof.
  intros k v. induction d as [|[k' v'] d IH]; cbn [dict_set List.length]; [lia |].
  destruct (Py.str_eqb k' k); cbn [List.length]; lia.
Qed.

Lemma fold_dict_set_prefix : forall docs d,
    firstn (List.length d)
      (keys (fold_left (fun d doc => dict_set (doc_id doc) doc d) docs d))
    = keys d.
Proof.
  induction docs as [|doc docs IH]; intros d.
  - cbn [fold_left]. rewrite <- keys_length. apply firstn_all.
  - cbn [fold_left].
    pose proof (IH (dict_set (doc_id doc) doc d)) as H.
    pose proof (dict_set_length_ge (doc_id doc) doc d) as Hge.
    rewrite <- (keys_dict_set_prefix (doc_id doc) doc d).
    rewrite <- H. rewrite firstn_firstn. f_equal. lia.
Qed.

Lemma find_last : forall (A : Type) (p : A -> bool) l x,
    find p (l ++ [x])
    = match find p l with
      | Some y => Some y
      | None => if p x then Some x else None
      end.
Proof.
  intros A p. induction l as [|a l IH]; intros x; cbn [app find].
  - reflexivity.
  - destruct (p a); [reflexivity | apply IH].
Qed.

Lemma fold_dict_set_get : forall docs d id,
    dict_get id (fold_left (fun d doc => dict_set (doc_id doc) doc d) docs d)
    = match last_with_id id docs with
      | Some doc => Some doc
      | None => dict_get id d
      end.
Proof.
  unfold last_with_id. induction docs as [|doc docs IH]; intros d id; [reflexivity |].
  cbn [fold_left rev]. rewrite IH, find_last, dict_get_set.
  destruct (find _ (rev docs)); [reflexivity |].
  destruct (Py.str_eqb (doc_id doc) id); reflexivity.
Qed.

(** X3. [add_documents] on any store: looking up an identifier of the
    batch gives the last document of the batch that carries it (a later
    document overwrites an earlier one); an identifier that is not in the
    batch is looked up as before; and the keys that were there keep their
    positions, new keys going after them. *)
Theorem add_documents_last_write_wins :
  forall (encode : Py.str -> Faiss.vec) (docs : list MuseumDocument)
         (st : VectorStore),
    (forall id,
        dict_get id (documents (add_documents encode docs st))
        = match last_with_id id docs with
          | Some doc => Some doc
          | None => dict_get id (documents st)
          end)
    /\ firstn (List.length (documents st))
         (keys (documents (add_documents encode docs st)))
       = keys (documents st).
Proof.
  intros encode docs st. rewrite documents_add_documents. split.
  - intros id. apply fold_dict_set_get.
  - apply fold_dict_set_prefix.
Qed.

(** ** [VectorStore.search] in closed form *)

Lemma doc_at_in_range : forall (docs : dict) (h : Faiss.hit),
    Forall (fun kv => doc_id (snd kv) = fst kv) docs ->
    0 <= snd h < Z.of_nat (List.length docs) ->
    exists doc,
      Py.index (keys docs) (snd h) = Some (hit_key docs h)
      /\ dict_get (hit_key docs h) docs = Some doc
      /\ doc_at docs (snd h) = Some doc
      /\ doc_id doc = hit_key docs h.
Proof.
  intros docs h Hid Hr.
  destruct (lookup_hit docs Hid h Hr) as (doc & Hi & Hg & Hd).
  exists doc. repeat split; try assumption.
  unfold doc_at. now rewrite Hi.
Qed.

(** The loop of [search] keeps, in order, the hits whose document passes
    the filters, until [k] results are there. *)
Lemma scan_closed : forall docs k filter_tags filter_audience,
    Forall (fun kv => doc_id (snd kv) = fst kv) docs ->
    forall hits results,
      Forall (fun h : Faiss.hit => 0 <= snd h < Z.of_nat (List.length docs)) hits ->
      Py.len results < k ->
      scan docs k filter_tags filter_audience hits results
      = Ok (results
            ++ firstn (Z.to_nat (k - Py.len results))
                 (filter (fun r => passes filter_tags filter_audience (fst r))
                    (candidates docs hits))).
Proof.
  intros docs k ft fa Hid. induction hits as [|[score idx] rest IH];
    intros results Hr Hlt.
  - cbn. now rewrite firstn_nil, app_nil_r.
  - inversion Hr as [|? ? Hhead Htail]; subst. cbn [snd] in Hhead.
    destruct (doc_at_in_range docs (score, idx) Hid Hhead)
      as (doc & Hi & Hg & Hat & _).
    cbn [snd] in Hi, Hat. cbn [scan candidates flat_map snd].
    destruct (idx =? -1) eqn:E; [apply Z.eqb_eq in E; lia |].
    rewrite Hi, Hg, Hat. cbn [fst app filter]. unfold passes at 1.
    destruct (Py.truthy ft && _) eqn:Et; cbn [negb andb].
    { fold (candidates docs rest). now apply IH. }
    destruct (Py.truthy fa && _) eqn:Ea; cbn [negb].
    { fold (candidates docs rest). now apply IH. }
    fold (candidates docs rest).
    rewrite len_app. change (Py.len [(doc, score)]) with 1.
    replace (Z.to_nat (k - Py.len results))
      with (S (Z.to_nat (k - Py.len results - 1))) by lia.
    cbn [firstn].
    destruct (Py.len results + 1 >=? k) eqn:G.
    + apply Z.geb_le in G.
      replace (Z.to_nat (k - Py.len results - 1)) with O by lia.
      reflexivity.
    + assert (Hlt' : Py.len (results ++ [(doc, score)]) < k).
      { rewrite len_app. change (Py.len [(doc, score)]) with 1.
        destruct (Z_lt_le_dec (Py.len results + 1) k) as [L | L]; [exact L |].
        apply Z.geb_le in L. rewrite L in G. discriminate. }
      rewrite (IH _ Htail Hlt'). rewrite len_app.
      change (Py.len [(doc, score)]) with 1.
      rewrite <- app_assoc. cbn [app].
      replace (k - (Py.len results + 1)) with (k - Py.len results - 1) by lia.
      reflexivity.
Qed.

Section SearchClosed.

Variable encode : Py.str -> Faiss.vec.
Variable cfg : Settings.

(** What [search] computes, in one expression. *)
Lemma search_closed :
  forall (st : VectorStore) (query : Py.str) (arg : option Z)
         (filter_tags filter_audience : option (list Py.str))
         (xb : list Faiss.vec),
    store_ok st ->
    index st = Some xb ->
    documents st <> [] ->
    1 <= or_default arg (top_k cfg) ->
    search encode cfg st query arg filter_tags filter_audience
    = Ok (firstn (Z.to_nat (or_default arg (top_k cfg)))
            (filter (fun r => passes filter_tags filter_audience (fst r))
               (candidates (documents st)
                  (firstn (Z.to_nat (Z.min (or_default arg (top_k cfg) * 2)
                                       (Py.len (documents st))))
                     (Faiss.ranked xb (encode_query encode query)))))).
Proof.
  intros st query arg ft fa xb (Hnd & Hid & Hlen) Hxb Hne Hk.
  unfold search. rewrite Hxb in *.
  pose proof (documents_len_pos st Hne) as Hpos.
  destruct (Py.len (documents st) =? 0) eqn:E; [apply Z.eqb_eq in E; lia |].
  unfold Faiss.search.
  destruct (Z.min (or_default arg (top_k cfg) * 2) (Py.len (documents st)) <=? 0)
    eqn:E0; [apply Z.leb_le in E0; lia |].
  rewrite scan_fillers.
  rewrite scan_closed; try assumption.
  - cbn [app]. change (Py.len (@nil scored_doc)) with 0.
    now rewrite Z.sub_0_r.
  - pose proof (ranked_proper xb (encode_query encode query)) as Hp.
    apply (proper_firstn _ (Z.to_nat (Z.min (or_default arg (top_k cfg) * 2)
                                        (Py.len (documents st))))) in Hp.
    rewrite Hlen in Hp. apply Hp.
  - change (Py.len (@nil scored_doc)) with 0. lia.
Qed.

End SearchClosed.

(** ** [VectorStore.search]: order, number and origin of the results *)

Lemma insert_hit_sorted : forall h l,
    StronglySorted hit_desc l -> StronglySorted hit_desc (Faiss.insert_hit h l).
Proof.
  intros h l Hs. induction Hs as [|g r Hr IH Hg].
  - cbn. constructor; constructor.
  - cbn [Faiss.insert_hit]. destruct (Qle_bool (fst g) (fst h)) eqn:E.
    + apply Qle_bool_iff in E. constructor; [now constructor |].
      constructor; [exact E |].
      apply Forall_forall. intros x Hx. rewrite Forall_forall in Hg.
      unfold hit_desc in *. eapply Qle_trans; [apply (Hg x Hx) | exact E].
    + constructor; [exact IH |].
      assert (Hlt : (fst h <= fst g)%Q).
      { apply Qlt_le_weak. apply Qnot_le_lt. intros Hle.
        apply Qle_bool_iff in Hle. congruence. }
      apply Forall_forall. intros x Hx.
      apply (Permutation_in _ (insert_hit_perm h r)) in Hx.
      destruct Hx as [<- | Hx]; [exact Hlt |].
      rewrite Forall_forall in Hg. now apply Hg.
Qed.

Lemma ranked_sorted : forall xb q, StronglySorted hit_desc (Faiss.ranked xb q).
Proof.
  intros xb q. unfold Faiss.ranked.
  induction (Faiss.scored xb q) as [|h l IH]; [constructor |].
  cbn [fold_right]. now apply insert_hit_sorted.
Qed.

Lemma ranked_length : forall xb q,
    List.length (Faiss.ranked xb q) = List.length xb.
Proof.
  intros xb q.
  transitivity (List.length (Faiss.scored xb q));
    [apply Permutation_length, ranked_perm |].
  transitivity (List.length (map snd (Faiss.scored xb q)));
    [symmetry; apply length_map |].
  rewrite positions_scored. unfold Faiss.positions.
  now rewrite length_map, length_seq.
Qed.

Lemma sorted_firstn : forall (A : Type) (R : A -> A -> Prop) n (l : list A),
    StronglySorted R l -> StronglySorted R (firstn n l).
Proof.
  intros A R n l Hs. revert n.
  induction Hs as [|a l Hl IH Ha]; intros [|n]; cbn [firstn]; try constructor.
  - apply IH.
  - now apply Forall_firstn_keep.
Qed.

Lemma sorted_filter : forall (A : Type) (R : A -> A -> Prop) (p : A -> bool)
                             (l : list A),
    StronglySorted R l -> StronglySorted R (filter p l).
Proof.
  intros A R p l Hs. induction Hs as [|a l Hl IH Ha]; cbn [filter]; [constructor |].
  destruct (p a); [| exact IH]. constructor; [exact IH |].
  apply Forall_forall. intros x Hx. apply filter_In in Hx.
  rewrite Forall_forall in Ha. now apply Ha.
Qed.

Lemma candidates_origin : forall docs hits r,
    In r (candidates docs hits) ->
    exists h, In h hits /\ doc_at docs (snd h) = Some (fst r) /\ snd r = fst h.
Proof.
  intros docs hits r H. unfold candidates in H. apply in_flat_map in H.
  destruct H as (h & Hh & Hr). exists h. split; [exact Hh |].
  destruct (doc_at docs (snd h)) as [doc|]; [| destruct Hr].
  destruct Hr as [<- | []]. now split.
Qed.

Lemma candidates_sorted : forall docs hits,
    StronglySorted hit_desc hits ->
    StronglySorted by_score_desc (candidates docs hits).
Proof.
  intros docs hits Hs. induction Hs as [|h l Hl IH Hh]; [constructor |].
  cbn [candidates flat_map]. fold (candidates docs l).
  destruct (doc_at docs (snd h)) as [doc|]; [| exact IH].
  cbn [app]. constructor; [exact IH |].
  apply Forall_forall. intros r Hr. apply candidates_origin in Hr.
  destruct Hr as (h' & Hh' & _ & Hscore). rewrite Forall_forall in Hh.
  unfold by_score_desc. cbn [snd]. rewrite Hscore. now apply Hh.
Qed.

(** With positions inside the dictionary every hit gives a candidate,
    with the score of the hit. *)
Lemma candidates_scores : forall docs hits,
    Forall (fun kv => doc_id (snd kv) = fst kv) docs ->
    Forall (fun h : Faiss.hit => 0 <= snd h < Z.of_nat (List.length docs)) hits ->
    map snd (candidates docs hits) = map fst hits.
Proof.
  intros docs hits Hid Hr. induction Hr as [|h l Hh Hl IH]; [reflexivity |].
  cbn [candidates flat_map]. fold (candidates docs l).
  destruct (doc_at_in_range docs h Hid Hh) as (doc & _ & _ & Hat & _).
  rewrite Hat. cbn [app map snd]. now rewrite IH.
Qed.

Lemma filter_all : forall (A : Type) (p : A -> bool) (l : list A),
    (forall x, p x = true) -> filter p l = l.
Proof.
  intros A p l H. induction l as [|x l IH]; [reflexivity |].
  cbn [filter]. now rewrite H, IH.
Qed.

Lemma firstn_past_length : forall (A : Type) (l : list A) k m,
    (List.length l <= m)%nat -> firstn k (firstn m l) = firstn k l.
Proof.
  intros A l k m H. now rewrite (firstn_all2 l H).
Qed.

Lemma documents_cases : forall st : VectorStore,
    documents st = [] \/ documents st <> [].
Proof. intros st. destruct (documents st); [now left | right; discriminate]. Qed.

Section SearchOrder.

Variable encode : Py.str -> Faiss.vec.
Variable cfg : Settings.

(** X5. On a store as [add_documents] leaves it when identifiers are
    distinct, a search for a positive number [k] of results returns at
    most [k] documents, in descending order of score. *)
Theorem search_results_ranked :
  forall (st : VectorStore) (query : Py.str) (arg : option Z)
         (filter_tags filter_audience : option (list Py.str)),
    store_ok st ->
    1 <= or_default arg (top_k cfg) ->
    exists res,
      search encode cfg st query arg filter_tags filter_audience = Ok res
      /\ Py.len res <= or_default arg (top_k cfg)
      /\ StronglySorted by_score_desc res.
Proof.
  intros st query arg ft fa Hok Hk.
  destruct (index st) as [xb|] eqn:Hxb.
  2:{ exists []. rewrite search_empty by now left.
      repeat split; [cbn; lia | constructor]. }
  destruct (documents_cases st) as [Hd | Hne].
  { exists []. rewrite search_empty by now right.
    repeat split; [cbn; lia | constructor]. }
  eexists. split; [now apply (search_closed encode cfg st query arg ft fa xb) |].
  split.
  - unfold Py.len. rewrite length_firstn. lia.
  - apply sorted_firstn, sorted_filter, candidates_sorted, sorted_firstn,
      ranked_sorted.
Qed.

(** X6. Without filters, a search for [k >= 1] results on such a store
    of [n] documents returns exactly [min(k, n)] documents, and their
    scores are the [k] best inner products of the index, best first. *)
Theorem search_unfiltered_top_k :
  forall (st : VectorStore) (query : Py.str) (arg : option Z),
    store_ok st ->
    1 <= or_default arg (top_k cfg) ->
    exists res,
      search encode cfg st query arg None None = Ok res
      /\ Py.len res = Z.min (or_default arg (top_k cfg)) (Py.len (documents st))
      /\ forall xb, index st = Some xb ->
           map snd res
           = firstn (Z.to_nat (or_default arg (top_k cfg)))
               (map fst (Faiss.ranked xb (encode_query encode query))).
Proof.
  intros st query arg Hok Hk.
  destruct (index st) as [xb|] eqn:Hxb.
  2:{ exists []. rewrite search_empty by now left.
      destruct Hok as (_ & _ & He). rewrite Hxb in He. rewrite He.
      repeat split; [cbn; lia | discriminate]. }
  pose proof Hok as (Hnd & Hid & Hlen). rewrite Hxb in Hlen.
  destruct (documents_cases st) as [Hd | Hne].
  { exists []. rewrite search_empty by now right. rewrite Hd in *.
    repeat split; [cbn; lia |]. intros xb' E. injection E as <-.
    destruct xb; [| discriminate]. cbn. now rewrite firstn_nil. }
  set (k := or_default arg (top_k cfg)) in *.
  set (q := encode_query encode query).
  set (m := Z.to_nat (Z.min (k * 2) (Py.len (documents st)))).
  assert (Hscores :
            map snd (firstn (Z.to_nat k)
                       (filter (fun r => passes None None (fst r))
                          (candidates (documents st) (firstn m (Faiss.ranked xb q)))))
            = firstn (Z.to_nat k) (map fst (Faiss.ranked xb q))).
  { rewrite filter_all by reflexivity.
    rewrite <- firstn_map, candidates_scores; try assumption.
    - rewrite <- firstn_map, firstn_firstn.
      destruct (Nat.le_ge_cases (Z.to_nat k) m) as [L | L].
      + now rewrite Nat.min_l.
      + rewrite Nat.min_r by assumption.
        assert (Hm : m = List.length (map fst (Faiss.ranked xb q))).
        { rewrite length_map, ranked_length, Hlen. subst m.
          unfold Py.len in *. lia. }
        rewrite Hm, firstn_all. symmetry. apply firstn_all2.
        etransitivity; [apply Nat.eq_le_incl; symmetry; exact Hm | exact L].
    - pose proof (ranked_proper xb q) as Hp.
      apply (proper_firstn _ m) in Hp. rewrite Hlen in Hp. apply Hp. }
  eexists. split; [now apply (search_closed encode cfg st query arg None None xb) |].
  fold k q m. split.
  - match goal with
    | |- Py.len ?r = _ =>
      assert (Hl : List.length r
                   = List.length (firstn (Z.to_nat k)
                                    (map fst (Faiss.ranked xb q))))
        by (rewrite <- Hscores; symmetry; apply length_map);
      transitivity (Z.of_nat (List.length (firstn (Z.to_nat k)
                                             (map fst (Faiss.ranked xb q)))));
      [unfold Py.len; f_equal; exact Hl |]
    end.
    rewrite length_firstn, length_map, ranked_length, Hlen.
    unfold Py.len. lia.
  - intros xb' E. injection E as <-. exact Hscores.
Qed.

(** X7. On such a store every document that [search] returns is the
    document stored under its own identifier, and no identifier comes
    twice in one result. *)
Theorem search_returns_stored_documents :
  forall (st : VectorStore) (query : Py.str) (arg : option Z)
         (filter_tags filter_audience : option (list Py.str)),
    store_ok st ->
    1 <= or_default arg (top_k cfg) ->
    exists res,
      search encode cfg st query arg filter_tags filter_audience = Ok res
      /\ NoDup (map (fun r : scored_doc => doc_id (fst r)) res)
      /\ forall doc score,
           In (doc, score) res ->
           dict_get (doc_id doc) (documents st) = Some doc.
Proof.
  intros st query arg ft fa Hok Hk.
  destruct (search_sound encode cfg st query arg ft fa Hok Hk) as (res & Hres & Hnd).
  exists res. split; [exact Hres | split; [exact Hnd |]].
  intros doc score Hin.
  destruct (index st) as [xb|] eqn:Hxb.
  2:{ rewrite search_empty in Hres by now left. injection Hres as <-. destruct Hin. }
  destruct (documents_cases st) as [Hd | Hne].
  { rewrite search_empty in Hres by now right. injection Hres as <-. destruct Hin. }
  rewrite (search_closed encode cfg st query arg ft fa xb Hok Hxb Hne Hk) in Hres.
  injection Hres as <-.
  apply In_firstn_keep in Hin. apply filter_In in Hin. destruct Hin as [Hin _].
  apply candidates_origin in Hin. destruct Hin as (h & _ & Hat & _).
  cbn [fst] in Hat. unfold doc_at in Hat.
  destruct (Py.index (keys (documents st)) (snd h)) as [id|]; [| discriminate].
  destruct Hok as (_ & Hid & _).
  pose proof (dict_get_id (documents st) Hid id doc Hat) as E.
  now rewrite E.
Qed.

End SearchOrder.

Lemma search_results_ranked_example :
  exists res,
    search Examples.toy_encode (Examples.cfg_k 2) Examples.store3 (Py.u "q")
      None None None = Ok res
    /\ Py.len res <= or_default None (top_k (Examples.cfg_k 2))
    /\ StronglySorted by_score_desc res.
Proof.
  apply (search_results_ranked Examples.toy_encode (Examples.cfg_k 2)
           Examples.store3 (Py.u "q") None None None).
  - exact store3_ok.
  - cbn. lia.
Defined.

Lemma search_unfiltered_top_k_example :
  exists res,
    search Examples.toy_encode (Examples.cfg_k 5) Examples.store3 (Py.u "q")
      None None None = Ok res
    /\ Py.len res
       = Z.min (or_default None (top_k (Examples.cfg_k 5)))
           (Py.len (documents Examples.store3))
    /\ forall xb, index Examples.store3 = Some xb ->
         map snd res
         = firstn (Z.to_nat (or_default None (top_k (Examples.cfg_k 5))))
             (map fst (Faiss.ranked xb
                         (encode_query Examples.toy_encode (Py.u "q")))).
Proof.
  apply (search_unfiltered_top_k Examples.toy_encode (Examples.cfg_k 5)
           Examples.store3 (Py.u "q") None).
  - exact store3_ok.
  - cbn. lia.
Defined.

Lemma search_returns_stored_documents_example :
  exists res,
    search Examples.toy_encode (Examples.cfg_k 2) Examples.store3 (Py.u "q")
      None (Some [Py.u "photo"]) None = Ok res
    /\ NoDup (map (fun r : scored_doc => doc_id (fst r)) res)
    /\ forall doc score,
         In (doc, score) res ->
         dict_get (doc_id doc) (documents Examples.store3) = Some doc.
Proof.
  apply (search_returns_stored_documents Examples.toy_encode (Examples.cfg_k 2)
           Examples.store3 (Py.u "q") None (Some [Py.u "photo"]) None).
  - exact store3_ok.
  - cbn. lia.
Defined.

(** ** The search step: when no fallback document is added *)

Section StepDirect.

Variable encode : Py.str -> Faiss.vec.
Variable cfg : Settings.

Lemma search_length_le : forall st query arg ft fa res,
    store_ok st -> 1 <= or_default arg (top_k cfg) ->
    search encode cfg st query arg ft fa = Ok res ->
    Py.len res <= or_default arg (top_k cfg).
Proof.
  intros st query arg ft fa res Hok Hk Hres.
  destruct (index st) as [xb|] eqn:Hxb.
  2:{ rewrite search_empty in Hres by now left. injection Hres as <-. cbn. lia. }
  destruct (documents_cases st) as [Hd | Hne].
  { rewrite search_empty in Hres by now right. injection Hres as <-. cbn. lia. }
  rewrite (search_closed encode cfg st query arg ft fa xb Hok Hxb Hne Hk) in Hres.
  injection Hres as <-. unfold Py.len. rewrite length_firstn. lia.
Qed.

Lemma candidates_length : forall docs hits,
    Forall (fun kv => doc_id (snd kv) = fst kv) docs ->
    Forall (fun h : Faiss.hit => 0 <= snd h < Z.of_nat (List.length docs)) hits ->
    List.length (candidates docs hits) = List.length hits.
Proof.
  intros docs hits Hid Hr.
  transitivity (List.length (map snd (candidates docs hits)));
    [symmetry; apply length_map |].
  rewrite candidates_scores by assumption. apply length_map.
Qed.

Lemma search_unfiltered_length : forall st query arg res,
    store_ok st -> 1 <= or_default arg (top_k cfg) ->
    search encode cfg st query arg None None = Ok res ->
    Py.len res = Z.min (or_default arg (top_k cfg)) (Py.len (documents st)).
Proof.
  intros st query arg res Hok Hk Hres.
  destruct (index st) as [xb|] eqn:Hxb.
  2:{ rewrite search_empty in Hres by now left. injection Hres as <-.
      destruct Hok as (_ & _ & He). rewrite Hxb in He. rewrite He. cbn. lia. }
  destruct (documents_cases st) as [Hd | Hne].
  { rewrite search_empty in Hres by now right. injection Hres as <-.
    rewrite Hd. cbn. lia. }
  rewrite (search_closed encode cfg st query arg None None xb Hok Hxb Hne Hk) in Hres.
  injection Hres as <-. destruct Hok as (_ & Hid & Hlen). rewrite Hxb in Hlen.
  rewrite filter_all by reflexivity.
  unfold Py.len at 1. rewrite length_firstn, candidates_length; try assumption.
  - rewrite length_firstn, ranked_length, Hlen. unfold Py.len. lia.
  - pose proof (ranked_proper xb (encode_query encode query)) as Hp.
    apply (proper_firstn _ (Z.to_nat (Z.min (or_default arg (top_k cfg) * 2)
                                        (Py.len (documents st))))) in Hp.
    rewrite Hlen in Hp. apply Hp.
Qed.

Lemma index_in_keys : forall (l : list Py.str) i id,
    Py.index l i = Some id -> In id l.
Proof.
  intros l i id H. unfold Py.index in H.
  destruct (_ <? 0); [discriminate |]. now apply nth_error_In in H.
Qed.

Lemma search_ids_in_keys : forall st query arg ft fa res,
    store_ok st -> 1 <= or_default arg (top_k cfg) ->
    search encode cfg st query arg ft fa = Ok res ->
    forall r, In r res -> In (doc_id (fst r)) (keys (documents st)).
Proof.
  intros st query arg ft fa res Hok Hk Hres r Hin.
  destruct (index st) as [xb|] eqn:Hxb.
  2:{ rewrite search_empty in Hres by now left. injection Hres as <-. destruct Hin. }
  destruct (documents_cases st) as [Hd | Hne].
  { rewrite search_empty in Hres by now right. injection Hres as <-. destruct Hin. }
  rewrite (search_closed encode cfg st query arg ft fa xb Hok Hxb Hne Hk) in Hres.
  injection Hres as <-.
  apply In_firstn_keep in Hin. apply filter_In in Hin. destruct Hin as [Hin _].
  apply candidates_origin in Hin. destruct Hin as (h & _ & Hat & _).
  unfold doc_at in Hat.
  destruct (Py.index (keys (documents st)) (snd h)) as [id|] eqn:Hi; [| discriminate].
  destruct Hok as (_ & Hid & _).
  rewrite (dict_get_id (documents st) Hid id (fst r) Hat).
  now apply index_in_keys in Hi.
Qed.

(** X8. On a store as [add_documents] leaves it when identifiers are
    distinct and for [top_k >= 1]: when the filtered search returns
    [top_k] documents, the step issues no second search and returns these
    documents with their scores as they are, none multiplied by 0.9. *)
Theorem execute_without_fallback :
  forall (st : VectorStore) (e : Pipeline.Entities) (primary : list scored_doc),
    store_ok st ->
    1 <= top_k cfg ->
    Pipeline.run encode cfg st (Pipeline.primary_request cfg e) = Ok primary ->
    top_k cfg <= Py.len primary ->
    Pipeline.execute encode cfg st e
    = Ok {| Pipeline.search_results := map fst primary;
            Pipeline.similarity_scores := map snd primary;
            Pipeline.search_query := Pipeline._build_search_query e;
            Pipeline.search_calls := [Pipeline.primary_request cfg e] |}.
Proof.
  intros st e primary Hok Hk Hp Hfull.
  assert (Hle : Py.len primary <= top_k cfg).
  { pose proof Hp as H. unfold Pipeline.run in H.
    apply search_length_le in H; try assumption;
      cbn [Pipeline.primary_request Pipeline.rq_top_k] in *;
      rewrite or_default_same in *; assumption. }
  unfold Pipeline.execute. rewrite Hp.
  assert (Hl1 : Py.len (map fst primary) = Py.len primary)
    by (unfold Py.len; now rewrite length_map).
  assert (Hl2 : Py.len (map snd primary) = Py.len primary)
    by (unfold Py.len; now rewrite length_map).
  destruct (Py.len (map fst primary) <? top_k cfg) eqn:E;
    [apply Z.ltb_lt in E; lia |].
  rewrite !take_all by lia. reflexivity.
Qed.

Lemma filter_none : forall (A : Type) (p : A -> bool) (l : list A),
    (forall x, In x l -> p x = false) -> filter p l = [].
Proof.
  intros A p. induction l as [|x l IH]; intros H; [reflexivity |].
  cbn [filter]. rewrite (H x) by now left.
  apply IH. intros y Hy. apply H. now right.
Qed.

(** X9. On such a store and for [top_k >= 1]: with no hobbies, no
    preferred styles and no companionship type, the step returns exactly
    what one unfiltered search for [top_k] results returns for its query,
    documents and scores; when the store holds fewer than [top_k]
    documents the second search only finds documents that are already
    there, and nothing is added or penalised. *)
Theorem recommend_without_preferences :
  forall (st : VectorStore) (e : Pipeline.Entities),
    store_ok st ->
    1 <= top_k cfg ->
    Pipeline.hobbies e = [] ->
    Pipeline.preferred_styles e = [] ->
    Pipeline._get_audience_filter (Pipeline.relationship e) = [] ->
    exists res out,
      search encode cfg st (Pipeline._build_search_query e)
        (Some (top_k cfg)) None None = Ok res
      /\ Pipeline.execute encode cfg st e = Ok out
      /\ Pipeline.search_results out = map fst res
      /\ Pipeline.similarity_scores out = map snd res
      /\ Py.len res = Z.min (top_k cfg) (Py.len (documents st)).
Proof.
  intros st e Hok Hk Hh Hs Ha.
  assert (Hrq : Pipeline.primary_request cfg e
                = {| Pipeline.rq_query := Pipeline._build_search_query e;
                     Pipeline.rq_top_k := Some (top_k cfg);
                     Pipeline.rq_filter_tags := None;
                     Pipeline.rq_filter_audience := None |}).
  { unfold Pipeline.primary_request. now rewrite Hh, Hs, Ha. }
  assert (Hk1 : 1 <= or_default (Some (top_k cfg)) (top_k cfg))
    by now rewrite or_default_same.
  assert (Hk2 : 1 <= or_default (Some (top_k cfg * 2)) (top_k cfg))
    by (rewrite or_default_double by exact Hk; lia).
  destruct (search_sound encode cfg st (Pipeline._build_search_query e)
              (Some (top_k cfg)) None None Hok Hk1) as (res & Hres & Hnd).
  pose proof (search_length_le st _ _ _ _ res Hok Hk1 Hres) as Hle.
  pose proof (search_unfiltered_length st _ _ res Hok Hk1 Hres) as Hlen.
  rewrite or_default_same in Hle, Hlen.
  assert (Hl1 : Py.len (map fst res) = Py.len res)
    by (unfold Py.len; now rewrite length_map).
  assert (Hl2 : Py.len (map snd res) = Py.len res)
    by (unfold Py.len; now rewrite length_map).
  assert (Hrun : Pipeline.run encode cfg st (Pipeline.primary_request cfg e) = Ok res).
  { rewrite Hrq. exact Hres. }
  unfold Pipeline.execute. rewrite Hrun.
  destruct (Py.len (map fst res) <? top_k cfg) eqn:E.
  - apply Z.ltb_lt in E.
    destruct (search_sound encode cfg st (Pipeline._build_search_query e)
                (Some (top_k cfg * 2)) None None Hok Hk2) as (res2 & Hres2 & _).
    assert (Hrun2 : Pipeline.run encode cfg st (Pipeline.fallback_request cfg e)
                    = Ok res2) by exact Hres2.
    rewrite Hrun2, merge_closed by lia.
    assert (Hcover : incl (keys (documents st))
                       (map (fun r : scored_doc => doc_id (fst r)) res)).
    { apply NoDup_length_incl; [exact Hnd | |].
      - rewrite length_map, keys_length. unfold Py.len in *. lia.
      - intros id Hid. apply in_map_iff in Hid. destruct Hid as (r & <- & Hr).
        now apply (search_ids_in_keys st _ _ _ _ res Hok Hk1 Hres). }
    assert (Hfresh : fresh (map doc_id (map fst res)) res2 = []).
    { unfold fresh. apply filter_none. intros r Hr.
      apply negb_false_iff, contains_In. rewrite map_map. apply Hcover.
      now apply (search_ids_in_keys st _ _ _ _ res2 Hok Hk2 Hres2). }
    rewrite Hfresh. cbn [map]. rewrite !firstn_nil, !app_nil_r.
    exists res. eexists. split; [exact Hres |]. split; [reflexivity |].
    cbn [Pipeline.search_results Pipeline.similarity_scores].
    rewrite !take_all by lia. now repeat split.
  - exists res. eexists. split; [exact Hres |]. split; [reflexivity |].
    cbn [Pipeline.search_results Pipeline.similarity_scores].
    rewrite !take_all by lia. now repeat split.
Qed.

End StepDirect.

Lemma execute_without_fallback_example :
  Pipeline.execute Examples.toy_encode (Examples.cfg_k 1) Examples.store3
    Examples.history_fan
  = Ok {| Pipeline.search_results := map fst [(Examples.d2, (336 # 1)%Q)];
          Pipeline.similarity_scores := map snd [(Examples.d2, (336 # 1)%Q)];
          Pipeline.search_query := Pipeline._build_search_query Examples.history_fan;
          Pipeline.search_calls :=
            [Pipeline.primary_request (Examples.cfg_k 1) Examples.history_fan] |}.
Proof.
  apply (execute_without_fallback Examples.toy_encode (Examples.cfg_k 1)
           Examples.store3 Examples.history_fan [(Examples.d2, (336 # 1)%Q)]).
  - exact store3_ok.
  - cbn. lia.
  - vm_compute. reflexivity.
  - cbn. lia.
Defined.

Lemma recommend_without_preferences_example :
  exists res out,
    search Examples.toy_encode (Examples.cfg_k 5) Examples.store3
      (Pipeline._build_search_query Examples.no_entities)
      (Some (top_k (Examples.cfg_k 5))) None None = Ok res
    /\ Pipeline.execute Examples.toy_encode (Examples.cfg_k 5) Examples.store3
         Examples.no_entities = Ok out
    /\ Pipeline.search_results out = map fst res
    /\ Pipeline.similarity_scores out = map snd res
    /\ Py.len res
       = Z.min (top_k (Examples.cfg_k 5)) (Py.len (documents Examples.store3)).
Proof.
  apply (recommend_without_preferences Examples.toy_encode (Examples.cfg_k 5)
           Examples.store3 Examples.no_entities).
  - exact store3_ok.
  - cbn. lia.
  - reflexivity.
  - reflexivity.
  - reflexivity.
Defined.

(** ** The CSV loader: list columns *)

Lemma lstrip_head : forall s, Py.isspace (hd 0%N (Py.lstrip s)) = false.
Proof.
  induction s as [|c r IH]; [reflexivity |].
  cbn [Py.lstrip]. destruct (Py.isspace c) eqn:E; [exact IH | exact E].
Qed.

Lemma lstrip_split : forall s,
    exists ws, s = ws ++ Py.lstrip s /\ Forall (fun c => Py.isspace c = true) ws.
Proof.
  induction s as [|c r IH]; [exists []; split; [reflexivity | constructor] |].
  cbn [Py.lstrip]. destruct (Py.isspace c) eqn:E.
  - destruct IH as (ws & Hs & Hws). exists (c :: ws). split.
    + cbn. now rewrite <- Hs.
    + now constructor.
  - exists []. split; [reflexivity | constructor].
Qed.

Lemma hd_rev_suffix : forall (ws t : Py.str),
    t <> [] -> hd 0%N (rev (ws ++ t)) = hd 0%N (rev t).
Proof.
  intros ws t Ht. rewrite rev_app_distr.
  destruct (rev t) as [|c r] eqn:E; [| reflexivity].
  apply (f_equal (@rev N)) in E. rewrite rev_involutive in E. contradiction.
Qed.

(** What [strip] returns has no white space at either end. *)
Lemma strip_trimmed : forall s, trimmed (Py.strip s).
Proof.
  intros s. unfold trimmed, Py.strip. split; [apply lstrip_head |].
  set (v := Py.rstrip s).
  destruct (lstrip_split v) as (ws & Hv & _).
  destruct (Py.lstrip v) as [|c r] eqn:El; [reflexivity |].
  rewrite <- (hd_rev_suffix ws (c :: r)) by discriminate.
  rewrite <- Hv. subst v. unfold Py.rstrip. rewrite rev_involutive.
  apply lstrip_head.
Qed.

Lemma lstrip_spaces : forall ws t,
    Forall (fun c => Py.isspace c = true) ws ->
    Py.isspace (hd 0%N t) = false ->
    Py.lstrip (ws ++ t) = t.
Proof.
  intros ws t Hws Ht. induction Hws as [|c ws Hc Hws IH].
  - cbn [app]. destruct t as [|c r]; [reflexivity |].
    cbn [hd] in Ht. cbn [Py.lstrip]. now rewrite Ht.
  - cbn [app Py.lstrip]. now rewrite Hc.
Qed.

Lemma rstrip_keeps : forall s,
    Py.isspace (hd 0%N (rev s)) = false -> Py.rstrip s = s.
Proof.
  intros s H. unfold Py.rstrip.
  pose proof (lstrip_spaces [] (rev s) (Forall_nil _) H) as Hl.
  cbn [app] in Hl. rewrite Hl. apply rev_involutive.
Qed.

(** A trimmed string comes back from [strip], whatever white space is
    put before it. *)
Lemma strip_padded : forall ws t,
    Forall (fun c => Py.isspace c = true) ws ->
    t <> [] -> trimmed t ->
    Py.strip (ws ++ t) = t.
Proof.
  intros ws t Hws Hne [Hhead Hlast]. unfold Py.strip.
  rewrite rstrip_keeps by now rewrite hd_rev_suffix.
  now apply lstrip_spaces.
Qed.

Lemma lstrip_incl : forall s c, In c (Py.lstrip s) -> In c s.
Proof.
  intros s c H. destruct (lstrip_split s) as (ws & Hs & _).
  rewrite Hs. apply in_or_app. now right.
Qed.

Lemma strip_incl : forall s c, In c (Py.strip s) -> In c s.
Proof.
  intros s c H. unfold Py.strip, Py.rstrip in H.
  apply lstrip_incl in H. apply in_rev in H. apply lstrip_incl in H.
  now apply in_rev.
Qed.

Lemma split_on_nonempty : forall c s, Csv.split_on c s <> [].
Proof.
  intros c s. destruct s as [|x r]; cbn [Csv.split_on]; [discriminate |].
  destruct (x =? c)%N; [discriminate |].
  destruct (Csv.split_on c r); discriminate.
Qed.

Lemma split_on_pieces : forall c s,
    Forall (fun p => ~ In c p) (Csv.split_on c s).
Proof.
  intros c. induction s as [|x r IH]; cbn [Csv.split_on].
  - constructor; [intros [] | constructor].
  - destruct (x =? c)%N eqn:E.
    + constructor; [intros [] | exact IH].
    + apply N.eqb_neq in E.
      destruct (Csv.split_on c r) as [|p ps].
      * constructor; [| constructor]. intros [H | []]. congruence.
      * inversion IH as [|? ? Hp Hps]; subst. constructor; [| exact Hps].
        intros [H | H]; [congruence | contradiction].
Qed.

(** X10. Every element that the CSV loader reads from a list column
    (tags, accessibility, audience) is not empty, has no white space at
    either end and holds no comma; a column that is empty or only holds
    commas and white space gives the empty list. *)
Theorem list_column_tokens_clean :
  forall raw : Py.str,
    Forall clean_token (Csv.list_column raw)
    /\ (Forall (fun c => c = Csv.comma \/ Py.isspace c = true) raw ->
        Csv.list_column raw = []).
Proof.
  intros raw. split.
  - unfold Csv.list_column. apply Forall_forall. intros t Ht.
    apply in_map_iff in Ht. destruct Ht as (p & <- & Hp).
    apply filter_In in Hp. destruct Hp as [Hp Hne].
    pose proof (split_on_pieces Csv.comma raw) as Hpieces.
    rewrite Forall_forall in Hpieces. repeat split.
    + intros E. rewrite E in Hne. discriminate.
    + apply strip_trimmed.
    + apply strip_trimmed.
    + intros Hc. apply strip_incl in Hc. now apply (Hpieces p Hp).
  - intros Hraw. unfold Csv.list_column.
    rewrite filter_none; [reflexivity |].
    intros p Hp.
    assert (Hsub : forall l, Forall (fun c => c = Csv.comma \/ Py.isspace c = true) l ->
                             Forall (Forall (fun c => Py.isspace c = true))
                               (Csv.split_on Csv.comma l)).
    { clear. induction l as [|x r IH]; intros H; cbn [Csv.split_on].
      - repeat constructor.
      - inversion H as [|? ? Hx Hr]; subst. specialize (IH Hr).
        destruct (x =? Csv.comma)%N eqn:E; [constructor; [constructor | exact IH] |].
        apply N.eqb_neq in E. destruct Hx as [Hx | Hx]; [contradiction |].
        destruct (Csv.split_on Csv.comma r) as [|q qs].
        + repeat constructor. exact Hx.
        + inversion IH; subst. constructor; [now constructor | assumption]. }
    specialize (Hsub raw Hraw). rewrite Forall_forall in Hsub.
    specialize (Hsub p Hp).
    assert (Hstrip : Py.strip p = []).
    { unfold Py.strip.
      assert (Hl : forall l, Forall (fun c => Py.isspace c = true) l -> Py.lstrip l = []).
      { clear. induction 1 as [|c l Hc Hl IH]; [reflexivity |].
        cbn [Py.lstrip]. now rewrite Hc. }
      assert (Hr : Py.rstrip p = []).
      { unfold Py.rstrip. rewrite Hl by now apply Forall_rev. reflexivity. }
      now rewrite Hr. }
    now rewrite Hstrip.
Qed.

Lemma split_on_single : forall c s, ~ In c s -> Csv.split_on c s = [s].
Proof.
  intros c. induction s as [|x r IH]; intros H; [reflexivity |].
  cbn [Csv.split_on]. destruct (x =? c)%N eqn:E.
  - apply N.eqb_eq in E. exfalso. apply H. now left.
  - rewrite IH; [reflexivity |]. intros Hin. apply H. now right.
Qed.

Lemma split_on_app : forall c p rest,
    ~ In c p ->
    Csv.split_on c (p ++ c :: rest) = p :: Csv.split_on c rest.
Proof.
  intros c. induction p as [|x p IH]; intros rest H.
  - cbn [app Csv.split_on]. now rewrite N.eqb_refl.
  - cbn [app Csv.split_on]. destruct (x =? c)%N eqn:E.
    + apply N.eqb_eq in E. exfalso. apply H. now left.
    + rewrite IH; [reflexivity |]. intros Hin. apply H. now right.
Qed.

(** Splitting a list written with ", " between its elements. *)
Lemma split_on_join : forall t ts,
    Forall (fun p => ~ In Csv.comma p) (t :: ts) ->
    Csv.split_on Csv.comma (Py.join [Csv.comma; Csv.space] (t :: ts))
    = t :: map (cons Csv.space) ts.
Proof.
  intros t ts. revert t. induction ts as [|t' ts IH]; intros t H.
  - cbn [Py.join map]. apply split_on_single. now inversion H.
  - inversion H as [|? ? Ht Hrest]; subst.
    change (Py.join [Csv.comma; Csv.space] (t :: t' :: ts))
      with (t ++ Csv.comma :: Csv.space :: Py.join [Csv.comma; Csv.space] (t' :: ts)).
    rewrite split_on_app by assumption.
    cbn [Csv.split_on]. change (Csv.space =? Csv.comma)%N with false. cbv iota.
    rewrite (IH t' Hrest). reflexivity.
Qed.

(** X11. A list of clean elements (not empty, trimmed, without comma)
    written as one text with ", " between the elements, as the response
    builder writes tags, is read back by the CSV loader as the same
    list. *)
Theorem list_column_round_trip :
  forall tokens : list Py.str,
    Forall clean_token tokens ->
    Csv.list_column (Py.join [Csv.comma; Csv.space] tokens) = tokens.
Proof.
  intros tokens Hclean. destruct tokens as [|t ts]; [reflexivity |].
  unfold Csv.list_column. rewrite split_on_join.
  2:{ apply Forall_forall. intros p Hp. rewrite Forall_forall in Hclean.
      now apply (Hclean p Hp). }
  inversion Hclean as [|? ? (Hne & Htrim & _) Hrest]; subst.
  assert (Hfull : forall x : Py.str, x <> [] -> Py.nonempty x = true)
    by (intros [|c r] H; [contradiction | reflexivity]).
  assert (Ht : Py.strip t = t) by now apply (strip_padded [] t).
  cbn [filter map]. rewrite Ht, (Hfull t Hne). cbn [map]. rewrite Ht. f_equal.
  clear Hclean Hne Htrim Ht.
  induction Hrest as [|t' ts (Hne & Htrim & _) Hrest IH]; [reflexivity |].
  cbn [map filter].
  assert (Ht : Py.strip (Csv.space :: t') = t').
  { apply (strip_padded [Csv.space] t'); try assumption. now repeat constructor. }
  rewrite Ht, (Hfull t' Hne). cbn [map]. now rewrite Ht, IH.
Qed.

Lemma list_column_round_trip_example :
  Csv.list_column (Py.join [Csv.comma; Csv.space] [Py.u "photo"; Py.u "old maps"])
  = [Py.u "photo"; Py.u "old maps"].
Proof.
  apply list_column_round_trip.
  repeat constructor; try discriminate; vm_compute; intuition discriminate.
Defined.

Lemma list_column_blank_example :
  Csv.list_column (Py.u " , ,") = [].
Proof.
  destruct (list_column_tokens_clean (Py.u " , ,")) as [_ H].
  apply H. vm_compute.
  repeat (apply Forall_cons; [first [left; reflexivity | right; reflexivity] |]).
  apply Forall_nil.
Defined.

(** ** Chunking: runs that end *)

(** X13. With an overlap of 0 or 1 (and smaller than the chunk size)
    [chunk_text] returns on every text; when the text is longer than the
    chunk size every chunk is a trimmed slice of it, not empty and of at
    most [chunk_size] characters. *)
Theorem chunk_text_small_overlap_returns :
  forall (text : Py.str) (size overlap : Z) (fuel : nat),
    0 <= overlap <= 1 -> overlap < size ->
    (List.length text <= fuel)%nat ->
    exists chunks,
      Ingestion.chunk_text fuel text size overlap = Some chunks
      /\ (size < Py.len text -> Forall (good_chunk text size) chunks).
Proof.
  intros text size overlap fuel Hov Hsize Hfuel. unfold Ingestion.chunk_text.
  destruct (Py.len text <=? size) eqn:E.
  - apply Z.leb_le in E. exists [text]. split; [reflexivity | lia].
  - apply Z.leb_gt in E.
    destruct (chunk_loop_small_overlap_terminates text size overlap Hov Hsize
                fuel 0 []) as [out Hout].
    + lia.
    + unfold Py.len in *. lia.
    + unfold Py.len in *. lia.
    + exists out. split; [exact Hout |]. intros _.
      apply (chunk_loop_good text size overlap fuel 0 [] out);
        [lia | lia | constructor | exact Hout].
Qed.

Lemma chunk_text_small_overlap_example :
  exists chunks,
    Ingestion.chunk_text 20 Examples.looping_text 10 1 = Some chunks
    /\ (10 < Py.len Examples.looping_text ->
        Forall (good_chunk Examples.looping_text 10) chunks).
Proof.
  apply chunk_text_small_overlap_returns.
  - lia.
  - lia.
  - vm_compute. lia.
Defined.

Lemma rfind_from_absent : forall c l i, ~ In c l -> Py.rfind_from c l i = -1.
Proof.
  intros c. induction l as [|x r IH]; intros i H; [reflexivity |].
  cbn [Py.rfind_from]. rewrite IH by (intros Hin; apply H; now right).
  cbn. destruct (x =? c)%N eqn:E; [| reflexivity].
  apply N.eqb_eq in E. exfalso. apply H. now left.
Qed.

Lemma rfind_absent : forall c text a b, ~ In c text -> Py.rfind c text a b = -1.
Proof.
  intros c text a b H. unfold Py.rfind. apply rfind_from_absent.
  intros Hin. apply H. apply In_firstn_keep in Hin.
  rewrite <- (firstn_skipn (Z.to_nat (Py.adjust (Py.len text) a)) text).
  apply in_or_app. now right.
Qed.

Lemma window_end_plain : forall text size start,
    no_sentence_end text ->
    Ingestion.window_end text size start = start + size.
Proof.
  intros text size start (H1 & H2 & H3).
  unfold Ingestion.window_end, Ingestion.sentence_end.
  rewrite !rfind_absent by assumption. cbn.
  destruct (start + size <? Py.len text); reflexivity.
Qed.

Lemma ceil_div_step : forall a s, 1 <= s -> (a + s) / s = a / s + 1.
Proof.
  intros a s Hs. replace (a + s) with (a + 1 * s) by lia.
  apply Z.div_add. lia.
Qed.

(** On a text without sentence ends every pass moves the start by
    [size - overlap], and appends at most one chunk. *)
Lemma chunk_loop_plain : forall text size overlap,
    0 <= overlap < size -> no_sentence_end text ->
    forall fuel start chunks,
      0 <= start < Py.len text ->
      (Z.to_nat (Py.len text - start) <= fuel)%nat ->
      exists out,
        Ingestion.chunk_loop fuel text size overlap start chunks = Some out
        /\ Py.len out
           <= Py.len chunks
              + (Py.len text - start + (size - overlap) - 1) / (size - overlap).
Proof.
  intros text size overlap Hov Hplain. induction fuel as [|fuel IH];
    intros start chunks Hstart Hfuel; [lia |].
  cbn [Ingestion.chunk_loop].
  destruct (start <? Py.len text) eqn:Elt; [| apply Z.ltb_ge in Elt; lia].
  unfold Ingestion.chunk_step. rewrite window_end_plain by assumption.
  set (s := size - overlap) in *.
  replace (start + size - overlap) with (start + s) by (subst s; lia).
  set (chunks' := if Py.nonempty _ then _ else chunks).
  assert (Hc : Py.len chunks' <= Py.len chunks + 1).
  { subst chunks'. destruct (Py.nonempty _); [rewrite len_app; cbn |]; lia. }
  assert (Hdiv : (Py.len text - start + s - 1) / s
                 = (Py.len text - start - 1) / s + 1).
  { replace (Py.len text - start + s - 1) with (Py.len text - start - 1 + s) by lia.
    apply ceil_div_step. subst s. lia. }
  assert (Hq : 0 <= (Py.len text - start - 1) / s)
    by (apply Z.div_pos; subst s; lia).
  destruct (start + s >=? Py.len text) eqn:G.
  - exists chunks'. split; [reflexivity | lia].
  - assert (Hlt : start + s < Py.len text).
    { destruct (Z_lt_le_dec (start + s) (Py.len text)) as [L | L]; [exact L |].
      apply Z.geb_le in L. rewrite L in G. discriminate. }
    destruct (IH (start + s) chunks') as (out & Hout & Hlen).
    + subst s. lia.
    + subst s. lia.
    + exists out. split; [exact Hout |].
      replace (Py.len text - (start + s) + s - 1)
        with (Py.len text - start - 1) in Hlen by lia.
      lia.
Qed.

(** X14. On a text that holds none of '.', '!' and '?', and for any
    0 <= overlap < chunk_size, [chunk_text] returns, and when the text is
    longer than the chunk size the number of chunks is at most the text
    length divided by [chunk_size - overlap], rounded up. *)
Theorem chunk_text_plain_text_returns :
  forall (text : Py.str) (size overlap : Z) (fuel : nat),
    0 <= overlap < size ->
    no_sentence_end text ->
    (List.length text <= fuel)%nat ->
    exists chunks,
      Ingestion.chunk_text fuel text size overlap = Some chunks
      /\ (size < Py.len text ->
          Py.len chunks
          <= (Py.len text + (size - overlap) - 1) / (size - overlap)).
Proof.
  intros text size overlap fuel Hov Hplain Hfuel. unfold Ingestion.chunk_text.
  destruct (Py.len text <=? size) eqn:E.
  - apply Z.leb_le in E. exists [text]. split; [reflexivity | lia].
  - apply Z.leb_gt in E.
    destruct (chunk_loop_plain text size overlap Hov Hplain fuel 0 [])
      as (out & Hout & Hlen).
    + lia.
    + unfold Py.len in *. lia.
    + exists out. split; [exact Hout |]. intros _.
      change (Py.len (@nil Py.str)) with 0 in Hlen.
      now rewrite Z.sub_0_r, Z.add_0_l in Hlen.
Qed.

Lemma chunk_text_plain_text_example :
  exists chunks,
    Ingestion.chunk_text 12 (Py.u "abcdefghijkl") 5 3 = Some chunks
    /\ (5 < Py.len (Py.u "abcdefghijkl") ->
        Py.len chunks <= (Py.len (Py.u "abcdefghijkl") + (5 - 3) - 1) / (5 - 3)).
Proof.
  apply chunk_text_plain_text_returns.
  - lia.
  - vm_compute. intuition discriminate.
  - vm_compute. lia.
Defined.

(** ** Chunk documents *)

Lemma utf8_digits : forall d,
    Py.u (NilEmpty.string_of_uint d) = Py.bytes_of (NilEmpty.string_of_uint d).
Proof.
  unfold Py.u. induction d; cbn [NilEmpty.string_of_uint Py.bytes_of];
    try reflexivity;
    (cbn [Py.utf8]; cbn -[Py.utf8 Py.bytes_of NilEmpty.string_of_uint];
     f_equal; exact IHd).
Qed.

Lemma bytes_of_inj : forall s t, Py.bytes_of s = Py.bytes_of t -> s = t.
Proof.
  induction s as [|a s IH]; intros [|b t] H; try discriminate; [reflexivity |].
  cbn in H. injection H as Hab Hst. f_equal; [| now apply IH].
  rewrite <- (ascii_N_embedding a), <- (ascii_N_embedding b). now rewrite Hab.
Qed.

Lemma str_of_nat_inj : forall n m, Py.str_of_nat n = Py.str_of_nat m -> n = m.
Proof.
  intros n m H. unfold Py.str_of_nat in H.
  assert (Hn : forall k, Nat.to_uint k <> Decimal.Nil).
  { intros k. rewrite <- (Unsigned.of_to k) at 1. rewrite Unsigned.to_of.
    apply DecimalFacts.unorm_nonnil. }
  assert (Hs : forall k, NilZero.string_of_uint (Nat.to_uint k)
                         = NilEmpty.string_of_uint (Nat.to_uint k)).
  { intros k. specialize (Hn k). destruct (Nat.to_uint k); [contradiction | ..];
      reflexivity. }
  rewrite !Hs, !utf8_digits in H. apply bytes_of_inj in H.
  assert (Hu : Some (Nat.to_uint n) = Some (Nat.to_uint m))
    by (rewrite <- !NilEmpty.usu; now rewrite H).
  injection Hu as Hu. rewrite <- (Unsigned.of_to n), <- (Unsigned.of_to m).
  now rewrite Hu.
Qed.

Lemma enumerate_from_fst : forall (A : Type) (l : list A) i,
    map fst (Ingestion.enumerate_from i l) = seq i (List.length l).
Proof.
  intros A. induction l as [|x r IH]; intros i; [reflexivity |].
  cbn. f_equal. apply IH.
Qed.

Lemma chunk_doc_ids_distinct : forall doc (chunks : list Py.str),
    NoDup (map doc_id
             (map (fun ic => Ingestion.chunk_doc doc (fst ic) (snd ic))
                (Ingestion.enumerate_from 0 chunks))).
Proof.
  intros doc chunks. rewrite map_map. cbn [Ingestion.chunk_doc doc_id].
  rewrite <- (map_map fst
                (fun i => doc_id doc ++ Py.u "_chunk_" ++ Py.str_of_nat i)).
  rewrite enumerate_from_fst. apply Injective_map_NoDup; [| apply seq_NoDup].
  intros i j H. apply app_inv_head in H. apply app_inv_head in H.
  now apply str_of_nat_inj.
Qed.

(** X15. The documents that [create_exhibition_chunks] builds from one
    document have pairwise distinct identifiers, each starting with the
    identifier of the parent followed by "_chunk_"; their descriptions
    are the chunks of the parent's description, in order, and every other
    field is the parent's. *)
Theorem chunk_documents_of_parent :
  forall (fuel : nat) (cfg : Settings) (doc : MuseumDocument)
         (out : list MuseumDocument),
    Ingestion.create_exhibition_chunks fuel cfg doc = Some out ->
    NoDup (map doc_id out)
    /\ Ingestion.chunk_text fuel (description doc) (chunk_size cfg)
         (chunk_overlap cfg) = Some (map description out)
    /\ Forall (fun c =>
                 (exists n, doc_id c
                            = doc_id doc ++ Py.u "_chunk_" ++ Py.str_of_nat n)
                 /\ museum_name c = museum_name doc
                 /\ exhibition_title c = exhibition_title doc
                 /\ start_date c = start_date doc
                 /\ end_date c = end_date doc
                 /\ tags c = tags doc
                 /\ location c = location doc
                 /\ accessibility c = accessibility doc
                 /\ audience c = audience doc) out.
Proof.
  intros fuel cfg doc out. unfold Ingestion.create_exhibition_chunks.
  destruct (Ingestion.chunk_text fuel (description doc) (chunk_size cfg)
              (chunk_overlap cfg)) as [chunks|]; [| discriminate].
  intros H. injection H as <-. split; [apply chunk_doc_ids_distinct |]. split.
  - f_equal. rewrite map_map. cbn [Ingestion.chunk_doc description].
    symmetry. apply (enumerate_from_snd _ chunks 0).
  - apply Forall_forall. intros c Hc. apply in_map_iff in Hc.
    destruct Hc as ([n chunk] & <- & _). cbn.
    split; [now exists n |]. repeat split.
Qed.

Lemma chunk_documents_of_parent_example :
  NoDup (map doc_id IngestExamples.long_doc_chunks)
  /\ Ingestion.chunk_text 12 (description IngestExamples.long_doc) 5 1
     = Some (map description IngestExamples.long_doc_chunks).
Proof.
  destruct (chunk_documents_of_parent 12 IngestExamples.small_cfg
              IngestExamples.long_doc IngestExamples.long_doc_chunks)
    as (H1 & H2 & _).
  - vm_compute. reflexivity.
  - split; [exact H1 | exact H2].
Defined.

(** ** Ingestion: what reaches the store *)

Lemma all_chunks_short : forall fuel cfg docs,
    Forall (fun d => Py.len (description d) <= chunk_size cfg) docs ->
    Ingestion.all_chunks fuel cfg docs = Some docs.
Proof.
  intros fuel cfg. induction docs as [|d docs IH]; intros H; [reflexivity |].
  inversion H as [|? ? Hd Hr]; subst. cbn [Ingestion.all_chunks].
  rewrite (IH Hr).
  destruct (Py.len (description d) >? chunk_size cfg) eqn:G; [| reflexivity].
  apply Z.gtb_lt in G. lia.
Qed.

Lemma active_documents_none : forall today docs,
    Forall (fun d => Py.ge (end_date d) today = false) docs ->
    Ingestion.active_documents today docs = [].
Proof.
  intros today. induction docs as [|d docs IH]; intros H; [reflexivity |].
  inversion H as [|? ? Hd Hr]; subst. unfold Ingestion.active_documents in *.
  cbn [filter]. rewrite Hd. now apply IH.
Qed.

(** X16. When the file exists and loads, and every exhibition in it ended
    before the day of the call, [ingest_data] returns 0 and the store, with
    its saved files, is as before the call. *)
Theorem ingest_only_expired :
  forall (encode : Py.str -> Faiss.vec) (fuel : nat) (cfg : Settings)
         (src : Ingestion.Source) (st : VectorStore)
         (file_format fmt : Py.str) (docs : list MuseumDocument),
    Ingestion.path_exists src = true ->
    Ingestion.detect_format src file_format = Ok fmt ->
    Ingestion.load src fmt = Ok docs ->
    Forall (fun d => Py.ge (end_date d) (Ingestion.today src) = false) docs ->
    Ingestion.ingest_data encode fuel cfg src st file_format = Some (st, Ok 0).
Proof.
  intros encode fuel cfg src st file_format fmt docs Hp Hf Hl Hexp.
  unfold Ingestion.ingest_data. rewrite Hp, Hf, Hl. cbn [negb].
  rewrite (active_documents_none _ _ Hexp). reflexivity.
Qed.

Lemma ingest_only_expired_example :
  Ingestion.ingest_data Examples.toy_encode 0 default_settings
    IngestExamples.old_json Examples.store3 (Py.u "auto")
  = Some (Examples.store3, Ok 0).
Proof.
  apply (ingest_only_expired Examples.toy_encode 0 default_settings
           IngestExamples.old_json Examples.store3 (Py.u "auto") (Py.u "json")
           [Examples.d3]).
  - reflexivity.
  - vm_compute. reflexivity.
  - vm_compute. reflexivity.
  - repeat constructor.
Defined.

(** X17. On a store whose vectors and documents are aligned, when the file
    loads, no description is longer than the chunk size and the
    identifiers of the running exhibitions are distinct and new to the
    store, [ingest_data] returns the number of running exhibitions, the
    store holds them after the ones it had, in file order, it is still
    aligned, and [get_document_count] grew by the number returned. *)
Theorem ingest_short_documents :
  forall (encode : Py.str -> Faiss.vec) (fuel : nat) (cfg : Settings)
         (src : Ingestion.Source) (st : VectorStore)
         (file_format fmt : Py.str) (docs : list MuseumDocument),
    aligned encode st ->
    Ingestion.path_exists src = true ->
    Ingestion.detect_format src file_format = Ok fmt ->
    Ingestion.load src fmt = Ok docs ->
    Forall (fun d => Py.len (description d) <= chunk_size cfg) docs ->
    NoDup (keys (documents st)
           ++ map doc_id (Ingestion.active_documents (Ingestion.today src) docs)) ->
    exists st',
      Ingestion.ingest_data encode fuel cfg src st file_format
      = Some (st', Ok (Py.len (Ingestion.active_documents (Ingestion.today src) docs)))
      /\ aligned encode st'
      /\ documents st'
         = documents st
           ++ map (fun d => (doc_id d, d))
                (Ingestion.active_documents (Ingestion.today src) docs)
      /\ get_document_count st'
         = get_document_count st
           + Py.len (Ingestion.active_documents (Ingestion.today src) docs).
Proof.
  intros encode fuel cfg src st file_format fmt docs Hal Hp Hf Hl Hshort Hfresh.
  set (active := Ingestion.active_documents (Ingestion.today src) docs) in *.
  assert (Hact : Forall (fun d => Py.len (description d) <= chunk_size cfg) active).
  { apply Forall_forall. intros d Hd. subst active.
    unfold Ingestion.active_documents in Hd. apply filter_In in Hd.
    rewrite Forall_forall in Hshort. now apply Hshort. }
  destruct (add_documents_aligned encode active st Hal Hfresh) as [Hal' Hdocs].
  exists (add_documents encode active st).
  unfold Ingestion.ingest_data. rewrite Hp, Hf, Hl. cbn [negb].
  fold active. rewrite (all_chunks_short fuel cfg active Hact).
  split; [reflexivity |]. split; [exact Hal' |]. split; [exact Hdocs |].
  unfold get_document_count. rewrite Hdocs, len_app.
  unfold Py.len. now rewrite length_map.
Qed.

Lemma ingest_short_documents_example :
  exists st',
    Ingestion.ingest_data Examples.toy_encode 0 default_settings
      IngestExamples.mixed_csv empty_store (Py.u "csv")
    = Some (st', Ok 2)
    /\ keys (documents st') = [Py.u "d1"; Py.u "d2"].
Proof.
  destruct (ingest_short_documents Examples.toy_encode 0 default_settings
              IngestExamples.mixed_csv empty_store (Py.u "csv") (Py.u "csv")
              [Examples.d1; Examples.d3; Examples.d2])
    as (st' & Hrun & _ & Hdocs & _).
  - apply empty_store_aligned.
  - reflexivity.
  - vm_compute. reflexivity.
  - vm_compute. reflexivity.
  - repeat (apply Forall_cons; [vm_compute; discriminate |]). apply Forall_nil.
  - vm_compute. nodup_concrete.
  - exists st'. split; [exact Hrun |]. rewrite Hdocs. vm_compute. reflexivity.
Defined.

(** ** Entities: the post-processing *)

Lemma distinct_NoDup : forall l, distinct l = true -> NoDup l.
Proof.
  induction l as [|x r IH]; intros H; [constructor |].
  cbn in H. apply andb_true_iff in H. destruct H as [Hx Hr].
  constructor; [| now apply IH].
  intros Hin. apply contains_In in Hin. rewrite Hin in Hx. discriminate.
Qed.

Lemma contains_false : forall x l, Py.contains x l = false -> ~ In x l.
Proof.
  intros x l H Hin. apply contains_In in Hin. rewrite Hin in H. discriminate.
Qed.

Lemma not_In_contains : forall x l, ~ In x l -> Py.contains x l = false.
Proof.
  intros x l H. destruct (Py.contains x l) eqn:E; [| reflexivity].
  exfalso. apply H. now apply contains_In.
Qed.

Lemma get_miss : forall k t d,
    Py.contains k (map fst t) = false -> PyStr.get k t d = d.
Proof.
  intros k t d. induction t as [|[k' v] t IH]; intros H; [reflexivity |].
  cbn in H. apply orb_false_iff in H. destruct H as [H1 H2].
  cbn [PyStr.get]. rewrite (str_eqb_neq_sym _ _ H1). now apply IH.
Qed.

Lemma get_cases : forall k t d,
    (PyStr.get k t d = d /\ Py.contains k (map fst t) = false)
    \/ In (PyStr.get k t d) (map snd t).
Proof.
  intros k t d. induction t as [|[k' v] t IH].
  - left. split; reflexivity.
  - cbn [PyStr.get map fst snd]. destruct (Py.str_eqb k' k) eqn:E.
    + right. now left.
    + destruct IH as [[H1 H2] | H].
      * left. split; [exact H1 |]. cbn. rewrite (str_eqb_neq_sym _ _ E). exact H2.
      * right. now right.
Qed.

(** A table whose values are not keys maps every string to a string that
    it leaves as it is. *)
Lemma get_idempotent : forall t,
    forallb (fun v => negb (Py.contains v (map fst t))) (map snd t) = true ->
    forall k, Py.contains (PyStr.get k t k) (map fst t) = false.
Proof.
  intros t Ht k. destruct (get_cases k t k) as [[H1 H2] | H].
  - now rewrite H1.
  - rewrite forallb_forall in Ht. specialize (Ht _ H).
    now apply negb_true_iff in Ht.
Qed.

Lemma normalized_not_key : forall h,
    Py.contains (Ner.normalized h) (map fst Ner.hobby_map) = false.
Proof. intros h. apply get_idempotent. vm_compute. reflexivity. Qed.

Lemma normalized_idem : forall h,
    Ner.normalized (Ner.normalized h) = Ner.normalized h.
Proof.
  intros h. unfold Ner.normalized at 1. apply get_miss.
  apply normalized_not_key.
Qed.

Lemma rel_map_idem : forall r,
    PyStr.get (PyStr.get r Ner.rel_map r) Ner.rel_map (PyStr.get r Ner.rel_map r)
    = PyStr.get r Ner.rel_map r.
Proof.
  intros r. apply get_miss. apply get_idempotent. vm_compute. reflexivity.
Qed.

Lemma norm_loop_In : forall hs acc x,
    In x (fold_left norm_step hs acc)
    <-> In x acc \/ exists h0, In h0 hs /\ x = Ner.normalized h0.
Proof.
  induction hs as [|h hs IH]; intros acc x; cbn [fold_left].
  - split; [now left | intros [H | (h0 & [] & _)]; exact H].
  - rewrite IH. unfold norm_step at 1.
    destruct (Py.contains (Ner.normalized h) acc) eqn:E.
    + apply contains_In in E. split.
      * intros [H | (h0 & H0 & ->)]; [now left |].
        right. exists h0. split; [now right | reflexivity].
      * intros [H | (h0 & [<- | H0] & ->)]; [now left | now left |].
        right. now exists h0.
    + split.
      * intros [H | (h0 & H0 & ->)].
        -- apply in_app_or in H. destruct H as [H | [<- | []]]; [now left |].
           right. exists h. split; [now left | reflexivity].
        -- right. exists h0. split; [now right | reflexivity].
      * intros [H | (h0 & [<- | H0] & ->)].
        -- left. apply in_or_app. now left.
        -- left. apply in_or_app. right. now left.
        -- right. now exists h0.
Qed.

Lemma norm_loop_NoDup : forall hs acc,
    NoDup acc -> NoDup (fold_left norm_step hs acc).
Proof.
  induction hs as [|h hs IH]; intros acc Hacc; [exact Hacc |].
  cbn [fold_left]. apply IH. unfold norm_step.
  destruct (Py.contains (Ner.normalized h) acc) eqn:E; [exact Hacc |].
  apply (Permutation_NoDup (Permutation_cons_append acc (Ner.normalized h))).
  constructor; [now apply contains_false | exact Hacc].
Qed.

Lemma norm_loop_fixed : forall l acc,
    NoDup l ->
    (forall x, In x l -> Ner.normalized x = x) ->
    (forall x, In x l -> ~ In x acc) ->
    fold_left norm_step l acc = acc ++ l.
Proof.
  induction l as [|x l IH]; intros acc Hnd Hfix Hdis.
  - now rewrite app_nil_r.
  - cbn [fold_left]. inversion Hnd as [|? ? Hx Hl]; subst.
    unfold norm_step at 2. rewrite (Hfix x (or_introl eq_refl)).
    rewrite (not_In_contains x acc (Hdis x (or_introl eq_refl))).
    rewrite IH.
    + now rewrite <- app_assoc.
    + exact Hl.
    + intros y Hy. apply Hfix. now right.
    + intros y Hy Hin. apply in_app_or in Hin. destruct Hin as [Hin | [<- | []]].
      * apply (Hdis y); [now right | exact Hin].
      * contradiction.
Qed.

Lemma normalize_hobbies_fold : forall hs,
    Ner.normalize_hobbies hs = fold_left norm_step hs [].
Proof. reflexivity. Qed.

Lemma normalize_hobbies_idem : forall hs,
    Ner.normalize_hobbies (Ner.normalize_hobbies hs) = Ner.normalize_hobbies hs.
Proof.
  intros hs. rewrite (normalize_hobbies_fold (Ner.normalize_hobbies hs)).
  rewrite norm_loop_fixed; [reflexivity | | |].
  - rewrite normalize_hobbies_fold. apply norm_loop_NoDup. constructor.
  - intros x Hx. rewrite normalize_hobbies_fold in Hx.
    apply norm_loop_In in Hx. destruct Hx as [[] | (h0 & _ & ->)].
    apply normalized_idem.
  - intros x _ [].
Qed.

(** X18. [_post_process_entities] is idempotent: applied to its own
    result it changes nothing (the standard forms of hobbies and
    relationships are not themselves variants, and the styles are
    computed from the mood and the hobbies only). *)
Theorem post_process_idempotent :
  forall e : Ner.Entities,
    Ner._post_process_entities (Ner._post_process_entities e)
    = Ner._post_process_entities e.
Proof.
  intros [a r m hs acc st]. unfold Ner._post_process_entities.
  cbn [Ner.age Ner.relationship Ner.mood Ner.hobbies Ner.accessibility
       Ner.preferred_styles].
  assert (Hh : (if Py.nonempty (if Py.nonempty hs then Ner.normalize_hobbies hs else hs)
                then Ner.normalize_hobbies
                       (if Py.nonempty hs then Ner.normalize_hobbies hs else hs)
                else (if Py.nonempty hs then Ner.normalize_hobbies hs else hs))
               = (if Py.nonempty hs then Ner.normalize_hobbies hs else hs)).
  { destruct hs as [|h hs]; [reflexivity |]. cbn [Py.nonempty].
    rewrite normalize_hobbies_idem.
    destruct (Py.nonempty (Ner.normalize_hobbies (h :: hs))); reflexivity. }
  rewrite Hh. f_equal.
  destruct r as [r|]; [| reflexivity].
  destruct (Py.nonempty r) eqn:E; [| now rewrite E].
  rewrite rel_map_idem.
  destruct (Py.nonempty (PyStr.get r Ner.rel_map r)); reflexivity.
Qed.

Lemma mood_exclusive : forall m,
    Ner.mood_is m (Py.u "romantic") = true ->
    Ner.mood_is m (Py.u "sad") = false.
Proof.
  intros [x|] H; [| reflexivity]. cbn in *. apply str_eqb_eq in H. subst x.
  vm_compute. reflexivity.
Qed.

(** X19. The preferred styles that come out of [_post_process_entities]
    do not depend on the styles that went in (these are overwritten): they
    are at most five of seven fixed styles, none twice; the age, the mood
    and the accessibility needs are not touched. *)
Theorem post_process_styles :
  forall (a : option Z) (r m : option Py.str) (hs acc s1 s2 : list Py.str),
    let e1 := {| Ner.age := a; Ner.relationship := r; Ner.mood := m;
                 Ner.hobbies := hs; Ner.accessibility := acc;
                 Ner.preferred_styles := s1 |} in
    let e2 := {| Ner.age := a; Ner.relationship := r; Ner.mood := m;
                 Ner.hobbies := hs; Ner.accessibility := acc;
                 Ner.preferred_styles := s2 |} in
    Ner._post_process_entities e1 = Ner._post_process_entities e2
    /\ NoDup (Ner.preferred_styles (Ner._post_process_entities e1))
    /\ incl (Ner.preferred_styles (Ner._post_process_entities e1))
         [ Py.u "романтический"; Py.u "интимный"; Py.u "спокойный";
           Py.u "размышляющий"; Py.u "визуальный"; Py.u "классический";
           Py.u "современный" ]
    /\ Py.len (Ner.preferred_styles (Ner._post_process_entities e1)) <= 5
    /\ Ner.age (Ner._post_process_entities e1) = a
    /\ Ner.mood (Ner._post_process_entities e1) = m
    /\ Ner.accessibility (Ner._post_process_entities e1) = acc.
Proof.
  intros a r m hs acc s1 s2 e1 e2. split; [reflexivity |].
  unfold Ner._post_process_entities, e1.
  cbn [Ner.age Ner.relationship Ner.mood Ner.hobbies Ner.accessibility
       Ner.preferred_styles].
  set (hs' := if Py.nonempty hs then Ner.normalize_hobbies hs else hs).
  unfold Ner.styles_of.
  pose proof (mood_exclusive m) as Hex.
  destruct (Ner.mood_is m (Py.u "romantic"));
    [rewrite (Hex eq_refl) | destruct (Ner.mood_is m (Py.u "sad"))];
    destruct (Py.contains (Py.u "фотография") hs');
    destruct (existsb (fun word => Py.contains word hs')
                [Py.u "история"; Py.u "архитектура"]);
    destruct (existsb (fun word => Py.contains word hs')
                [Py.u "технологии"; Py.u "современное"]);
    (split; [apply distinct_NoDup; vm_compute; reflexivity |]);
    (split; [| split; [vm_compute; discriminate | repeat split]]);
    (intros x Hx; apply contains_In; apply contains_In in Hx;
     revert Hx; cbn [app]; cbn [Py.contains existsb];
     intros Hx;
     repeat (apply orb_true_iff in Hx; destruct Hx as [Hx | Hx];
             [try (rewrite Hx; rewrite ?orb_true_r; reflexivity) |]);
     try discriminate; rewrite ?Hx, ?orb_true_r; reflexivity).
Qed.

(** X20. The hobbies that come out of [_post_process_entities] are the
    standard forms of the hobbies that went in, each once (in the order
    of first occurrence), and none of them is one of the twelve variant
    spellings that the function maps. *)
Theorem post_process_hobbies :
  forall e : Ner.Entities,
    NoDup (Ner.hobbies (Ner._post_process_entities e))
    /\ (forall h,
           In h (Ner.hobbies (Ner._post_process_entities e))
           <-> exists h0, In h0 (Ner.hobbies e) /\ h = Ner.normalized h0)
    /\ (forall h,
           In h (Ner.hobbies (Ner._post_process_entities e)) ->
           ~ In h (map fst Ner.hobby_map))
    /\ Ner.hobbies (Ner._post_process_entities e)
       = Ner.normalize_hobbies (Ner.hobbies e).
Proof.
  intros e.
  assert (Heq : Ner.hobbies (Ner._post_process_entities e)
                = Ner.normalize_hobbies (Ner.hobbies e)).
  { unfold Ner._post_process_entities. cbn [Ner.hobbies].
    destruct (Ner.hobbies e); reflexivity. }
  rewrite Heq, normalize_hobbies_fold.
  assert (Hin : forall h,
             In h (fold_left norm_step (Ner.hobbies e) [])
             <-> exists h0, In h0 (Ner.hobbies e) /\ h = Ner.normalized h0).
  { intros h. rewrite norm_loop_In. split; [intros [[] | H]; exact H | now right]. }
  split; [apply norm_loop_NoDup; constructor |].
  split; [exact Hin |]. split; [| reflexivity].
  intros h Hh. apply Hin in Hh. destruct Hh as (h0 & _ & ->).
  apply contains_false. apply normalized_not_key.
Qed.

Lemma post_process_example :
  Ner._post_process_entities NerExamples.raw
  = {| Ner.age := Some 30;
       Ner.relationship := Some (Py.u "partner");
       Ner.mood := Some (Py.u "sad");
       Ner.hobbies := [Py.u "фотография"; Py.u "история"; Py.u "джаз"];
       Ner.accessibility := [];
       Ner.preferred_styles :=
         [ Py.u "спокойный"; Py.u "размышляющий"; Py.u "визуальный";
           Py.u "классический" ] |}.
Proof. vm_compute. reflexivity. Qed.

Lemma forallb2_eq_true : forall a b, forallb2_eq a b = true -> a = b.
Proof.
  induction a as [|x a IH]; intros [|y b] H; try discriminate; [reflexivity |].
  cbn in H. apply andb_true_iff in H. destruct H as [H1 H2].
  apply str_eqb_eq in H1. subst. f_equal. now apply IH.
Qed.
(** ** Entities: extraction without models *)

Lemma first_keyword_In : forall t text v,
    PyStr.first_keyword t text = Some v -> In v (map snd t).
Proof.
  induction t as [|[k w] t IH]; intros text v H; [discriminate |].
  cbn [PyStr.first_keyword] in H. destruct (PyStr.occurs k text).
  - injection H as <-. now left.
  - right. now apply (IH text).
Qed.

Lemma extract_age_range : forall age_match ps text a,
    Ner.extract_age age_match ps text = Some a -> 5 <= a <= 120.
Proof.
  intros age_match. induction ps as [|i ps IH]; intros text a H; [discriminate |].
  cbn [Ner.extract_age] in H. destruct (age_match i text) as [b|]; [| now apply (IH text)].
  destruct ((5 <=? b) && (b <=? 120)) eqn:E; [| now apply (IH text)].
  injection H as <-. apply andb_true_iff in E. destruct E as [E1 E2].
  apply Z.leb_le in E1. apply Z.leb_le in E2. lia.
Qed.

Lemma update_defaults_hobbies : forall lower age_match text,
    Ner.hobbies (Ner.update Ner.no_entities
                   (Ner._extract_with_regex lower age_match text))
    = filter (fun hobby => PyStr.occurs hobby (lower text)) HOBBY_KEYWORDS.
Proof.
  intros lower age_match text. unfold Ner.update, Ner._extract_with_regex.
  cbn [Ner.hobbies Ner.found_hobbies Ner.no_entities].
  destruct (filter _ HOBBY_KEYWORDS); reflexivity.
Qed.

(** X21. An extractor that has neither a spaCy model nor a language
    model returns, for every text: an age between 5 and 120 or none; a
    relationship that is one of the six types of the audience table of
    the search step (so that the audience filter is never its default),
    or none; one of four moods or none; hobbies out of the keyword list,
    none twice and never the short form "фото"; and no accessibility
    need other than "wheelchair". *)
Theorem extract_entities_standard_values :
  forall (lower : Py.str -> Py.str) (age_match : nat -> Py.str -> option Z)
         (text : Py.str),
    (forall a, Ner.age (Ner.extract_entities lower age_match text) = Some a ->
               5 <= a <= 120)
    /\ (forall r,
           Ner.relationship (Ner.extract_entities lower age_match text) = Some r ->
           In (r, Pipeline._get_audience_filter (Some r)) Pipeline.audience_map)
    /\ (forall m,
           Ner.mood (Ner.extract_entities lower age_match text) = Some m ->
           In m [Py.u "sad"; Py.u "happy"; Py.u "romantic"; Py.u "calm"])
    /\ NoDup (Ner.hobbies (Ner.extract_entities lower age_match text))
    /\ incl (Ner.hobbies (Ner.extract_entities lower age_match text))
         HOBBY_KEYWORDS
    /\ ~ In (Py.u "фото") (Ner.hobbies (Ner.extract_entities lower age_match text))
    /\ (Ner.accessibility (Ner.extract_entities lower age_match text) = []
        \/ Ner.accessibility (Ner.extract_entities lower age_match text)
           = [Py.u "wheelchair"]).
Proof.
  intros lower age_match text. unfold Ner.extract_entities.
  set (raw := Ner.update Ner.no_entities
                (Ner._extract_with_regex lower age_match text)).
  assert (Heq : Ner.hobbies (Ner._post_process_entities raw)
                = Ner.normalize_hobbies (Ner.hobbies raw)).
  { unfold Ner._post_process_entities. cbn [Ner.hobbies].
    destruct (Ner.hobbies raw); reflexivity. }
  assert (Hh : forall h, In h (Ner.hobbies (Ner._post_process_entities raw)) ->
                         exists h0, In h0 HOBBY_KEYWORDS /\ h = Ner.normalized h0).
  { intros h Hh.
    rewrite Heq, normalize_hobbies_fold in Hh. apply norm_loop_In in Hh.
    destruct Hh as [[] | (h0 & H0 & ->)]. exists h0. split; [| reflexivity].
    unfold raw in H0. rewrite update_defaults_hobbies in H0.
    apply filter_In in H0. exact (proj1 H0). }
  assert (Hkw : forallb (fun h0 => Py.contains (Ner.normalized h0) HOBBY_KEYWORDS
                                   && negb (Py.str_eqb (Ner.normalized h0) (Py.u "фото")))
                  HOBBY_KEYWORDS = true) by (vm_compute; reflexivity).
  rewrite forallb_forall in Hkw.
  split; [| split; [| split; [| split; [| split; [| split]]]]].
  - intros a Ha. unfold Ner._post_process_entities in Ha. cbn [Ner.age] in Ha.
    unfold raw, Ner.update, Ner._extract_with_regex in Ha.
    cbn [Ner.age Ner.found_age Ner.no_entities] in Ha.
    destruct (Ner.extract_age age_match [0%nat; 1%nat; 2%nat] (lower text)) eqn:E;
      [| discriminate].
    injection Ha as <-. exact (extract_age_range _ _ _ _ E).
  - intros r Hr. unfold Ner._post_process_entities in Hr.
    cbn [Ner.relationship] in Hr.
    unfold raw, Ner.update, Ner._extract_with_regex in Hr.
    cbn [Ner.relationship Ner.found_relationship Ner.no_entities] in Hr.
    destruct (PyStr.first_keyword RELATIONSHIP_PATTERNS (lower text)) as [v|] eqn:E;
      [| discriminate].
    apply first_keyword_In in E.
    assert (Hall : forallb
                     (fun v => Py.nonempty v
                               && Py.str_eqb (PyStr.get v Ner.rel_map v) v
                               && existsb
                                    (fun kv => Py.str_eqb (fst kv) v
                                               && forallb2_eq (snd kv)
                                                    (Pipeline._get_audience_filter (Some v)))
                                    Pipeline.audience_map)
                     (map snd RELATIONSHIP_PATTERNS) = true)
      by (vm_compute; reflexivity).
    rewrite forallb_forall in Hall. specialize (Hall v E).
    apply andb_true_iff in Hall. destruct Hall as [Hall H3].
    apply andb_true_iff in Hall. destruct Hall as [H1 H2].
    rewrite H1 in Hr. apply str_eqb_eq in H2. rewrite H2 in Hr.
    injection Hr as <-. apply existsb_exists in H3.
    destruct H3 as ([k l] & Hin & Hkl). cbn [fst snd] in Hkl.
    apply andb_true_iff in Hkl. destruct Hkl as [Hk Hl].
    apply str_eqb_eq in Hk. apply forallb2_eq_true in Hl.
    subst k l. exact Hin.
  - intros m Hm. unfold Ner._post_process_entities in Hm. cbn [Ner.mood] in Hm.
    unfold raw, Ner.update, Ner._extract_with_regex in Hm.
    cbn [Ner.mood Ner.found_mood Ner.no_entities] in Hm.
    destruct (PyStr.first_keyword MOOD_PATTERNS (lower text)) as [v|] eqn:E;
      [| discriminate].
    injection Hm as <-. apply first_keyword_In in E.
    apply contains_In. revert v E. apply forallb_forall. vm_compute. reflexivity.
  - rewrite Heq, normalize_hobbies_fold. apply norm_loop_NoDup. constructor.
  - intros h Hin. destruct (Hh h Hin) as (h0 & H0 & ->).
    specialize (Hkw h0 H0). apply andb_true_iff in Hkw.
    apply contains_In. apply Hkw.
  - intros Hin. destruct (Hh _ Hin) as (h0 & H0 & Hn).
    specialize (Hkw h0 H0). apply andb_true_iff in Hkw. destruct Hkw as [_ Hkw].
    rewrite <- Hn in Hkw. rewrite str_eqb_refl in Hkw. discriminate.
  - unfold Ner._post_process_entities. cbn [Ner.accessibility].
    unfold raw, Ner.update, Ner._extract_with_regex.
    cbn [Ner.accessibility Ner.found_accessibility Ner.no_entities].
    destruct (PyStr.any_occurs _ (lower text)); [right | left]; reflexivity.
Qed.

Lemma extract_entities_example :
  Ner.extract_entities Py.lower NerExamples.two_digits NerExamples.request
  = {| Ner.age := Some 25;
       Ner.relationship := Some (Py.u "partner");
       Ner.mood := Some (Py.u "romantic");
       Ner.hobbies := [Py.u "фотография"; Py.u "история"];
       Ner.accessibility := [];
       Ner.preferred_styles :=
         [ Py.u "романтический"; Py.u "интимный"; Py.u "визуальный";
           Py.u "классический" ] |}.
Proof. vm_compute. reflexivity. Qed.

Lemma extract_entities_standard_example :
  5 <= 25 <= 120
  /\ In (Py.u "partner",
         Pipeline._get_audience_filter (Some (Py.u "partner")))
       Pipeline.audience_map.
Proof.
  destruct (extract_entities_standard_values Py.lower NerExamples.two_digits
              NerExamples.request) as (Ha & Hr & _).
  split.
  - apply Ha. vm_compute. reflexivity.
  - apply Hr. vm_compute. reflexivity.
Defined.

(** ** The dialogue manager *)

(** X22. The questions asked when the model fails, read off the request:
    the question about the age when the request names no age, then the
    question about the company when it names none, then the question
    about interests when it names none, in this order and cut after the
    second. So there are at most two, none exactly when the request names
    all three kinds, and the question about interests is left out when
    the request names neither an age nor a company. *)
Theorem fallback_questions_of_request :
  forall (lower : Py.str -> Py.str) (user_request : Py.str),
    Dialogue._get_fallback_questions
      (Dialogue.missing_info lower user_request)
    = firstn 2
        ((if Dialogue.has_age lower user_request
          then [] else [Dialogue.age_question])
         ++ (if Dialogue.has_relationship lower user_request
             then [] else [Dialogue.company_question])
         ++ (if Dialogue.has_interests lower user_request
             then [] else [Dialogue.interests_question]))
    /\ Py.len (Dialogue._get_fallback_questions
                 (Dialogue.missing_info lower user_request))
       = Z.min 2 (Py.len (Dialogue.missing_info lower user_request))
    /\ (Dialogue._get_fallback_questions
          (Dialogue.missing_info lower user_request) = []
        <-> Dialogue.has_age lower user_request = true
            /\ Dialogue.has_relationship lower user_request = true
            /\ Dialogue.has_interests lower user_request = true)
    /\ (In Dialogue.interests_question
          (Dialogue._get_fallback_questions
             (Dialogue.missing_info lower user_request))
        <-> Dialogue.has_interests lower user_request = false
            /\ (Dialogue.has_age lower user_request = true
                \/ Dialogue.has_relationship lower user_request = true)).
Proof.
  intros lower user_request. unfold Dialogue.missing_info.
  rewrite <- contains_In.
  destruct (Dialogue.has_age lower user_request),
           (Dialogue.has_relationship lower user_request),
           (Dialogue.has_interests lower user_request);
    (split; [vm_compute; reflexivity |]);
    vm_compute; (split; [reflexivity |]); split; split;
      try discriminate; intuition discriminate.
Qed.

Lemma startswith_app : forall p s, PyStr.startswith (p ++ s) p = true.
Proof.
  induction p as [|c p IH]; intros s; [destruct s; reflexivity |].
  cbn. now rewrite N.eqb_refl, IH.
Qed.

Lemma endswith_app : forall s p, PyStr.endswith (s ++ p) p = true.
Proof.
  intros s p. unfold PyStr.endswith. rewrite rev_app_distr. apply startswith_app.
Qed.

Lemma geb_false_lt : forall a b, (a >=? b) = false <-> a < b.
Proof.
  intros a b. rewrite Z.geb_leb. apply Z.leb_gt.
Qed.

Lemma geb_true_le : forall a b, (a >=? b) = true <-> b <= a.
Proof.
  intros a b. rewrite Z.geb_leb. apply Z.leb_le.
Qed.

(** X23. When the limit of rounds is not reached and the model answers,
    [generate_clarifying_questions] counts one round, leaves the history
    as it is and returns at most one question: the answer without the
    white space around it, with a question mark added when it does not
    end with one. The question is never empty and always ends with a
    question mark; a blank answer gives no question and still counts as
    a round. *)
Theorem generate_question_from_answer :
  forall (lower : Py.str -> Py.str) (max_rounds : Z) (answer : Py.str)
         (st : Dialogue.State) (user_request : Py.str),
    Dialogue.clarification_rounds st < max_rounds ->
    exists questions,
      Dialogue.generate_clarifying_questions lower max_rounds (Some answer)
        st user_request
      = ({| Dialogue.conversation_history := Dialogue.conversation_history st;
            Dialogue.clarification_rounds := Dialogue.clarification_rounds st + 1 |},
         questions)
      /\ (Py.strip answer = [] -> questions = [])
      /\ (Py.strip answer <> [] ->
          exists q,
            questions = [q]
            /\ q <> []
            /\ PyStr.endswith q [Dialogue.question_mark] = true
            /\ Py.isspace (hd 0%N q) = false
            /\ (q = Py.strip answer
                \/ (q = Py.strip answer ++ [Dialogue.question_mark]
                    /\ PyStr.endswith (Py.strip answer) [Dialogue.question_mark]
                       = false))).
Proof.
  intros lower max_rounds answer st user_request Hlt.
  unfold Dialogue.generate_clarifying_questions.
  apply geb_false_lt in Hlt. rewrite Hlt.
  destruct (strip_trimmed answer) as [Hhd _].
  destruct (Py.strip answer) as [|c q0] eqn:Es.
  - eexists. split; [reflexivity |]. split; [reflexivity |].
    intros H. now contradiction H.
  - cbn [Py.nonempty andb].
    destruct (PyStr.endswith (c :: q0) [Dialogue.question_mark]) eqn:Ee;
      cbn [negb]; eexists; (split; [reflexivity |]);
      (split; [discriminate |]); intros _.
    + exists (c :: q0). repeat split; try assumption; try discriminate.
      now left.
    + exists ((c :: q0) ++ [Dialogue.question_mark]).
      split; [reflexivity |]. split; [discriminate |].
      split; [apply endswith_app |]. split; [exact Hhd |].
      right. now split.
Qed.

Lemma generate_question_example :
  exists questions,
    Dialogue.generate_clarifying_questions Py.lower 2
      (Some (Py.u "  Сколько вам лет  ")) Dialogue.new_state
      DialogueExamples.vague
    = ({| Dialogue.conversation_history := [];
          Dialogue.clarification_rounds := 0 + 1 |}, questions)
    /\ (Py.strip (Py.u "  Сколько вам лет  ") <> [] ->
        exists q,
          questions = [q]
          /\ PyStr.endswith q [Dialogue.question_mark] = true).
Proof.
  destruct (generate_question_from_answer Py.lower 2
              (Py.u "  Сколько вам лет  ") Dialogue.new_state
              DialogueExamples.vague)
    as (questions & Hrun & _ & Hq).
  - vm_compute. reflexivity.
  - exists questions. split; [exact Hrun |]. intros Hne.
    destruct (Hq Hne) as (q & H1 & _ & H2 & _).
    exists q. split; assumption.
Defined.

Lemma generate_question_value_example :
  Dialogue.generate_clarifying_questions Py.lower 2
    (Some (Py.u "  Сколько вам лет  ")) Dialogue.new_state
    DialogueExamples.vague
  = ({| Dialogue.conversation_history := [];
        Dialogue.clarification_rounds := 1 |}, [Py.u "Сколько вам лет?"]).
Proof. vm_compute. reflexivity. Qed.

Lemma generate_rounds : forall lower max_rounds answer st user_request,
    let st' := fst (Dialogue.generate_clarifying_questions lower max_rounds
                      answer st user_request) in
    Dialogue.conversation_history st' = Dialogue.conversation_history st
    /\ (Dialogue.clarification_rounds st' = Dialogue.clarification_rounds st
        \/ (Dialogue.clarification_rounds st'
            = Dialogue.clarification_rounds st + 1
            /\ Dialogue.clarification_rounds st < max_rounds
            /\ answer <> None)).
Proof.
  intros lower max_rounds answer st user_request.
  unfold Dialogue.generate_clarifying_questions.
  destruct (Dialogue.clarification_rounds st >=? max_rounds) eqn:E.
  - cbn. split; [reflexivity | now left].
  - apply geb_false_lt in E. destruct answer as [a|]; cbn.
    + split; [reflexivity |]. right. repeat split; [exact E | discriminate].
    + split; [reflexivity | now left].
Qed.

Lemma run_generate_invariant : forall lower max_rounds calls st,
    let st' := fst (run_generate lower max_rounds calls st) in
    Dialogue.conversation_history st' = Dialogue.conversation_history st
    /\ Dialogue.clarification_rounds st <= Dialogue.clarification_rounds st'
    /\ Dialogue.clarification_rounds st'
       <= Z.max (Dialogue.clarification_rounds st) max_rounds
    /\ Dialogue.clarification_rounds st'
       <= Dialogue.clarification_rounds st + Py.len (filter answered calls)
    /\ List.length (snd (run_generate lower max_rounds calls st))
       = List.length calls.
Proof.
  intros lower max_rounds. induction calls as [|[answer req] calls IH]; intros st.
  - cbn. repeat split; lia.
  - cbn [run_generate].
    pose proof (generate_rounds lower max_rounds answer st req) as Hg.
    destruct (Dialogue.generate_clarifying_questions lower max_rounds answer st req)
      as [st1 qs] eqn:E1.
    cbn [fst] in Hg. destruct Hg as [Hh Hr].
    specialize (IH st1).
    destruct (run_generate lower max_rounds calls st1) as [st2 out] eqn:E2.
    cbn [fst snd] in *. destruct IH as (I1 & I2 & I3 & I4 & I5).
    assert (Hf : Py.len (filter answered ((answer, req) :: calls))
                 = Py.len (filter answered calls)
                   + (if answered (answer, req) then 1 else 0)).
    { cbn [filter]. destruct (answered (answer, req)); [| lia].
      unfold Py.len. cbn [List.length]. lia. }
    pose proof (len_nonneg _ (filter answered calls)) as Hn.
    split; [congruence |]. split; [lia |]. split; [lia |]. split.
    + rewrite Hf. destruct Hr as [Hr | (Hr & _ & Ha)]; [destruct (answered _); lia |].
      destruct answer as [a|]; [cbn [answered fst]; lia | contradiction].
    + cbn [List.length]. now rewrite I5.
Qed.

(** X24. One manager, any list of requests, whatever the model does on
    each: the number of rounds counted never passes the limit nor the
    number of calls that the model answered, the history stays empty,
    and once the limit is reached every later call, also for a new
    request, returns no question and changes nothing. A call on which
    the model fails is not counted. *)
Theorem clarification_rounds_bounded :
  forall (lower : Py.str -> Py.str) (max_rounds : Z)
         (calls : list (option Py.str * Py.str)),
    0 <= max_rounds ->
    0 <= Dialogue.clarification_rounds
           (fst (run_generate lower max_rounds calls Dialogue.new_state))
      <= max_rounds
    /\ Dialogue.clarification_rounds
         (fst (run_generate lower max_rounds calls Dialogue.new_state))
       <= Py.len (filter answered calls)
    /\ Dialogue.conversation_history
         (fst (run_generate lower max_rounds calls Dialogue.new_state)) = []
    /\ (Dialogue.clarification_rounds
          (fst (run_generate lower max_rounds calls Dialogue.new_state))
        = max_rounds ->
        forall more,
          run_generate lower max_rounds more
            (fst (run_generate lower max_rounds calls Dialogue.new_state))
          = (fst (run_generate lower max_rounds calls Dialogue.new_state),
             map (fun _ => []) more))
    /\ (forall st user_request,
           fst (Dialogue.generate_clarifying_questions lower max_rounds None
                  st user_request) = st).
Proof.
  intros lower max_rounds calls Hmax.
  pose proof (run_generate_invariant lower max_rounds calls Dialogue.new_state)
    as (I1 & I2 & I3 & I4 & _).
  set (st := fst (run_generate lower max_rounds calls Dialogue.new_state)) in *.
  change (Dialogue.clarification_rounds Dialogue.new_state) with 0 in *.
  split; [lia |]. split; [lia |]. split; [exact I1 |]. split.
  - intros Hfull. induction more as [|[answer req] more IH]; [reflexivity |].
    cbn [run_generate]. unfold Dialogue.generate_clarifying_questions.
    assert (Hge : (Dialogue.clarification_rounds st >=? max_rounds) = true)
      by (apply geb_true_le; lia).
    rewrite Hge, IH. reflexivity.
  - intros st0 req. unfold Dialogue.generate_clarifying_questions.
    destruct (Dialogue.clarification_rounds st0 >=? max_rounds); reflexivity.
Qed.

Lemma clarification_rounds_example :
  0 <= Dialogue.clarification_rounds
         (fst (run_generate Py.lower 1
                 [(Some (Py.u "Кто идет"), DialogueExamples.vague);
                  (None, DialogueExamples.vague);
                  (Some (Py.u "Что любите"), DialogueExamples.vague)]
                 Dialogue.new_state))
    <= 1.
Proof.
  destruct (clarification_rounds_bounded Py.lower 1
              [(Some (Py.u "Кто идет"), DialogueExamples.vague);
               (None, DialogueExamples.vague);
               (Some (Py.u "Что любите"), DialogueExamples.vague)])
    as [H _]; [lia | exact H].
Defined.

Lemma run_generate_example :
  run_generate Py.lower 1
    [(Some (Py.u "Кто идет"), DialogueExamples.vague);
     (None, DialogueExamples.vague);
     (Some (Py.u "Что любите"), DialogueExamples.vague)]
    Dialogue.new_state
  = (DialogueExamples.after_one_round, [[Py.u "Кто идет?"]; []; []]).
Proof. vm_compute. reflexivity. Qed.

(** ** The dialogue: history and enhanced request *)

Lemma history_record : forall exchanges st,
    Dialogue.conversation_history (record_exchanges exchanges st)
    = Dialogue.conversation_history st
      ++ List.concat (map exchange_lines exchanges).
Proof.
  induction exchanges as [|ex exchanges IH]; intros st.
  - cbn. now rewrite app_nil_r.
  - unfold record_exchanges in *. cbn [fold_left map List.concat].
    rewrite IH. unfold Dialogue.add_to_history at 1.
    cbn [Dialogue.conversation_history]. unfold exchange_lines at 2.
    rewrite <- !app_assoc. reflexivity.
Qed.

Lemma rounds_record : forall exchanges st,
    Dialogue.clarification_rounds (record_exchanges exchanges st)
    = Dialogue.clarification_rounds st.
Proof.
  induction exchanges as [|ex exchanges IH]; intros st; [reflexivity |].
  unfold record_exchanges in *. cbn [fold_left]. now rewrite IH.
Qed.

Lemma last_items_skipn : forall (A : Type) (l : list A) k,
    0 < k -> PyStr.last_items l k = skipn (List.length l - Z.to_nat k) l.
Proof.
  intros A l k Hk. unfold PyStr.last_items, Py.slice, Py.adjust.
  pose proof (len_nonneg A l) as Hn.
  destruct (- k <? 0) eqn:E1; [| apply Z.ltb_ge in E1; lia].
  destruct (Py.len l <? 0) eqn:E2; [apply Z.ltb_lt in E2; lia |].
  rewrite Z.min_id.
  replace (Z.to_nat (Z.max 0 (Py.len l + - k)))
    with (List.length l - Z.to_nat k)%nat by (unfold Py.len; lia).
  apply firstn_all2. rewrite length_skipn. unfold Py.len. lia.
Qed.

Lemma length_lines : forall exchanges,
    List.length (List.concat (map exchange_lines exchanges))
    = (List.length exchanges + List.length exchanges)%nat.
Proof.
  induction exchanges as [|ex exchanges IH]; [reflexivity |].
  cbn [map List.concat]. rewrite length_app, IH. cbn. lia.
Qed.

Lemma skipn_lines : forall k exchanges,
    skipn (k + k) (List.concat (map exchange_lines exchanges))
    = List.concat (map exchange_lines (skipn k exchanges)).
Proof.
  induction k as [|k IH]; intros exchanges; [reflexivity |].
  destruct exchanges as [|ex exchanges]; [reflexivity |].
  replace (S k + S k)%nat with (S (S (k + k))) by lia.
  cbn [map List.concat exchange_lines app skipn]. apply IH.
Qed.

(** From an empty history, the enhanced request is made of the lines of
    the last three exchanges. *)
Lemma enhanced_request_record : forall exchanges st,
    Dialogue.conversation_history st = [] ->
    Dialogue.get_enhanced_request (record_exchanges exchanges st)
    = Py.join [10%N] (List.concat (map exchange_lines (last_n 3 exchanges))).
Proof.
  intros exchanges st Hst. unfold Dialogue.get_enhanced_request.
  rewrite history_record, Hst. cbn [app].
  destruct exchanges as [|ex exchanges]; [reflexivity |].
  set (exs := ex :: exchanges).
  assert (Hne : Py.nonempty (List.concat (map exchange_lines exs)) = true)
    by reflexivity.
  rewrite Hne. cbn [negb]. rewrite last_items_skipn by lia.
  rewrite length_lines. unfold last_n.
  replace (List.length exs + List.length exs - Z.to_nat 6)%nat
    with ((List.length exs - 3) + (List.length exs - 3))%nat by lia.
  now rewrite skipn_lines.
Qed.

(** X25. After a reset and any number of calls of [add_to_history], what
    [get_enhanced_request] returns is the two lines of each of the last
    three exchanges, joined by line breaks: the empty text when there was
    no exchange, and nothing of an exchange older than the last three. *)
Theorem enhanced_request_last_three :
  forall exchanges : list (Py.str * Py.str),
    Dialogue.get_enhanced_request
      (record_exchanges exchanges (Dialogue.reset Dialogue.new_state))
    = Py.join [10%N] (List.concat (map exchange_lines (last_n 3 exchanges))).
Proof.
  intros exchanges. now apply enhanced_request_record.
Qed.

Lemma fallback_questions_nonempty : forall lower analysis user_request,
    Dialogue.needs_clarification lower analysis user_request = true ->
    Dialogue._get_fallback_questions (Dialogue.missing_info lower user_request)
    <> [].
Proof.
  intros lower analysis user_request.
  unfold Dialogue.needs_clarification, Dialogue.missing_info.
  destruct (Dialogue.has_age lower user_request),
           (Dialogue.has_relationship lower user_request);
    cbn [andb]; try discriminate; intros _;
    destruct (Dialogue.has_interests lower user_request);
    vm_compute; discriminate.
Qed.

(** X26. [continue_dialogue] on the context that [DialogueStep] wrote,
    for a manager without history. When no clarification was needed the
    context comes back as it is. When it was needed and the step produced
    no question, the call raises IndexError; this is the case exactly when
    the limit of rounds was reached or the model gave a blank answer. In
    the other case the enhanced request becomes the answer and the first
    question, each on its line: the original request is not part of it. *)
Theorem continue_dialogue_after_step :
  forall (lower : Py.str -> Py.str) (max_rounds : Z)
         (analysis answer : option Py.str) (st st1 : Dialogue.State)
         (user_request user_response : Py.str) (context : Dialogue.Context),
    Dialogue.conversation_history st = [] ->
    Dialogue.dialogue_step lower max_rounds analysis answer st user_request
    = (st1, context) ->
    (Dialogue.needs_clarification lower analysis user_request = false ->
     Dialogue.continue_dialogue st1 user_response context = Ok (st1, context)
     /\ Dialogue.enhanced_request context = user_request)
    /\ (Dialogue.needs_clarification lower analysis user_request = true ->
        match Dialogue.clarifying_questions context with
        | [] =>
          Dialogue.continue_dialogue st1 user_response context = Raise IndexError
        | q :: _ =>
          exists st2 context2,
            Dialogue.continue_dialogue st1 user_response context
            = Ok (st2, context2)
            /\ Dialogue.enhanced_request context2
               = (Py.u "Пользователь: " ++ user_response) ++ [10%N]
                 ++ (Py.u "Ассистент: " ++ q)
            /\ Dialogue.clarifying_questions context2
               = Dialogue.clarifying_questions context
        end)
    /\ (Dialogue.needs_clarification lower analysis user_request = true ->
        (Dialogue.clarifying_questions context = []
         <-> max_rounds <= Dialogue.clarification_rounds st
             \/ exists a, answer = Some a /\ Py.strip a = [])).
Proof.
  intros lower max_rounds analysis answer st st1 user_request user_response
         context Hst Hstep.
  unfold Dialogue.dialogue_step in Hstep.
  destruct (Dialogue.needs_clarification lower analysis user_request) eqn:En.
  - destruct (Dialogue.generate_clarifying_questions lower max_rounds answer st
                user_request) as [st' questions] eqn:Eg.
    injection Hstep as <- <-.
    assert (Hh : Dialogue.conversation_history st' = []).
    { pose proof (generate_rounds lower max_rounds answer st user_request) as Hg.
      rewrite Eg in Hg. cbn [fst] in Hg. destruct Hg as [Hg _]. congruence. }
    split; [discriminate |]. split.
    + intros _. cbn [Dialogue.clarifying_questions].
      unfold Dialogue.continue_dialogue.
      cbn [Dialogue.has_dialogue_manager Dialogue.clarifying_questions].
      destruct questions as [|q rest]; [reflexivity |].
      cbn [Py.index Z.ltb Z.compare Z.to_nat nth_error].
      eexists. eexists. split; [reflexivity |].
      cbn [Dialogue.enhanced_request Dialogue.clarifying_questions].
      split; [| reflexivity].
      change (Dialogue.add_to_history st' user_response q)
        with (record_exchanges [(user_response, q)] st').
      rewrite (enhanced_request_record [(user_response, q)] st' Hh).
      reflexivity.
    + intros _. cbn [Dialogue.clarifying_questions].
      unfold Dialogue.generate_clarifying_questions in Eg.
      destruct (Dialogue.clarification_rounds st >=? max_rounds) eqn:Er.
      * injection Eg as <- <-. apply geb_true_le in Er.
        split; [intros _; now left | reflexivity].
      * apply geb_false_lt in Er. destruct answer as [a|].
        -- injection Eg as <- <-.
           destruct (Py.strip a) as [|c q0] eqn:Es.
           ++ cbn. split; [intros _; right; now exists a | reflexivity].
           ++ cbn [Py.nonempty andb].
              destruct (negb (PyStr.endswith (c :: q0) [Dialogue.question_mark]));
                cbn [app Py.nonempty];
                (split; [discriminate |]);
                (intros [Hlim | (a' & Ha & Hs)];
                 [lia | injection Ha as <-; rewrite Es in Hs; discriminate]).
        -- injection Eg as <- <-. split.
           ++ intros Hq. exfalso.
              now apply (fallback_questions_nonempty lower analysis user_request En).
           ++ intros [Hlim | (a' & Ha & _)]; [lia | discriminate].
  - injection Hstep as <- <-. split; [| split; discriminate].
    intros _. split; reflexivity.
Qed.

Lemma continue_dialogue_blank_answer_example :
  Dialogue.continue_dialogue
    {| Dialogue.conversation_history := [];
       Dialogue.clarification_rounds := 1 |}
    (Py.u "мне 30")
    {| Dialogue.enhanced_request := DialogueExamples.vague;
       Dialogue.needs_clarification_flag := true;
       Dialogue.clarifying_questions := [];
       Dialogue.has_dialogue_manager := true |}
  = Raise IndexError.
Proof.
  destruct (continue_dialogue_after_step Py.lower 2 None (Some (Py.u "   "))
              Dialogue.new_state
              {| Dialogue.conversation_history := [];
                 Dialogue.clarification_rounds := 1 |}
              DialogueExamples.vague (Py.u "мне 30")
              {| Dialogue.enhanced_request := DialogueExamples.vague;
                 Dialogue.needs_clarification_flag := true;
                 Dialogue.clarifying_questions := [];
                 Dialogue.has_dialogue_manager := true |})
    as (_ & H & _).
  - reflexivity.
  - vm_compute. reflexivity.
  - apply H. vm_compute. reflexivity.
Defined.

Lemma continue_all_spec : forall responses st context q rest,
    Dialogue.has_dialogue_manager context = true ->
    Dialogue.clarifying_questions context = q :: rest ->
    exists context',
      continue_all responses st context
      = Ok (record_exchanges (map (fun r => (r, q)) responses) st, context')
      /\ Dialogue.has_dialogue_manager context' = true
      /\ Dialogue.clarifying_questions context' = q :: rest
      /\ (responses <> [] ->
          Dialogue.enhanced_request context'
          = Dialogue.get_enhanced_request
              (record_exchanges (map (fun r => (r, q)) responses) st)).
Proof.
  induction responses as [|r responses IH]; intros st context q rest Hm Hq.
  - exists context. repeat split; try assumption. intros H. now contradiction H.
  - cbn [continue_all]. unfold Dialogue.continue_dialogue. rewrite Hm, Hq.
    cbn [Py.index Z.ltb Z.compare Z.to_nat nth_error].
    set (st1 := Dialogue.add_to_history st r q).
    set (context1 := {| Dialogue.enhanced_request := Dialogue.get_enhanced_request st1;
                        Dialogue.needs_clarification_flag :=
                          Dialogue.needs_clarification_flag context;
                        Dialogue.clarifying_questions := q :: rest;
                        Dialogue.has_dialogue_manager := true |}).
    destruct (IH st1 context1 q rest eq_refl eq_refl)
      as (context' & Hrun & Hm' & Hq' & He).
    exists context'. split; [exact Hrun |]. split; [exact Hm' |].
    split; [exact Hq' |]. intros _.
    destruct responses as [|r' responses'].
    + cbn [continue_all] in Hrun. injection Hrun as <-. reflexivity.
    + apply He. discriminate.
Qed.

(** X27. Answers given one after the other through [continue_dialogue],
    on the context of a step that asked at least one question and with
    a manager without history: every answer is recorded against the
    first question, whichever question was answered, and the enhanced
    request is made of the last three of these exchanges. *)
Theorem continue_dialogue_records_first_question :
  forall (responses : list Py.str) (st : Dialogue.State)
         (context : Dialogue.Context) (q : Py.str) (rest : list Py.str),
    Dialogue.has_dialogue_manager context = true ->
    Dialogue.clarifying_questions context = q :: rest ->
    Dialogue.conversation_history st = [] ->
    responses <> [] ->
    exists st' context',
      continue_all responses st context = Ok (st', context')
      /\ Dialogue.conversation_history st'
         = List.concat (map (fun r => exchange_lines (r, q)) responses)
      /\ Dialogue.clarification_rounds st' = Dialogue.clarification_rounds st
      /\ Dialogue.enhanced_request context'
         = Py.join [10%N]
             (List.concat (map (fun r => exchange_lines (r, q))
                             (last_n 3 responses))).
Proof.
  intros responses st context q rest Hm Hq Hst Hne.
  destruct (continue_all_spec responses st context q rest Hm Hq)
    as (context' & Hrun & _ & _ & He).
  exists (record_exchanges (map (fun r => (r, q)) responses) st), context'.
  split; [exact Hrun |]. split; [| split].
  - rewrite history_record, Hst, map_map. reflexivity.
  - apply rounds_record.
  - rewrite (He Hne), (enhanced_request_record _ st Hst).
    unfold last_n. rewrite length_map, skipn_map, map_map. reflexivity.
Qed.

Lemma continue_dialogue_two_answers_example :
  exists st' context',
    continue_all [Py.u "мне 30"; Py.u "с другом"] Dialogue.new_state
      {| Dialogue.enhanced_request := DialogueExamples.vague;
         Dialogue.needs_clarification_flag := true;
         Dialogue.clarifying_questions :=
           [Dialogue.age_question; Dialogue.company_question];
         Dialogue.has_dialogue_manager := true |}
    = Ok (st', context')
    /\ Dialogue.conversation_history st'
       = [ Py.u "Пользователь: мне 30";
           Py.u "Ассистент: " ++ Dialogue.age_question;
           Py.u "Пользователь: с другом";
           Py.u "Ассистент: " ++ Dialogue.age_question ].
Proof.
  destruct (continue_dialogue_records_first_question
              [Py.u "мне 30"; Py.u "с другом"] Dialogue.new_state
              {| Dialogue.enhanced_request := DialogueExamples.vague;
                 Dialogue.needs_clarification_flag := true;
                 Dialogue.clarifying_questions :=
                   [Dialogue.age_question; Dialogue.company_question];
                 Dialogue.has_dialogue_manager := true |}
              Dialogue.age_question [Dialogue.company_question])
    as (st' & context' & Hrun & Hh & _).
  - reflexivity.
  - reflexivity.
  - reflexivity.
  - discriminate.
  - exists st', context'. split; [exact Hrun |]. rewrite Hh.
    vm_compute. reflexivity.
Defined.

(** ** The response built without the model *)

Lemma combine_fst : forall (A B : Type) (l : list A) (m : list B),
    map fst (combine l m) = firstn (List.length m) l.
Proof.
  intros A B. induction l as [|x l IH]; intros [|y m]; try reflexivity.
  cbn. f_equal. apply IH.
Qed.

Lemma combine_snd : forall (A B : Type) (l : list A) (m : list B),
    map snd (combine l m) = firstn (List.length l) m.
Proof.
  intros A B. induction l as [|x l IH]; intros [|y m]; try reflexivity.
  cbn. f_equal. apply IH.
Qed.

Lemma join_head_nonempty : forall sep p rest,
    p <> [] -> Py.join sep (p :: rest) <> [].
Proof.
  intros sep p rest Hp. cbn [Py.join]. destruct rest as [|p' rest]; [exact Hp |].
  intros H. apply app_eq_nil in H. now destruct H.
Qed.

Lemma why_fit_parts_nonempty : forall lower e doc,
    Forall (fun p => p <> []) (Response.why_fit_parts lower e doc).
Proof.
  intros lower e doc. unfold Response.why_fit_parts.
  apply Forall_app; split; [| apply Forall_app; split].
  - destruct (Py.nonempty (Ner.hobbies e)); [| constructor].
    destruct (Py.nonempty (filter _ (Ner.hobbies e))); constructor;
      [| constructor].
    intros H. apply app_eq_nil in H. destruct H as [H _].
    vm_compute in H. discriminate.
  - destruct (Ner.relationship e) as [r|]; [| constructor].
    destruct (Py.nonempty r); [| constructor].
    destruct (Py.nonempty (filter _ (audience doc))); constructor;
      [vm_compute; discriminate | constructor].
  - destruct (Py.nonempty (Ner.preferred_styles e)); [| constructor].
    destruct (Py.nonempty (filter _ (Ner.preferred_styles e))); constructor;
      [vm_compute; discriminate | constructor].
Qed.

Lemma why_fit_nonempty : forall lower e doc score,
    Response.why_fit (Response.recommendation_of lower e doc score) <> [].
Proof.
  intros lower e doc score. unfold Response.recommendation_of.
  cbn [Response.why_fit].
  pose proof (why_fit_parts_nonempty lower e doc) as Hp.
  destruct (Response.why_fit_parts lower e doc) as [|p rest].
  - vm_compute. discriminate.
  - cbn [Py.nonempty]. apply join_head_nonempty.
    now inversion Hp.
Qed.

Lemma short_description_shape : forall lower e doc score,
    PyStr.endswith
      (Response.short_description (Response.recommendation_of lower e doc score))
      (Py.u "...") = true
    /\ 3 <= Py.len (Response.short_description
                      (Response.recommendation_of lower e doc score)) <= 153.
Proof.
  intros lower e doc score. unfold Response.recommendation_of.
  cbn [Response.short_description]. split; [apply endswith_app |].
  rewrite len_app.
  pose proof (take_len_le _ (description doc) 150 ltac:(lia)) as H1.
  pose proof (len_nonneg _ (Py.take (description doc) 150)) as H2.
  change (Py.len (Py.u "...")) with 3. lia.
Qed.

(** X28. The response built when the model gives no usable JSON: one
    recommendation per pair of a document and a score, in order (the
    longer of the two lists is cut), with the identifier of the document
    and the score as confidence. Every explanation is a text that is not
    empty, and it is the general one when the entities hold no hobby, no
    relationship and no style. Every short description ends with three
    dots, also when nothing was cut, and is at most 153 characters
    long. *)
Theorem fallback_json_recommendations :
  forall (lower : Py.str -> Py.str) (summary : Py.str) (e : Ner.Entities)
         (recs : list MuseumDocument) (scores : list Q),
    Py.len (Response.recommendations
              (Response._create_fallback_json lower summary e recs scores))
    = Z.min (Py.len recs) (Py.len scores)
    /\ map Response.rec_id
         (Response.recommendations
            (Response._create_fallback_json lower summary e recs scores))
       = map doc_id (firstn (List.length scores) recs)
    /\ map Response.confidence
         (Response.recommendations
            (Response._create_fallback_json lower summary e recs scores))
       = firstn (List.length recs) scores
    /\ Forall (fun r =>
                 Response.why_fit r <> []
                 /\ PyStr.endswith (Response.short_description r) (Py.u "...")
                    = true
                 /\ 3 <= Py.len (Response.short_description r) <= 153)
         (Response.recommendations
            (Response._create_fallback_json lower summary e recs scores))
    /\ (Ner.hobbies e = [] -> Ner.relationship e = None ->
        Ner.preferred_styles e = [] ->
        Forall (fun r => Response.why_fit r = Response.general_fit)
          (Response.recommendations
             (Response._create_fallback_json lower summary e recs scores))).
Proof.
  intros lower summary e recs scores. unfold Response._create_fallback_json.
  cbn [Response.recommendations].
  split; [| split; [| split; [| split]]].
  - unfold Py.len. rewrite length_map, length_combine. lia.
  - rewrite map_map. cbn [Response.recommendation_of Response.rec_id].
    rewrite <- (map_map fst doc_id). now rewrite combine_fst.
  - rewrite map_map. cbn [Response.recommendation_of Response.confidence].
    apply combine_snd.
  - apply Forall_forall. intros r Hr. apply in_map_iff in Hr.
    destruct Hr as ([doc score] & <- & _). cbn [fst snd].
    split; [apply why_fit_nonempty | apply short_description_shape].
  - intros Hh Hr Hs. apply Forall_forall. intros r Hin.
    apply in_map_iff in Hin. destruct Hin as ([doc score] & <- & _).
    cbn [fst snd]. unfold Response.recommendation_of, Response.why_fit_parts.
    cbn [Response.why_fit]. rewrite Hh, Hr, Hs. reflexivity.
Qed.

Lemma fallback_json_example :
  Forall (fun r => Response.why_fit r = Response.general_fit)
    (Response.recommendations
       (Response._create_fallback_json Py.lower (Py.u "s") Ner.no_entities
          [Examples.d1; Examples.d2] [(3 # 4)%Q])).
Proof.
  apply (fallback_json_recommendations Py.lower (Py.u "s") Ner.no_entities
           [Examples.d1; Examples.d2] [(3 # 4)%Q]); reflexivity.
Defined.

Lemma execute_same_length : forall encode cfg st e out,
    Pipeline.execute encode cfg st e = Ok out ->
    List.length (Pipeline.search_results out)
    = List.length (Pipeline.similarity_scores out).
Proof.
  intros encode cfg st e out. unfold Pipeline.execute.
  destruct (Pipeline.run encode cfg st (Pipeline.primary_request cfg e))
    as [results | err]; [| discriminate].
  assert (Hm : List.length (map fst results) = List.length (map snd results))
    by now rewrite !length_map.
  destruct (Py.len (map fst results) <? top_k cfg).
  - destruct (Pipeline.run encode cfg st (Pipeline.fallback_request cfg e))
      as [fallback | err]; [| discriminate].
    pose proof (merge_same_length (map doc_id (map fst results)) (top_k cfg)
                  fallback _ _ Hm) as Hl.
    destruct (Pipeline.merge _ _ fallback _ _) as [docs' scores'].
    cbn [fst snd] in Hl. intros H. injection H as <-.
    cbn [Pipeline.search_results Pipeline.similarity_scores].
    apply Nat2Z.inj. apply (take_same_length _ _ docs' scores' _ Hl).
  - intros H. injection H as <-.
    cbn [Pipeline.search_results Pipeline.similarity_scores].
    apply Nat2Z.inj. apply (take_same_length _ _ _ _ _ Hm).
Qed.

Lemma execute_length_le : forall encode cfg st e out,
    0 <= top_k cfg ->
    Pipeline.execute encode cfg st e = Ok out ->
    Py.len (Pipeline.search_results out) <= top_k cfg.
Proof.
  intros encode cfg st e out Hk. unfold Pipeline.execute.
  destruct (Pipeline.run encode cfg st (Pipeline.primary_request cfg e))
    as [results | err]; [| discriminate].
  destruct (Py.len (map fst results) <? top_k cfg).
  - destruct (Pipeline.run encode cfg st (Pipeline.fallback_request cfg e))
      as [fallback | err]; [| discriminate].
    destruct (Pipeline.merge _ _ fallback _ _) as [docs' scores'].
    intros H. injection H as <-. cbn [Pipeline.search_results].
    now apply take_len_le.
  - intros H. injection H as <-. cbn [Pipeline.search_results].
    now apply take_len_le.
Qed.

(** X29. The search step and the response built without the model, one
    after the other: whenever the step returns, the response lists
    exactly the documents of the step, in order, each with its score
    (as penalised by the step) as confidence; no document is lost when
    documents and scores are paired, and for [top_k >= 0] there are at
    most [top_k] recommendations. *)
Theorem fallback_json_of_search_step :
  forall (encode : Py.str -> Faiss.vec) (cfg : Settings) (st : VectorStore)
         (lower : Py.str -> Py.str) (summary : Py.str) (e : Ner.Entities)
         (out : Pipeline.Output),
    0 <= top_k cfg ->
    Pipeline.execute encode cfg st (Ner.to_search e) = Ok out ->
    map Response.rec_id
      (Response.recommendations
         (Response._create_fallback_json lower summary e
            (Pipeline.search_results out) (Pipeline.similarity_scores out)))
    = map doc_id (Pipeline.search_results out)
    /\ map Response.confidence
         (Response.recommendations
            (Response._create_fallback_json lower summary e
               (Pipeline.search_results out) (Pipeline.similarity_scores out)))
       = Pipeline.similarity_scores out
    /\ Py.len (Response.recommendations
                 (Response._create_fallback_json lower summary e
                    (Pipeline.search_results out)
                    (Pipeline.similarity_scores out)))
       <= top_k cfg.
Proof.
  intros encode cfg st lower summary e out Hk Hrun.
  pose proof (execute_same_length _ _ _ _ _ Hrun) as Hlen.
  pose proof (execute_length_le _ _ _ _ _ Hk Hrun) as Hle.
  unfold Response._create_fallback_json. cbn [Response.recommendations].
  split; [| split].
  - rewrite map_map. cbn [Response.recommendation_of Response.rec_id].
    rewrite <- (map_map fst doc_id), combine_fst, <- Hlen.
    now rewrite firstn_all.
  - rewrite map_map. cbn [Response.recommendation_of Response.confidence].
    rewrite combine_snd, Hlen. apply firstn_all.
  - unfold Py.len in *. rewrite length_map, length_combine, <- Hlen.
    rewrite Nat.min_id. exact Hle.
Qed.

Lemma fallback_json_of_search_step_example :
  exists out,
    Pipeline.execute Examples.toy_encode (Examples.cfg_k 1) Examples.store3
      (Ner.to_search ResponseExamples.history_fan) = Ok out
    /\ map Response.rec_id
         (Response.recommendations
            (Response._create_fallback_json Py.lower (Py.u "s")
               ResponseExamples.history_fan
               (Pipeline.search_results out) (Pipeline.similarity_scores out)))
       = [Py.u "d2"].
Proof.
  assert (Hrun : Pipeline.execute Examples.toy_encode (Examples.cfg_k 1)
                   Examples.store3 (Ner.to_search ResponseExamples.history_fan)
                 = Ok {| Pipeline.search_results := [Examples.d2];
                         Pipeline.similarity_scores := [(336 # 1)%Q];
                         Pipeline.search_query :=
                           Pipeline._build_search_query Examples.history_fan;
                         Pipeline.search_calls :=
                           [Pipeline.primary_request (Examples.cfg_k 1)
                              Examples.history_fan] |})
    by (vm_compute; reflexivity).
  eexists. split; [exact Hrun |].
  destruct (fallback_json_of_search_step Examples.toy_encode (Examples.cfg_k 1)
              Examples.store3 Py.lower (Py.u "s") ResponseExamples.history_fan
              _ ltac:(cbn; lia) Hrun) as (Hids & _).
  rewrite Hids. reflexivity.
Defined.

(* ================================================================== *)
(** * Part IV: ties, and calls that raise *)
(* ================================================================== *)

(** ** [VectorStore.search] when no two scores are equal *)

(** A list in strictly descending order of score is the only ordered
    arrangement of its hits. *)
Lemma sorted_perm_unique : forall l1 l2 : list Faiss.hit,
    StronglySorted hit_above l1 ->
    StronglySorted hit_desc l2 ->
    Permutation l1 l2 ->
    l1 = l2.
Proof.
  induction l1 as [|a l1 IH]; intros l2 H1 H2 P.
  - apply Permutation_nil in P. now subst.
  - destruct l2 as [|b l2];
      [apply Permutation_sym, Permutation_nil in P; discriminate |].
    inversion H1 as [|? ? S1 F1]; inversion H2 as [|? ? S2 F2]; subst.
    assert (Hab : a = b).
    { assert (Ha : In a (b :: l2))
        by (apply (Permutation_in a P); now left).
      destruct Ha as [Ha | Ha]; [now symmetry |].
      assert (Hb : In b (a :: l1))
        by (apply (Permutation_in b (Permutation_sym P)); now left).
      destruct Hb as [Hb | Hb]; [exact Hb |].
      rewrite Forall_forall in F1, F2.
      specialize (F1 b Hb). specialize (F2 a Ha).
      unfold hit_above in F1. unfold hit_desc in F2.
      exfalso. exact (Qlt_not_le _ _ F1 F2). }
    subst b. f_equal. apply IH; try assumption.
    now apply Permutation_cons_inv in P.
Qed.

(** X4. On a store as [add_documents] leaves it when identifiers are
    distinct, for a positive number [k] of results asked for and a query
    whose scores on the stored vectors are pairwise different: with
    [hits] the (score, position) pairs of the index in strictly
    descending order of score, [search] returns the documents of the
    first [min(2k, n)] hits, in this order, without those that fail a
    filter in force, cut after the first [k]. A document ranked beyond
    [2k] is never returned, also when fewer than [k] documents pass the
    filters. (Among equal scores the order is the index's own, and
    nothing is said here.) *)
Theorem search_closed_form :
  forall (encode : Py.str -> Faiss.vec) (cfg : Settings)
         (st : VectorStore) (query : Py.str) (arg : option Z)
         (filter_tags filter_audience : option (list Py.str))
         (xb : list Faiss.vec) (hits : list Faiss.hit),
    store_ok st ->
    index st = Some xb ->
    documents st <> [] ->
    1 <= or_default arg (top_k cfg) ->
    Permutation hits (Faiss.scored xb (encode_query encode query)) ->
    StronglySorted hit_above hits ->
    search encode cfg st query arg filter_tags filter_audience
    = Ok (firstn (Z.to_nat (or_default arg (top_k cfg)))
            (filter (fun r => passes filter_tags filter_audience (fst r))
               (candidates (documents st)
                  (firstn (Z.to_nat (Z.min (or_default arg (top_k cfg) * 2)
                                       (Py.len (documents st))))
                     hits)))).
Proof.
  intros encode cfg st query arg filter_tags filter_audience xb hits
         Hok Hxb Hne Hk Hperm Hsorted.
  assert (Hhits : hits = Faiss.ranked xb (encode_query encode query)).
  { apply sorted_perm_unique; [exact Hsorted | apply ranked_sorted |].
    eapply Permutation_trans; [exact Hperm |].
    apply Permutation_sym, ranked_perm. }
  rewrite Hhits.
  apply (search_closed encode cfg st query arg filter_tags filter_audience xb);
    assumption.
Qed.

Lemma search_closed_form_example :
  search Examples.toy_encode (Examples.cfg_k 1) Examples.store3 (Py.u "q")
    None (Some [Py.u "history"]) None
  = Ok (firstn 1
          (filter (fun r => passes (Some [Py.u "history"]) None (fst r))
             (candidates (documents Examples.store3)
                (firstn 2 [((216 # 1)%Q, 0); ((192 # 1)%Q, 1);
                           ((104 # 1)%Q, 2)])))).
Proof.
  apply (search_closed_form Examples.toy_encode (Examples.cfg_k 1)
           Examples.store3 (Py.u "q") None (Some [Py.u "history"]) None
           [[inject_Z 27]; [inject_Z 24]; [inject_Z 13]]
           [((216 # 1)%Q, 0); ((192 # 1)%Q, 1); ((104 # 1)%Q, 2)]).
  - exact store3_ok.
  - reflexivity.
  - discriminate.
  - cbn. lia.
  - vm_compute. apply Permutation_refl.
  - repeat (apply SSorted_cons; [| repeat (apply Forall_cons; [reflexivity |]);
                                   apply Forall_nil]).
    apply SSorted_nil.
Defined.

(** ** [add_documents]: calls that raise *)

Section StoreCallsFacts.

Variable encode : Py.str -> Faiss.vec.

Lemma add_documents_env_returns : forall docs st,
    add_documents_env encode Returns docs st = (add_documents encode docs st, Ok tt).
Proof. intros [|doc docs] st; reflexivity. Qed.

(** The dictionary is written whatever happens afterwards. *)
Lemma documents_add_env : forall o docs st,
    documents (fst (add_documents_env encode o docs st))
    = fold_left (fun d doc => dict_set (doc_id doc) doc d) docs (documents st).
Proof. intros [] [|doc docs] st; reflexivity. Qed.

Lemma ntotal_add_env : forall o docs st,
    ntotal (fst (add_documents_env encode o docs st))
    = (ntotal st + if reaches_index o then List.length docs else 0)%nat.
Proof.
  intros o [|doc docs] st.
  - destruct o; cbn; lia.
  - destruct o; unfold ntotal;
      cbn [add_documents_env add_documents _save_index fst index reaches_index];
      destruct (index st); cbn [List.length];
      rewrite ?length_app, ?length_map; cbn [List.length]; lia.
Qed.

Lemma add_env_live : forall o docs st,
    reaches_index o = true ->
    index (fst (add_documents_env encode o docs st))
    = index (add_documents encode docs st)
    /\ documents (fst (add_documents_env encode o docs st))
       = documents (add_documents encode docs st).
Proof.
  intros [] [|doc docs] st H; try discriminate; split; reflexivity.
Qed.

Lemma add_documents_live_ext : forall docs st1 st2,
    index st1 = index st2 -> documents st1 = documents st2 ->
    index (add_documents encode docs st1) = index (add_documents encode docs st2)
    /\ documents (add_documents encode docs st1)
       = documents (add_documents encode docs st2).
Proof.
  intros [|doc docs] st1 st2 Hi Hd; [now split |].
  cbn [add_documents _save_index index documents]. rewrite Hi, Hd. now split.
Qed.

Lemma run_calls_live : forall calls st1 st2,
    index st1 = index st2 -> documents st1 = documents st2 ->
    Forall (fun call => reaches_index (fst call) = true) calls ->
    index (run_calls encode calls st1) = index (add_all encode (map snd calls) st2)
    /\ documents (run_calls encode calls st1)
       = documents (add_all encode (map snd calls) st2).
Proof.
  induction calls as [|[o docs] calls IH]; intros st1 st2 Hi Hd Hall;
    [now split |].
  inversion Hall as [|? ? Ho Hrest]; subst. cbn [fst] in Ho.
  unfold run_calls, add_all in *. cbn [fold_left map fst snd].
  destruct (add_env_live o docs st1 Ho) as [Ei Ed].
  destruct (add_documents_live_ext docs st1 st2 Hi Hd) as [Ei' Ed'].
  apply IH; [congruence | congruence | exact Hrest].
Qed.

Lemma documents_run_calls : forall calls st,
    documents (run_calls encode calls st)
    = fold_left (fun d doc => dict_set (doc_id doc) doc d)
        (List.concat (map snd calls)) (documents st).
Proof.
  induction calls as [|[o docs] calls IH]; intros st; [reflexivity |].
  unfold run_calls in *. cbn [fold_left map List.concat fst snd].
  rewrite IH, documents_add_env. now rewrite fold_left_app.
Qed.

Lemma ntotal_run_calls : forall calls st,
    ntotal (run_calls encode calls st)
    = (ntotal st
       + List.length
           (List.concat
              (map snd (filter (fun call => reaches_index (fst call)) calls))))%nat.
Proof.
  induction calls as [|[o docs] calls IH]; intros st; [cbn; lia |].
  unfold run_calls in *. cbn [fold_left fst snd filter].
  rewrite IH, ntotal_add_env.
  destruct (reaches_index o); cbn [map List.concat snd];
    rewrite ?length_app; lia.
Qed.

(** C8, as the code has it. Starting from an aligned store (a new store
    is one), after any sequence of [add_documents] calls whose
    identifiers are new and pairwise distinct and of which every one got
    as far as adding its vectors to the index (it returned, or it raised
    only while saving): the dictionary lists the documents in the order
    they were added, the index holds one vector per document, and the
    vector at position [i] is the embedding of the document whose key is
    the [i]-th key, so that going from a hit position through
    [list(documents.keys())[i]] and [documents[doc_id]], as [search]
    does, yields the document whose vector was hit. *)
Theorem add_documents_keeps_positions :
  forall (calls : list (outcome * list MuseumDocument)) (st : VectorStore),
    aligned encode st ->
    Forall (fun call => reaches_index (fst call) = true) calls ->
    NoDup (keys (documents st) ++ map doc_id (List.concat (map snd calls))) ->
    documents (run_calls encode calls st)
    = documents st
      ++ map (fun doc => (doc_id doc, doc)) (List.concat (map snd calls))
    /\ (forall xb, index (run_calls encode calls st) = Some xb ->
                   List.length xb
                   = List.length (documents (run_calls encode calls st)))
    /\ (forall xb i v,
           index (run_calls encode calls st) = Some xb ->
           nth_error xb i = Some v ->
           exists id doc,
             Py.index (keys (documents (run_calls encode calls st)))
               (Z.of_nat i) = Some id
             /\ dict_get id (documents (run_calls encode calls st)) = Some doc
             /\ doc_id doc = id
             /\ v = encode (embedded_text doc)).
Proof.
  intros calls st Hal Hall Hfresh.
  destruct (run_calls_live calls st st eq_refl eq_refl Hall) as [Ei Ed].
  rewrite Ei, Ed.
  apply (add_all_keeps_positions encode (map snd calls) st Hal Hfresh).
Qed.

(** X2. On a new store, after any sequence of [add_documents] calls,
    whether they return or raise: the index holds one vector per document
    of the calls that got as far as [index.add], and the dictionary never
    holds more documents than were passed. When every call got that far
    (it returned, or raised only while saving), the store is as [search]
    needs it (one vector per key, every key the identifier of its
    document) exactly when no identifier was added twice. *)
Theorem store_ok_iff_distinct_ids :
  forall calls : list (outcome * list MuseumDocument),
    ntotal (run_calls encode calls empty_store)
    = List.length
        (List.concat
           (map snd (filter (fun call => reaches_index (fst call)) calls)))
    /\ (List.length (documents (run_calls encode calls empty_store))
        <= List.length (List.concat (map snd calls)))%nat
    /\ (Forall (fun call => reaches_index (fst call) = true) calls ->
        (store_ok (run_calls encode calls empty_store)
         <-> NoDup (map doc_id (List.concat (map snd calls))))).
Proof.
  intros calls. split; [| split].
  - now rewrite ntotal_run_calls.
  - rewrite documents_run_calls.
    destruct (fold_dict_set_length (List.concat (map snd calls)) [])
      as [Hle _]; [constructor | exact Hle].
  - intros Hall.
    destruct (run_calls_live calls empty_store empty_store eq_refl eq_refl Hall)
      as [Ei Ed].
    destruct (add_all_store_ok_iff encode (map snd calls)) as (_ & _ & Hiff).
    unfold store_ok in *. rewrite Ei, Ed. exact Hiff.
Qed.

End StoreCallsFacts.

Lemma add_documents_keeps_positions_example :
  exists id doc,
    Py.index
      (keys (documents (run_calls Examples.toy_encode
                          CallExamples.three_batches empty_store))) 2 = Some id
    /\ dict_get id
         (documents (run_calls Examples.toy_encode
                       CallExamples.three_batches empty_store)) = Some doc
    /\ doc_id doc = id
    /\ [inject_Z 13] = Examples.toy_encode (embedded_text doc).
Proof.
  destruct (add_documents_keeps_positions Examples.toy_encode
              CallExamples.three_batches empty_store)
    as (_ & _ & H).
  - apply empty_store_aligned.
  - repeat constructor.
  - nodup_concrete.
  - apply (H [[inject_Z 27]; [inject_Z 24]; [inject_Z 13]] 2%nat); reflexivity.
Defined.

(** The embedding model fails on a first batch, a second batch with
    another identifier goes through: the dictionary holds the keys of
    both, the index holds the one vector of the second, and the position
    of that vector leads to the document of the first batch. A search
    then returns this document, with the score of the other. *)
Lemma add_documents_fault_breaks_positions :
  let st := run_calls Examples.toy_encode CallExamples.failed_then_added
              empty_store in
  NoDup (map doc_id (List.concat (map snd CallExamples.failed_then_added)))
  /\ keys (documents st) = [Py.u "d1"; Py.u "d2"]
  /\ index st = Some [Examples.toy_encode (embedded_text Examples.d2)]
  /\ Py.index (keys (documents st)) 0 = Some (Py.u "d1")
  /\ dict_get (Py.u "d1") (documents st) = Some Examples.d1
  /\ Examples.toy_encode (embedded_text Examples.d2)
     <> Examples.toy_encode (embedded_text Examples.d1)
  /\ search Examples.toy_encode (Examples.cfg_k 1) st (Py.u "q") None None None
     = Ok [(Examples.d1, (192 # 1)%Q)].
Proof.
  cbv zeta. split; [nodup_concrete |].
  repeat split; try (vm_compute; reflexivity).
  vm_compute. discriminate.
Qed.

Lemma store_ok_iff_distinct_ids_example :
  store_ok (run_calls Examples.toy_encode CallExamples.three_batches empty_store).
Proof.
  destruct (store_ok_iff_distinct_ids Examples.toy_encode
              CallExamples.three_batches) as (_ & _ & H).
  apply H; [repeat constructor | nodup_concrete].
Defined.

(** ** [ingest_data]: the two failures of its own, and the others *)

Section IngestCalls.

Variable encode : Py.str -> Faiss.vec.

(** Up to the call of [add_documents] nothing depends on what that call
    does. *)
Lemma ingest_env_cases : forall o fuel cfg src st fmt,
    match Ingestion.ingest_data encode fuel cfg src st fmt with
    | None => ingest_data_env encode o fuel cfg src st fmt = None
    | Some (st', Raise e) =>
      ingest_data_env encode o fuel cfg src st fmt = Some (st', Raise e)
    | Some (_, Ok n) =>
      exists st'',
        ingest_data_env encode o fuel cfg src st fmt = Some (st'', Ok n)
        \/ ingest_data_env encode o fuel cfg src st fmt
           = Some (st'', Raise StoreError)
    end.
Proof.
  intros o fuel cfg src st fmt.
  unfold Ingestion.ingest_data, ingest_data_env.
  destruct (negb (Ingestion.path_exists src)); [reflexivity |].
  destruct (Ingestion.detect_format src fmt) as [f | e]; [| reflexivity].
  destruct (Ingestion.load src f) as [docs | e]; [| reflexivity].
  destruct (Ingestion.all_chunks fuel cfg _) as [chunks|]; [| reflexivity].
  destruct (add_documents_env encode o chunks st) as [st'' [u | e]] eqn:E.
  - exists st''. now left.
  - exists st''. right.
    destruct o, chunks as [|c chunks]; cbn in E; try discriminate;
      now injection E as _ <-.
Qed.

(** C9, as the code has it. [ingest_data] fails with the not-found
    error exactly when the path does not exist. It fails with the
    format error exactly when the path exists and the format is not
    supported: the format is ['auto'] and the suffix, in lower case, is
    neither .csv nor .json, or the format is none of ['auto'], ['csv']
    and ['json'] (a format given by the caller is not looked up from
    the suffix). In these two failure cases the store is the one the
    call was given, whatever the embedding model, faiss and the file
    system would have done. *)
Theorem ingest_failures :
  forall o fuel cfg src st fmt,
    ((exists st',
         ingest_data_env encode o fuel cfg src st fmt
         = Some (st', Raise FileNotFoundError))
     <-> Ingestion.path_exists src = false)
    /\ ((exists st' msg,
            ingest_data_env encode o fuel cfg src st fmt
            = Some (st', Raise (ValueError msg)))
        <-> Ingestion.path_exists src = true
            /\ unsupported_format src fmt = true)
    /\ (forall st',
           ingest_data_env encode o fuel cfg src st fmt
           = Some (st', Raise FileNotFoundError) -> st' = st)
    /\ (forall st' msg,
           ingest_data_env encode o fuel cfg src st fmt
           = Some (st', Raise (ValueError msg)) -> st' = st).
Proof.
  intros o fuel cfg src st fmt.
  pose proof (ingest_env_cases o fuel cfg src st fmt) as Hc.
  destruct (ingest_failures_before_store encode fuel cfg src st fmt)
    as (H1 & H2 & H3).
  destruct (Ingestion.ingest_data encode fuel cfg src st fmt)
    as [[st0 [n | e]]|] eqn:E.
  - destruct Hc as [st'' [Hc | Hc]]; rewrite Hc.
    + split; [| split; [| split]].
      * split; [intros [st' H]; discriminate |].
        intros Hp. apply H1 in Hp. destruct Hp as [st' Hp]. discriminate.
      * split; [intros (st' & msg & H); discriminate |].
        intros Hp. apply H2 in Hp. destruct Hp as (st' & msg & Hp). discriminate.
      * intros st' H. discriminate.
      * intros st' msg H. discriminate.
    + split; [| split; [| split]].
      * split; [intros [st' H]; discriminate |].
        intros Hp. apply H1 in Hp. destruct Hp as [st' Hp]. discriminate.
      * split; [intros (st' & msg & H); discriminate |].
        intros Hp. apply H2 in Hp. destruct Hp as (st' & msg & Hp). discriminate.
      * intros st' H. discriminate.
      * intros st' msg H. discriminate.
  - rewrite Hc. split; [exact H1 | split; [exact H2 | split]].
    + intros st' H. injection H as <- _. now apply (H3 st0 e).
    + intros st' msg H. injection H as <- _. now apply (H3 st0 e).
  - rewrite Hc. split; [| split; [| split]].
    + split; [intros [st' H]; discriminate |].
      intros Hp. apply H1 in Hp. destruct Hp as [st' Hp]. discriminate.
    + split; [intros (st' & msg & H); discriminate |].
      intros Hp. apply H2 in Hp. destruct Hp as (st' & msg & Hp). discriminate.
    + intros st' H. discriminate.
    + intros st' msg H. discriminate.
Qed.

End IngestCalls.

Lemma ingest_failures_missing_path :
  exists st',
    ingest_data_env Examples.toy_encode EncodeRaises 10 default_settings
      Examples.missing_xml empty_store (Py.u "xml")
    = Some (st', Raise FileNotFoundError).
Proof.
  destruct (ingest_failures Examples.toy_encode EncodeRaises 10 default_settings
              Examples.missing_xml empty_store (Py.u "xml"))
    as ((_ & H) & _).
  apply H. reflexivity.
Defined.

(** A failure that is neither of the two: the file loads, the embedding
    model raises inside [add_documents]. The call fails and the store is
    not the one it was given: the dictionary holds the key of the
    document, the index holds no vector for it. *)
Lemma ingest_store_failure_changes_store :
  exists st',
    ingest_data_env Examples.toy_encode EncodeRaises 10 default_settings
      CallExamples.one_csv empty_store (Py.u "auto")
    = Some (st', Raise StoreError)
    /\ keys (documents st') = [Py.u "d1"]
    /\ index st' = None
    /\ st' <> empty_store.
Proof.
  eexists. split; [vm_compute; reflexivity |].
  split; [reflexivity | split; [reflexivity | discriminate]].
Qed.

(** ** [ingest_data]: what of a batch is indexed *)

Lemma dict_set_keys_in : forall k v d k',
    In k' (keys (dict_set k v d)) <-> k' = k \/ In k' (keys d).
Proof.
  intros k v d k'. destruct (str_list_in_dec k (keys d)) as [Hin | Hout].
  - rewrite dict_set_present by assumption. split; [now right |].
    intros [-> | H]; assumption.
  - rewrite dict_set_fresh by assumption. rewrite keys_app. cbn.
    rewrite in_app_iff. cbn. split.
    + intros [H | [H | []]]; [now right | left; now symmetry].
    + intros [-> | H]; [right; now left | now left].
Qed.

Lemma fold_dict_set_keys_in : forall docs d k,
    In k (keys (fold_left (fun d doc => dict_set (doc_id doc) doc d) docs d))
    <-> In k (keys d) \/ In k (map doc_id docs).
Proof.
  induction docs as [|doc docs IH]; intros d k; cbn [fold_left map In].
  - split; [now left | intros [H | []]; exact H].
  - rewrite IH, dict_set_keys_in. split.
    + intros [[-> | H] | H]; [right; now left | now left | right; now right].
    + intros [H | [<- | H]]; [left; now right | left; now left | now right].
Qed.

Lemma enumerate_from_nth : forall (A : Type) (l : list A) k i x,
    nth_error l i = Some x -> In ((k + i)%nat, x) (Ingestion.enumerate_from k l).
Proof.
  intros A. induction l as [|y l IH]; intros k i x H; [now destruct i |].
  destruct i as [|i]; cbn in H.
  - injection H as <-. left. f_equal. lia.
  - right. replace (k + S i)%nat with (S k + i)%nat by lia. now apply IH.
Qed.

(** A document with a long description is in the batch as the documents
    of its chunks. *)
Lemma all_chunks_long : forall fuel cfg active out,
    Ingestion.all_chunks fuel cfg active = Some out ->
    forall d, In d active -> chunk_size cfg < Py.len (description d) ->
      exists pieces,
        Ingestion.chunk_text fuel (description d) (chunk_size cfg)
          (chunk_overlap cfg) = Some pieces
        /\ forall i piece, nth_error pieces i = Some piece ->
                           In (Ingestion.chunk_doc d i piece) out.
Proof.
  intros fuel cfg. induction active as [|doc rest IH]; intros out H d Hd Hlong;
    [destruct Hd |].
  cbn [Ingestion.all_chunks] in H.
  destruct (Py.len (description doc) >? chunk_size cfg) eqn:Elong.
  - destruct (Ingestion.create_exhibition_chunks fuel cfg doc) as [here|] eqn:Ehere;
      [| discriminate].
    destruct (Ingestion.all_chunks fuel cfg rest) as [there|] eqn:Ethere;
      [| discriminate].
    injection H as <-. destruct Hd as [-> | Hd].
    + unfold Ingestion.create_exhibition_chunks in Ehere.
      destruct (Ingestion.chunk_text fuel (description d) (chunk_size cfg)
                  (chunk_overlap cfg)) as [pieces|]; [| discriminate].
      injection Ehere as <-. exists pieces. split; [reflexivity |].
      intros i piece Hi. apply in_or_app. left.
      apply in_map_iff. exists (i, piece). split; [reflexivity |].
      apply (enumerate_from_nth _ pieces 0 i piece Hi).
    + destruct (IH there eq_refl d Hd Hlong) as (pieces & Hp & Hin).
      exists pieces. split; [exact Hp |].
      intros i piece Hi. apply in_or_app. right. now apply Hin.
  - destruct (Ingestion.all_chunks fuel cfg rest) as [there|] eqn:Ethere;
      [| discriminate].
    injection H as <-. destruct Hd as [-> | Hd].
    + rewrite Z.gtb_ltb in Elong. apply Z.ltb_ge in Elong. lia.
    + destruct (IH there eq_refl d Hd Hlong) as (pieces & Hp & Hin).
      exists pieces. split; [exact Hp |].
      intros i piece Hi. right. now apply Hin.
Qed.

Lemma add_env_ok : forall encode o batch st st' u,
    add_documents_env encode o batch st = (st', Ok u) ->
    st' = add_documents encode batch st.
Proof.
  intros encode o [|doc batch] st st' u H.
  - cbn in H. now injection H as <-.
  - destruct o; cbn in H; try discriminate. now injection H as <-.
Qed.

(** C5, as the code has it. When [ingest_data] returns, the store is the
    store it was given after [add_documents] of one batch, and the number
    returned is the size of that batch. Of the documents of the file:
    one whose end date is strictly before the current date (in the
    lexicographic order of strings) is not in the batch, itself or as a
    chunk; one whose end date is not before the current date is in the
    batch as it is when its description is no longer than the chunk
    size, and otherwise as one document per chunk of its description
    (none when [chunk_text] returns no chunk). Every document of the
    batch has an end date that is not before the current date, its
    identifier is a key of the store after the call, and the index has
    grown by one vector per document of the batch. *)
Theorem expiry_filter_exact :
  forall (encode : Py.str -> Faiss.vec) (o : outcome) (fuel : nat)
         (cfg : Settings) (src : Ingestion.Source) (st st' : VectorStore)
         (file_format : Py.str) (n : Z),
    ingest_data_env encode o fuel cfg src st file_format = Some (st', Ok n) ->
    exists fmt file_docs batch,
      Ingestion.detect_format src file_format = Ok fmt
      /\ Ingestion.load src fmt = Ok file_docs
      /\ st' = add_documents encode batch st
      /\ n = Py.len batch
      /\ ntotal st' = (ntotal st + List.length batch)%nat
      /\ (forall c, In c batch ->
                    ~ lex_lt (end_date c) (Ingestion.today src)
                    /\ In (doc_id c) (keys (documents st')))
      /\ (forall d, In d file_docs ->
                    lex_lt (end_date d) (Ingestion.today src) ->
                    ~ In d batch
                    /\ forall i piece, ~ In (Ingestion.chunk_doc d i piece) batch)
      /\ (forall d, In d file_docs ->
                    ~ lex_lt (end_date d) (Ingestion.today src) ->
                    Py.len (description d) <= chunk_size cfg ->
                    In d batch)
      /\ (forall d, In d file_docs ->
                    ~ lex_lt (end_date d) (Ingestion.today src) ->
                    chunk_size cfg < Py.len (description d) ->
                    exists pieces,
                      Ingestion.chunk_text fuel (description d) (chunk_size cfg)
                        (chunk_overlap cfg) = Some pieces
                      /\ forall i piece,
                           nth_error pieces i = Some piece ->
                           In (Ingestion.chunk_doc d i piece) batch).
Proof.
  intros encode o fuel cfg src st st' file_format n H.
  unfold ingest_data_env in H.
  destruct (negb (Ingestion.path_exists src)); [discriminate |].
  destruct (Ingestion.detect_format src file_format) as [fmt | e] eqn:Ef;
    [| discriminate].
  destruct (Ingestion.load src fmt) as [file_docs | e] eqn:El; [| discriminate].
  destruct (Ingestion.all_chunks fuel cfg
              (Ingestion.active_documents (Ingestion.today src) file_docs))
    as [batch|] eqn:Eb; [| discriminate].
  destruct (add_documents_env encode o batch st) as [st1 [u | e]] eqn:Ea;
    [| discriminate].
  injection H as <- <-. apply add_env_ok in Ea. subst st1.
  destruct (expiry_filter_batch (Ingestion.today src) file_docs)
    as (Hkeep & _ & Hbatch).
  destruct (Hbatch fuel cfg batch Eb) as [Hdates Hshort].
  exists fmt, file_docs, batch.
  split; [reflexivity |]. split; [exact El |]. split; [reflexivity |].
  split; [reflexivity |]. split; [apply ntotal_add_documents |].
  split; [| split; [| split]].
  - intros c Hc. split; [now apply Hdates |].
    rewrite documents_add_documents. apply fold_dict_set_keys_in.
    right. now apply in_map.
  - intros d Hd Hlt. split.
    + intros Hin. now apply (Hdates d Hin).
    + intros i piece Hin. apply (Hdates _ Hin).
      now rewrite chunk_doc_end_date.
  - intros d Hd Hn Hlen. now apply Hshort.
  - intros d Hd Hn Hlong.
    apply (all_chunks_long fuel cfg _ batch Eb d); [| exact Hlong].
    apply Hkeep. now split.
Qed.

Lemma expiry_filter_example :
  In Examples.d1 [Examples.d1]
  /\ ~ In Examples.d3 [Examples.d1]
  /\ In (Py.u "d1")
       (keys (documents (add_documents Examples.toy_encode [Examples.d1]
                           empty_store))).
Proof.
  assert (Hrun : ingest_data_env Examples.toy_encode Returns 10 default_settings
                   Examples.some_csv empty_store (Py.u "auto")
                 = Some (add_documents Examples.toy_encode [Examples.d1]
                           empty_store, Ok 1))
    by (vm_compute; reflexivity).
  destruct (expiry_filter_exact _ _ _ _ _ _ _ _ _ Hrun)
    as (fmt & file_docs & batch & Hf & Hl & Hst & _ & _ & Hin & Hout & Hshort & _).
  assert (Efmt : fmt = Py.u "csv")
    by (vm_compute in Hf; injection Hf as <-; reflexivity).
  subst fmt.
  assert (Edocs : file_docs = [Examples.d1; Examples.d3])
    by (vm_compute in Hl; injection Hl as <-; vm_compute; reflexivity).
  subst file_docs.
  assert (H1 : In Examples.d1 batch).
  { apply Hshort; [now left | | vm_compute; discriminate].
    apply ge_not_lt. vm_compute. reflexivity. }
  assert (H3 : ~ In Examples.d3 batch).
  { apply (Hout Examples.d3); [right; now left |].
    apply str_cmp_lt. vm_compute. reflexivity. }
  assert (Hb : batch = [Examples.d1]).
  { destruct batch as [|c [|c' batch]].
    - destruct H1.
    - destruct H1 as [-> | []]. reflexivity.
    - exfalso. apply (f_equal ntotal) in Hst.
      rewrite ntotal_add_documents in Hst. cbn in Hst. discriminate. }
  subst batch. split; [exact H1 | split; [exact H3 |]].
  destruct (Hin Examples.d1 H1) as [_ Hk]. exact Hk.
Defined.

(** A running exhibition whose description is 600 blanks, with the
    default settings: every chunk is empty after trimming and is
    skipped, so that the call returns 0 and the store is as before. The
    document has not expired and nothing of it is indexed. *)
Lemma expiry_filter_blank_description :
  Py.ge (end_date ExpiryExamples.blank_doc)
    (Ingestion.today ExpiryExamples.blank_csv) = true
  /\ Ingestion.ingest_data Examples.toy_encode 10 default_settings
       ExpiryExamples.blank_csv empty_store (Py.u "csv")
     = Some (empty_store, Ok 0)
  /\ dict_get (doc_id ExpiryExamples.blank_doc) (documents empty_store) = None.
Proof.
  split; [vm_compute; reflexivity |].
  split; [vm_compute; reflexivity | reflexivity].
Qed.

(** ** Chunking: the chunks put together again *)

Lemma firstn_same_clip : forall (A : Type) (l : list A) n m,
    Nat.min n (List.length l) = Nat.min m (List.length l) ->
    firstn n l = firstn m l.
Proof.
  intros A. induction l as [|x l IH]; intros n m H.
  - now rewrite !firstn_nil.
  - destruct n as [|n], m as [|m]; cbn in H; try discriminate; [reflexivity |].
    cbn [firstn]. f_equal. apply IH. lia.
Qed.

Lemma reassemble_snoc : forall overlap c r piece,
    reassemble overlap ((c :: r) ++ [piece])
    = reassemble overlap (c :: r) ++ skipn (Z.to_nat overlap) piece.
Proof.
  intros overlap c r piece. unfold reassemble. cbn [app].
  rewrite map_app, concat_app. cbn [map List.concat].
  now rewrite app_nil_r, app_assoc.
Qed.

(** On a text without white space whose windows all pass the overlap,
    the loop ends, and what has been put together so far is the text up
    to the end of the last window. *)
Lemma chunk_loop_roundtrip : forall text size overlap,
    0 <= overlap < size ->
    windows_pass_overlap text size overlap ->
    Forall (fun c => Py.isspace c = false) text ->
    forall fuel start chunks,
      0 <= start < Py.len text ->
      (Z.to_nat (Py.len text - start) <= fuel)%nat ->
      (chunks = [] /\ start = 0
       \/ chunks <> []
          /\ reassemble overlap chunks
             = firstn (Z.to_nat (start + overlap)) text) ->
      exists out,
        Ingestion.chunk_loop fuel text size overlap start chunks = Some out
        /\ reassemble overlap out = text.
Proof.
  intros text size overlap Hov Hwin Hns. induction fuel as [|fuel IH];
    intros start chunks Hstart Hfuel Hinv; [lia |].
  cbn [Ingestion.chunk_loop].
  destruct (start <? Py.len text) eqn:Elt; [| apply Z.ltb_ge in Elt; lia].
  unfold Ingestion.chunk_step.
  destruct (window_end_range text size start ltac:(lia) ltac:(lia)) as [Hw _].
  pose proof (Hwin start Hstart) as Hpass.
  set (e := Ingestion.window_end text size start) in *.
  rewrite (slice_inside _ text start e) by lia.
  rewrite strip_id by now apply Forall_firstn_keep, Forall_skipn_keep.
  remember (firstn (Z.to_nat (Z.min e (Py.len text) - start))
              (skipn (Z.to_nat start) text)) as piece eqn:Epiece.
  assert (Hne : Py.nonempty piece = true).
  { destruct piece as [|ch rest]; [| reflexivity]. exfalso.
    apply (f_equal (@List.length N)) in Epiece.
    rewrite length_firstn, length_skipn in Epiece. cbn [List.length] in Epiece.
    unfold Py.len in *. lia. }
  rewrite Hne.
  assert (Hcat : reassemble overlap (chunks ++ [piece])
                 = firstn (Z.to_nat e) text).
  { destruct Hinv as [[-> ->] | [Hc Hcat]].
    - cbn [app reassemble map List.concat]. rewrite app_nil_r, Epiece.
      cbn [Z.to_nat skipn]. apply firstn_same_clip. unfold Py.len. lia.
    - destruct chunks as [|c r]; [now contradiction Hc |].
      rewrite reassemble_snoc, Hcat, Epiece.
      rewrite skipn_firstn_comm, skipn_skipn.
      replace (Z.to_nat overlap + Z.to_nat start)%nat
        with (Z.to_nat (start + overlap)) by lia.
      rewrite firstn_extend. apply firstn_same_clip. unfold Py.len. lia. }
  destruct (e - overlap >=? Py.len text) eqn:Ege.
  - exists (chunks ++ [piece]). split; [reflexivity |].
    apply Z.geb_le in Ege. etransitivity; [exact Hcat |].
    apply firstn_all2. unfold Py.len in *. lia.
  - assert (Hlt : e - overlap < Py.len text).
    { destruct (Z_lt_le_dec (e - overlap) (Py.len text)) as [L | G];
        [assumption |].
      apply Z.geb_le in G. rewrite G in Ege. discriminate. }
    apply IH.
    + lia.
    + lia.
    + right. split.
      * destruct chunks; discriminate.
      * etransitivity; [exact Hcat |]. f_equal. lia.
Qed.

(** The windows pass the overlap when the overlap is 0 or 1, and when the
    text holds no sentence end. *)
Lemma windows_pass_small_or_plain : forall text size overlap,
    0 <= overlap < size ->
    overlap <= 1 \/ no_sentence_end text ->
    windows_pass_overlap text size overlap.
Proof.
  intros text size overlap Hov [Hsmall | Hplain] start Hstart.
  - destruct (Z.eq_dec overlap 0) as [-> | Hnz].
    + destruct (window_end_range text size start ltac:(lia) ltac:(lia)) as [Hw _].
      lia.
    + pose proof (window_end_step text size start ltac:(lia) ltac:(lia)). lia.
  - rewrite window_end_plain by assumption. lia.
Qed.

(** C6, as the code has it. For a description longer than the chunk
    size and 0 <= overlap < chunk size, every chunk that [chunk_text]
    returns is a slice of the description with the white space at its two
    ends removed; it is not empty and its length is at most the chunk
    size, whether or not a sentence boundary exists (no chunk is ever
    oversized). The chunks, each but the first without its first
    [overlap] characters, give the description back when nothing is
    trimmed and every window is longer than the overlap: for a
    description without white space all of whose windows, cut after a
    sentence end or not, end more than [overlap] characters after their
    start, [chunk_text] returns and the chunks put together are the
    description. The windows are so whenever the overlap is 0 or 1, and
    whenever the description holds no sentence end. *)
Theorem chunk_text_chunks :
  forall (text : Py.str) (size overlap : Z),
    0 <= overlap < size -> size < Py.len text ->
    (forall fuel chunks,
        Ingestion.chunk_text fuel text size overlap = Some chunks ->
        Forall (good_chunk text size) chunks)
    /\ (windows_pass_overlap text size overlap ->
        Forall (fun c => Py.isspace c = false) text ->
        forall fuel, (List.length text <= fuel)%nat ->
        exists chunks,
          Ingestion.chunk_text fuel text size overlap = Some chunks
          /\ reassemble overlap chunks = text)
    /\ (overlap <= 1 \/ no_sentence_end text ->
        windows_pass_overlap text size overlap).
Proof.
  intros text size overlap Hov Hlong.
  destruct (chunk_text_chunks_no_overlap text size overlap Hov Hlong)
    as [Hgood _].
  split; [exact Hgood | split].
  - intros Hwin Hns fuel Hfuel. unfold Ingestion.chunk_text.
    assert (Elong : (Py.len text <=? size) = false) by (apply Z.leb_gt; lia).
    rewrite Elong.
    apply (chunk_loop_roundtrip text size overlap Hov Hwin Hns fuel 0 []).
    + lia.
    + unfold Py.len. lia.
    + left. now split.
  - now apply windows_pass_small_or_plain.
Qed.

Lemma chunk_text_plain_roundtrip :
  exists chunks,
    Ingestion.chunk_text 12 ChunkExamples.plain_text 5 3 = Some chunks
    /\ reassemble 3 chunks = ChunkExamples.plain_text.
Proof.
  destruct (chunk_text_chunks ChunkExamples.plain_text 5 3) as (_ & H & Hp).
  - lia.
  - vm_compute. reflexivity.
  - apply H.
    + apply Hp. right. vm_compute. intuition discriminate.
    + repeat constructor.
    + vm_compute. lia.
Defined.

(** With sentence ends and an overlap of 1: the windows are cut after
    the full stop and after the exclamation mark, and the chunks put
    together are the text. *)
Lemma chunk_text_sentences_roundtrip :
  Ingestion.chunk_text 12 ChunkExamples.sentences_text 5 1
  = Some [Py.u "a."; Py.u ".bcde"; Py.u "efgh!"; Py.u "!jk"]
  /\ reassemble 1 [Py.u "a."; Py.u ".bcde"; Py.u "efgh!"; Py.u "!jk"]
     = ChunkExamples.sentences_text.
Proof. split; vm_compute; reflexivity. Qed.

(** Without white space but with a sentence end: with chunk size 10 and
    overlap 5, "a.bbbbbbbbbbbb" is cut after the full stop, two characters
    in, so that the next window starts before the text; the chunks put
    together again are "a." and the last seven characters, and the five
    characters in between are missing. *)
Lemma chunk_roundtrip_short_sentence :
  10 < Py.len ChunkExamples.short_sentence_text
  /\ Forall (fun c => Py.isspace c = false) ChunkExamples.short_sentence_text
  /\ Ingestion.chunk_text 20 ChunkExamples.short_sentence_text 10 5
     = Some [Py.u "a."; Py.u "bbbbbbbbbb"; Py.u "bbbbbbb"; Py.u "bb"]
  /\ reassemble 5 [Py.u "a."; Py.u "bbbbbbbbbb"; Py.u "bbbbbbb"; Py.u "bb"]
     = Py.u "a.bbbbbbb"
  /\ reassemble 5 [Py.u "a."; Py.u "bbbbbbbbbb"; Py.u "bbbbbbb"; Py.u "bb"]
     <> ChunkExamples.short_sentence_text.
Proof.
  split; [reflexivity |]. split; [repeat constructor |].
  split; [vm_compute; reflexivity |]. split; [vm_compute; reflexivity |].
  vm_compute. discriminate.
Qed.
